(** * DSHIELD crowd-safety platform: a shallow embedding of the edge and
      backend code, and the properties established about it.

    The development follows the layout of the repository:

    - [Py]                 the fragment of Python values and container
                           operations the code relies on;
    - [Config]             [utils/config.py];
    - [EdgeProcessor]      [processors/edge_processor.py];
    - [DeviceMonitor]      [processors/device_monitor.py];
    - [EdgeApp]            [main.py];
    - [Np]                 the numeric routines used by the two models;
    - [BehaviorAnalyzer]   [models/behavior_analyzer.py];
    - [EmergencyDetector]  [models/emergency_detector.py];
    - [MQTTClient]         [processors/mqtt_client.py];
    - [ApiServer]          [backend/api_server.py].

    Conventions.  Python [float]s are modelled by exact rationals ([Q]);
    rounding errors of binary floating point are not modelled.  A Python
    [dict] is an insertion-ordered association list with distinct keys;
    the cooldown table of the edge processor, which is only looked up and
    updated by key, is a finite map.
    A computation that may raise returns an [option] ([None] = an exception
    was raised); the [try]/[except] blocks of the source are written out at
    the place where the source has them.  Wall-clock readings, random
    identifiers and the results of external libraries (video, network,
    model inference) are inputs of the functions that use them. *)

From Stdlib Require Import ZArith QArith Qminmax Qround Qabs.
From Stdlib Require Import String Ascii List Bool Lia Lqa DecimalString.
From stdpp Require Import base option strings gmap.
Import ListNotations.

Local Open Scope string_scope.
Local Open Scope list_scope.

(** ** Python values *)

Module Py.

#[local] Set Warnings "-register-all".

Inductive pyval : Type :=
| PNone
| PBool (b : bool)
| PInt (n : Z)
| PFloat (q : Q)
| PStr (s : string)
| PList (l : list pyval)
| PDict (d : list (string * pyval)).

(** An insertion-ordered dictionary with string keys. *)
Definition dict (V : Type) : Type := list (string * V).

Fixpoint dict_get {V} (k : string) (d : dict V) : option V :=
  match d with
  | [] => None
  | (k', v) :: d' => if String.eqb k k' then Some v else dict_get k d'
  end.

(** [d[k] = v]: an existing key keeps its position, a new key is
    appended. *)
Fixpoint dict_set {V} (k : string) (v : V) (d : dict V) : dict V :=
  match d with
  | [] => [(k, v)]
  | (k', v') :: d' =>
      if String.eqb k k' then (k', v) :: d' else (k', v') :: dict_set k v d'
  end.

Definition dict_keys {V} (d : dict V) : list string := List.map fst d.
Definition dict_values {V} (d : dict V) : list V := List.map snd d.

(** [d.get(k, default)]. *)
Definition dict_get_default {V} (k : string) (default : V) (d : dict V) : V :=
  match dict_get k d with Some v => v | None => default end.

(** [v.get(k, default)] on an arbitrary value: [AttributeError] unless
    [v] is a dict. *)
Definition py_get (k : string) (default : pyval) (v : pyval) : option pyval :=
  match v with
  | PDict d => Some (dict_get_default k default d)
  | _ => None
  end.

(** [v[k]] with a string key: [KeyError] on a dict without the key,
    [TypeError] on every other value. *)
Definition py_subscript (v : pyval) (k : string) : option pyval :=
  match v with
  | PDict d => dict_get k d
  | _ => None
  end.

(** [v[k] = x] with a string key: [TypeError] unless [v] is a dict. *)
Definition py_setitem (v : pyval) (k : string) (x : pyval) : option pyval :=
  match v with
  | PDict d => Some (PDict (dict_set k x d))
  | _ => None
  end.

(** The numeric value of an operand of an arithmetic comparison
    ([bool] is a subclass of [int]). *)
Definition as_number (v : pyval) : option Q :=
  match v with
  | PBool b => Some (if b then 1 else 0)%Q
  | PInt n => Some (inject_Z n)
  | PFloat q => Some q
  | _ => None
  end.

Definition Qltb (a b : Q) : bool := negb (Qle_bool b a).

(** [v > c] for a numeric constant [c]: [TypeError] when [v] is not a
    number. *)
Definition py_gt (v : pyval) (c : Q) : option bool :=
  match as_number v with
  | Some q => Some (Qltb c q)
  | None => None
  end.

(** Truth value of a Python object. *)
Definition truthy (v : pyval) : bool :=
  match v with
  | PNone => false
  | PBool b => b
  | PInt n => negb (n =? 0)%Z
  | PFloat q => negb (Qeq_bool q 0)
  | PStr s => negb (String.eqb s "")
  | PList l => match l with [] => false | _ => true end
  | PDict d => match d with [] => false | _ => true end
  end.

Definition is_dict (v : pyval) : bool :=
  match v with PDict _ => true | _ => false end.

(** [v == s] for a string [s]. *)
Definition eq_str (v : pyval) (s : string) : bool :=
  match v with PStr s' => String.eqb s' s | _ => false end.

(** [needle in hay] on strings. *)
Fixpoint contains (needle hay : string) : bool :=
  String.prefix needle hay
  || match hay with
     | EmptyString => false
     | String _ rest => contains needle rest
     end.

(** [s.split(sep)] for a one-character separator; the result is never
    empty. *)
Fixpoint split (sep : ascii) (s : string) : list string :=
  match s with
  | EmptyString => [EmptyString]
  | String c rest =>
      if Ascii.eqb c sep then EmptyString :: split sep rest
      else match split sep rest with
           | [] => [String c EmptyString]
           | w :: ws => String c w :: ws
           end
  end.

(** [l[start:]] with Python's treatment of negative and out-of-range
    bounds. *)
Definition slice_from {A} (start : Z) (l : list A) : list A :=
  let len := Z.of_nat (List.length l) in
  let i := if (start <? 0)%Z then Z.max (len + start) 0 else Z.min start len in
  skipn (Z.to_nat i) l.

(** [round(x)] to the nearest integer, ties to even. *)
Definition round_half_even (q : Q) : Z :=
  let f := Qfloor q in
  let r := (q - inject_Z f)%Q in
  if Qltb r (1 # 2) then f
  else if Qltb (1 # 2) r then (f + 1)%Z
  else if Z.even f then f else (f + 1)%Z.

(** [round(x, ndigits)]. *)
Definition py_round (q : Q) (ndigits : nat) : Q :=
  let scale := inject_Z (10 ^ Z.of_nat ndigits) in
  (inject_Z (round_half_even (q * scale)) / scale)%Q.

Fixpoint Qsum (l : list Q) : Q :=
  match l with
  | [] => 0
  | x :: l' => x + Qsum l'
  end%Q.

(** [str(n)] for an integer. *)
Definition str_of_Z (n : Z) : string := NilZero.string_of_int (Z.to_int n).

End Py.

(** ** Configuration loader ([utils/config.py]) *)

Module Config.
Import Py.

(** [Config._get_default_config]. *)
Definition _get_default_config : pyval :=
  PDict
    [ ("grid", PDict
         [ ("id", PStr "G01");
           ("zone_type", PStr "stand");
           ("area_sqm", PInt 750);
           ("capacity", PInt 200);
           ("location", PDict
              [ ("section", PStr "North Stand");
                ("level", PInt 1);
                ("position", PDict [ ("x", PInt (-75)); ("y", PInt 5); ("z", PInt (-60)) ]) ]) ]);
      ("density_thresholds", PDict
         [ ("normal", PInt 60); ("moderate", PInt 100);
           ("high", PInt 150); ("critical", PInt 200) ]);
      ("camera", PDict
         [ ("device_index", PInt 0); ("width", PInt 1920); ("height", PInt 1080);
           ("fps", PInt 30); ("rotation", PInt 0) ]);
      ("models", PDict
         [ ("people_counter", PStr "models/yolov8n.pt");
           ("behavior_analyzer", PStr "models/behavior_lstm.h5");
           ("emergency_detector", PStr "models/emergency_cnn.h5");
           ("confidence_threshold", PFloat (1 # 2));
           ("sequence_length", PInt 16) ]);
      ("mqtt", PDict
         [ ("host", PStr "localhost"); ("port", PInt 1883);
           ("username", PNone); ("password", PNone);
           ("ssl", PBool false); ("keepalive", PInt 60); ("qos", PInt 1) ]);
      ("processing", PDict
         [ ("frame_skip", PInt 0);
           ("enable_people_counting", PBool true);
           ("enable_behavior_analysis", PBool true);
           ("enable_emergency_detection", PBool true) ]);
      ("storage", PDict
         [ ("video_buffer_path", PStr "data/video_buffer");
           ("logs_path", PStr "data/logs");
           ("analytics_path", PStr "data/analytics");
           ("retention_hours", PInt 24) ]);
      ("monitoring", PDict
         [ ("interval", PInt 30);
           ("thresholds", PDict
              [ ("cpu_temp", PFloat 80); ("cpu_usage", PFloat 90);
                ("memory_usage", PFloat 95); ("disk_usage", PFloat 90) ]) ]);
      ("logging", PDict [ ("level", PStr "INFO"); ("console_output", PBool true) ]);
      ("debug", PDict
         [ ("enable_mock_models", PBool false);
           ("save_debug_images", PBool false);
           ("show_preview", PBool false) ]) ].

(** The loop [for k in keys: value = value[k]] of [Config.get]; [None] is
    the [KeyError] or [TypeError] the source catches. *)
Fixpoint get_path (keys : list string) (value : pyval) : option pyval :=
  match keys with
  | [] => Some value
  | k :: ks =>
      match py_subscript value k with
      | Some v => get_path ks v
      | None => None
      end
  end.

(** [Config.get(key, default)] on the document [config_data]. *)
Definition get (config_data : pyval) (key : string) (default : pyval) : pyval :=
  match get_path (split "." key) config_data with
  | Some v => v
  | None => default
  end.

(** The body of [Config.set] on the list of keys: the loop over
    [keys[:-1]] that creates a missing intermediate map and descends, then
    the assignment of the last key.  The nested dictionaries are mutated in
    place in the source; here the updated document is rebuilt along the
    path.  [None] is the [TypeError] raised when the descent meets a value
    that is not a dict ([k not in config], [config[k]] or the item
    assignment fails); nothing has been modified when that happens, since a
    map created by the loop is never the value that fails. *)
Fixpoint set_path (keys : list string) (value : pyval) (config : pyval)
  : option pyval :=
  match keys with
  | [] => None
  | k :: ks =>
      match ks with
      | [] => py_setitem config k value
      | _ :: _ =>
          match config with
          | PDict d =>
              let child :=
                match dict_get k d with
                | Some c => c
                | None => PDict []
                end in
              match set_path ks value child with
              | Some child' => Some (PDict (dict_set k child' d))
              | None => None
              end
          | _ => None
          end
      end
  end.

(** [Config.set(key, value)]: the new document, or [None] when the call
    raises (the document is then unchanged). *)
Definition set (config_data : pyval) (key : string) (value : pyval)
  : option pyval :=
  set_path (split "." key) value config_data.

(** The value found in a document at the end of a path of keys, as a
    relation: every step but the last goes through a map. *)
Inductive path_value : list string -> pyval -> pyval -> Prop :=
| path_here v : path_value [] v v
| path_step k ks d c v :
    dict_get k d = Some c -> path_value ks c v ->
    path_value (k :: ks) (PDict d) v.

(** A path along which [set] can descend: every key before the last is
    either absent from the map it is looked up in, or bound to a value
    along which the rest of the path can be set; the value to assign into
    is a map. *)
Inductive settable : list string -> pyval -> Prop :=
| settable_last k d : settable [k] (PDict d)
| settable_missing k k' ks d :
    dict_get k d = None -> settable (k :: k' :: ks) (PDict d)
| settable_present k k' ks d c :
    dict_get k d = Some c -> settable (k' :: ks) c ->
    settable (k :: k' :: ks) (PDict d).

End Config.

(** ** Edge processor ([processors/edge_processor.py]) *)

Module EdgeProcessor.
Import Py.

(** The entries of [behavior_alerts] built by [analyze_behavior] and the
    [emergency_status] built by [detect_emergencies], restricted to the
    keys [generate_alerts] reads. *)
Record behavior_alert : Type := {
  ba_behavior : string;
  ba_confidence : Q;
  ba_severity : string
}.

Record emergency_status : Type := {
  es_status : string;
  es_type : option string;
  es_confidence : Q
}.

(** The attributes of an [EdgeProcessor] the alerting policy depends on.
    [alert_ids_drawn] counts the calls to [generate_alert_id]. *)
Record processor : Type := {
  grid_id : string;
  grid_area : Q;
  density_thresholds : dict Z;
  alert_cooldown : gmap string Q;
  alert_ids_drawn : nat
}.

(** What one evaluation reads from outside: the wall clock ([time.time()],
    taken as one instant for the whole evaluation), its ISO rendering, and
    the identifiers [generate_alert_id] returns, in the order drawn. *)
Record env : Type := {
  now : Q;
  now_iso : string;
  alert_id : nat -> string
}.

(** The thresholds [__init__] falls back to. *)
Definition default_thresholds : dict Z :=
  [ ("normal", 60); ("moderate", 100); ("high", 150); ("critical", 200) ]%Z.

(** The [if]/[elif] chain shared by [calculate_crowd_density] and
    [get_threshold_status]; [lowest] is the name given to the first
    bucket.  A threshold is looked up only when its branch is reached;
    [None] is the [KeyError] of a missing threshold. *)
Definition bucket (lowest : string) (thresholds : dict Z) (people_count : Z)
  : option string :=
  normal ← dict_get "normal" thresholds;
  if (people_count <=? normal)%Z then Some lowest
  else
    moderate ← dict_get "moderate" thresholds;
    if (people_count <=? moderate)%Z then Some "moderate"
    else
      high ← dict_get "high" thresholds;
      if (people_count <=? high)%Z then Some "high"
      else Some "critical".

(** [EdgeProcessor.calculate_crowd_density]: the level and the percentage
    rounded to two digits.  The division raises when the area is zero. *)
Definition calculate_crowd_density (p : processor) (people_count : Z)
  : option (string * Q) :=
  if Qeq_bool (grid_area p) 0 then None
  else
    let density_per_sqm := (inject_Z people_count / grid_area p)%Q in
    let density_percentage := Qmin ((density_per_sqm / 4) * 100) 100 in
    density_level ← bucket "low" (density_thresholds p) people_count;
    Some (density_level, py_round density_percentage 2).

(** [EdgeProcessor.get_threshold_status]. *)
Definition get_threshold_status (p : processor) (people_count : Z)
  : option string :=
  bucket "normal" (density_thresholds p) people_count.

(** The order low/normal < moderate < high < critical on level names. *)
Definition level_rank (level : string) : nat :=
  if String.eqb level "moderate" then 1
  else if String.eqb level "high" then 2
  else if String.eqb level "critical" then 3
  else 0.

(** [EdgeProcessor.is_alert_in_cooldown]. *)
Definition is_alert_in_cooldown (e : env) (p : processor) (alert_key : string)
  : bool :=
  match alert_cooldown p !! alert_key with
  | None => false
  | Some cooldown_until => Qltb (now e) cooldown_until
  end.

(** [EdgeProcessor.set_alert_cooldown]. *)
Definition set_alert_cooldown (e : env) (p : processor) (alert_key : string)
  (cooldown_seconds : Q) : processor :=
  {| grid_id := grid_id p;
     grid_area := grid_area p;
     density_thresholds := density_thresholds p;
     alert_cooldown := <[alert_key := (now e + cooldown_seconds)%Q]> (alert_cooldown p);
     alert_ids_drawn := alert_ids_drawn p |}.

(** [generate_alert_id()]: the next identifier of the supply. *)
Definition generate_alert_id (e : env) (p : processor) : string * processor :=
  (alert_id e (alert_ids_drawn p),
   {| grid_id := grid_id p;
      grid_area := grid_area p;
      density_thresholds := density_thresholds p;
      alert_cooldown := alert_cooldown p;
      alert_ids_drawn := S (alert_ids_drawn p) |}).

Definition str_in (s : string) (l : list string) : bool :=
  existsb (String.eqb s) l.

(** First block of [generate_alerts]: the crowd-density alert. *)
Definition density_block (e : env) (p : processor) (people_count : Z)
  : option (list pyval * processor) :=
  threshold_status ← get_threshold_status p people_count;
  if str_in threshold_status ["high"; "critical"] then
    let alert_key := ("density_" ++ threshold_status)%string in
    if negb (is_alert_in_cooldown e p alert_key) then
      let '(id, p1) := generate_alert_id e p in
      let alert :=
        PDict
          [ ("id", PStr id);
            ("type", PStr "crowd_density");
            ("severity", PStr threshold_status);
            ("message", PStr ("Crowd density " ++ threshold_status ++ ": "
                              ++ str_of_Z people_count ++ " people detected")%string);
            ("grid_id", PStr (grid_id p));
            ("timestamp", PStr (now_iso e));
            ("people_count", PInt people_count);
            ("threshold_exceeded",
             PInt (dict_get_default threshold_status 0%Z (density_thresholds p))) ] in
      Some ([alert], set_alert_cooldown e p1 alert_key 60)
    else Some ([], p)
  else Some ([], p).

(** One iteration of the loop over [behavior_alerts]. *)
Definition behavior_step (e : env) (acc : list pyval * processor)
  (b : behavior_alert) : list pyval * processor :=
  let '(alerts, p) := acc in
  if str_in (ba_severity b) ["high"; "critical"] then
    let alert_key := ("behavior_" ++ ba_behavior b)%string in
    if negb (is_alert_in_cooldown e p alert_key) then
      let '(id, p1) := generate_alert_id e p in
      let alert :=
        PDict
          [ ("id", PStr id);
            ("type", PStr "behavior_anomaly");
            ("severity", PStr (ba_severity b));
            ("message", PStr ("Abnormal behavior detected: " ++ ba_behavior b)%string);
            ("grid_id", PStr (grid_id p));
            ("timestamp", PStr (now_iso e));
            ("behavior", PStr (ba_behavior b));
            ("confidence", PFloat (ba_confidence b)) ] in
      (alerts ++ [alert], set_alert_cooldown e p1 alert_key 30)
    else (alerts, p)
  else (alerts, p).

(** [str(x)] of the emergency type inside an f-string. *)
Definition str_of_type (t : option string) : string :=
  match t with Some s => s | None => "None" end.

Definition pyval_of_type (t : option string) : pyval :=
  match t with Some s => PStr s | None => PNone end.

(** Last block of [generate_alerts]: the emergency alert. *)
Definition emergency_block (e : env) (acc : list pyval * processor)
  (es : emergency_status) : list pyval * processor :=
  let '(alerts, p) := acc in
  if str_in (es_status es) ["warning"; "emergency"] then
    let alert_key := ("emergency_" ++ str_of_type (es_type es))%string in
    if negb (is_alert_in_cooldown e p alert_key) then
      let '(id, p1) := generate_alert_id e p in
      let alert :=
        PDict
          [ ("id", PStr id);
            ("type", PStr "emergency");
            ("severity",
             PStr (if String.eqb (es_status es) "emergency" then "critical" else "high"));
            ("message", PStr ("Emergency detected: " ++ str_of_type (es_type es))%string);
            ("grid_id", PStr (grid_id p));
            ("timestamp", PStr (now_iso e));
            ("emergency_type", pyval_of_type (es_type es));
            ("confidence", PFloat (es_confidence es)) ] in
      (alerts ++ [alert], set_alert_cooldown e p1 alert_key 10)
    else (alerts, p)
  else (alerts, p).

(** [EdgeProcessor.generate_alerts]: the alerts fired by one evaluation
    and the processor afterwards.  Every alert returned is also handed to
    the messaging client on the grid's alert topic, in the same order. *)
Definition generate_alerts (e : env) (p : processor) (people_count : Z)
  (behavior_alerts : list behavior_alert) (es : emergency_status)
  : option (list pyval * processor) :=
  acc ← density_block e p people_count;
  Some (emergency_block e (fold_left (behavior_step e) behavior_alerts acc) es).

(** A crowd-density alert carrying the given threshold status. *)
Definition is_density_alert (status : string) (alert : pyval) : bool :=
  match py_subscript alert "type", py_subscript alert "severity" with
  | Some t, Some s => eq_str t "crowd_density" && eq_str s status
  | _, _ => false
  end.

(** One evaluation of a run: the clock and the inputs it is given. *)
Record evaluation : Type := {
  ev_env : env;
  ev_people_count : Z;
  ev_behavior_alerts : list behavior_alert;
  ev_emergency : emergency_status
}.

(** Successive evaluations of [generate_alerts] on one processor; an
    evaluation that raises leaves the processor as it was (the exception
    is caught by [process_frame]) and contributes no alerts. *)
Fixpoint run (evs : list evaluation) (p : processor)
  : list (list pyval) * processor :=
  match evs with
  | [] => ([], p)
  | ev :: evs' =>
      let '(alerts, p1) :=
        match generate_alerts (ev_env ev) p (ev_people_count ev)
                (ev_behavior_alerts ev) (ev_emergency ev) with
        | Some r => r
        | None => ([], p)
        end in
      let '(outs, p2) := run evs' p1 in
      (alerts :: outs, p2)
  end.

(** The processor as [__init__] leaves it for the default configuration. *)
Definition default_processor : processor :=
  {| grid_id := "G01"; grid_area := 750;
     density_thresholds := default_thresholds;
     alert_cooldown := ∅; alert_ids_drawn := 0 |}.

(** The cooldown key of the crowd-density alert of a status. *)
Definition density_key (status : string) : string := ("density_" ++ status)%string.

(** What the later blocks of [generate_alerts] may not disturb: the
    density alerts already collected, the cooldown entry of a density key
    and the thresholds. *)
Definition same_density_view (status : string)
  (r r' : list pyval * processor) : Prop :=
  existsb (is_density_alert status) (fst r') = existsb (is_density_alert status) (fst r)
  /\ alert_cooldown (snd r') !! density_key status
     = alert_cooldown (snd r) !! density_key status
  /\ density_thresholds (snd r') = density_thresholds (snd r).

(** An evaluation that is held back from firing the density alert of
    [status] while its key is armed until [cooldown_until]: its clock
    reading lies inside the window, or its people count does not have that
    threshold status. *)
Definition held_back (p : processor) (status : string) (cooldown_until : Q)
  (ev : evaluation) : Prop :=
  (now (ev_env ev) < cooldown_until)%Q
  \/ get_threshold_status p (ev_people_count ev) <> Some status.

(** A clock reading with its rendering, and a supply of identifiers. *)
Definition env_at (t : Q) (iso : string) : env :=
  {| now := t; now_iso := iso; alert_id := fun n => ("ALT-" ++ str_of_Z (Z.of_nat n))%string |}.

Definition clear_status : emergency_status :=
  {| es_status := "clear"; es_type := None; es_confidence := 0 |}.

End EdgeProcessor.

(** ** Device monitor ([processors/device_monitor.py]) *)

Module DeviceMonitor.
Import Py.

(** What [psutil.virtual_memory()] and [psutil.swap_memory()] report. *)
Record memory_reading : Type := {
  mem_total : Z; mem_available : Z; mem_used : Z; mem_percent : Q;
  swap_total : Z; swap_used : Z; swap_percent : Q
}.

(** [DeviceMonitor._get_memory_usage]; [None] stands for a reading that
    raises, which the source answers with the fallback map. *)
Definition _get_memory_usage (reading : option memory_reading) : pyval :=
  match reading with
  | Some m =>
      PDict
        [ ("total", PInt (mem_total m));
          ("available", PInt (mem_available m));
          ("used", PInt (mem_used m));
          ("percentage", PFloat (py_round (mem_percent m) 1));
          ("swap_total", PInt (swap_total m));
          ("swap_used", PInt (swap_used m));
          ("swap_percentage", PFloat (py_round (swap_percent m) 1)) ]
  | None =>
      PDict [ ("total", PInt 0); ("available", PInt 0); ("used", PInt 0);
              ("percentage", PInt 0) ]
  end.

(** The outcome of [psutil.disk_usage(mountpoint)]. *)
Inductive usage_result : Type :=
| Usage (total used free : Z)
| PermissionDenied
| UsageFails.

Record partition : Type := {
  mountpoint : string;
  fstype : string;
  usage : usage_result
}.

Record io_counters : Type := {
  read_count : Z; write_count : Z; read_bytes : Z; write_bytes : Z
}.

(** The loop of [_get_disk_usage] over the partitions: a partition whose
    usage is denied is skipped; [None] is any other exception, a division
    by a zero total among them. *)
Fixpoint disk_usage_loop (partitions : list partition) (disk_usage : dict pyval)
  : option (dict pyval) :=
  match partitions with
  | [] => Some disk_usage
  | part :: rest =>
      match usage part with
      | Usage total used free =>
          if (total =? 0)%Z then None
          else
            let entry :=
              PDict
                [ ("total", PInt total); ("used", PInt used); ("free", PInt free);
                  ("percentage",
                   PFloat (py_round ((inject_Z used / inject_Z total) * 100) 1));
                  ("filesystem", PStr (fstype part)) ] in
            disk_usage_loop rest (dict_set (mountpoint part) entry disk_usage)
      | PermissionDenied => disk_usage_loop rest disk_usage
      | UsageFails => None
      end
  end.

(** [DeviceMonitor._get_disk_usage].  [partitions] and [disk_io] are
    [None] when the corresponding [psutil] call raises; [disk_io] is
    [Some None] when it returns nothing. *)
Definition _get_disk_usage (partitions : option (list partition))
  (disk_io : option (option io_counters)) : pyval :=
  let attempt : option (dict pyval) :=
    parts ← partitions;
    disk_usage ← disk_usage_loop parts [];
    io ← disk_io;
    match io with
    | Some c =>
        Some (dict_set "io_stats"
                (PDict [ ("read_count", PInt (read_count c));
                         ("write_count", PInt (write_count c));
                         ("read_bytes", PInt (read_bytes c));
                         ("write_bytes", PInt (write_bytes c)) ])
                disk_usage)
    | None => Some disk_usage
    end in
  match attempt with
  | Some d => PDict d
  | None => PDict []
  end.

(** One iteration of the loop over [disk_usage.items()] in
    [_calculate_health_score]. *)
Definition disk_penalty (score : option Q) (item : string * pyval) : option Q :=
  score ← score;
  let info := snd item in
  if is_dict info then
    percentage ← py_get "percentage" (PInt 0) info;
    p ← as_number percentage;
    Some (if Qltb 90 p then score - 10 else score)%Q
  else Some score.

(** The [try] block of [_calculate_health_score].  A comparison of a
    value that is not a number, or [.get] on a value that is not a map,
    raises ([None]). *)
Definition health_score_attempt (health_data : pyval) : option Q :=
  let score := 100%Q in
  cpu_temp_v ← py_get "cpu_temperature" (PInt 0) health_data;
  cpu_temp ← as_number cpu_temp_v;
  let score := (if Qltb 70 cpu_temp then score - Qmin 30 ((cpu_temp - 70) * 2) else score)%Q in
  cpu_usage_d ← py_get "cpu_usage" (PDict []) health_data;
  cpu_usage_v ← py_get "overall" (PInt 0) cpu_usage_d;
  cpu_usage ← as_number cpu_usage_v;
  let score := (if Qltb 80 cpu_usage then score - Qmin 20 ((cpu_usage - 80) * 1) else score)%Q in
  memory_d ← py_get "memory_usage" (PDict []) health_data;
  memory_v ← py_get "percentage" (PInt 0) memory_d;
  memory_usage ← as_number memory_v;
  let score :=
    (if Qltb 85 memory_usage then score - Qmin 20 ((memory_usage - 85) * (3 # 2)) else score)%Q in
  disk_usage ← py_get "disk_usage" (PDict []) health_data;
  items ← match disk_usage with PDict d => Some d | _ => None end;
  score ← fold_left disk_penalty items (Some score);
  network_stats ← py_get "network_stats" (PDict []) health_data;
  connectivity ← py_get "connectivity" (PBool false) network_stats;
  let score := (if negb (truthy connectivity) then score - 15 else score)%Q in
  camera_status ← py_get "camera_status" (PDict []) health_data;
  available ← py_get "available" (PBool false) camera_status;
  let score := (if negb (truthy available) then score - 5 else score)%Q in
  Some (Qmax 0 (Qmin 100 (py_round score 1))).

(** [DeviceMonitor._calculate_health_score]: any exception yields 50. *)
Definition _calculate_health_score (health_data : pyval) : Q :=
  match health_score_attempt health_data with
  | Some score => score
  | None => 50
  end.

(** [DeviceMonitor._get_error_health_status]. *)
Definition _get_error_health_status (timestamp error_message : string) : pyval :=
  PDict
    [ ("timestamp", PStr timestamp);
      ("status", PStr "error");
      ("error_message", PStr error_message);
      ("cpu_temperature", PInt 0);
      ("cpu_usage", PDict [ ("overall", PInt 0) ]);
      ("memory_usage", PDict [ ("percentage", PInt 0) ]);
      ("disk_usage", PDict []);
      ("network_stats", PDict []);
      ("uptime", PDict [ ("uptime_seconds", PInt 0) ]);
      ("health_score", PInt 0);
      ("alerts", PList []) ].

(** What one call of [get_health_status] obtains from the host.  The
    readers that are not modelled further are represented by the value
    they return. *)
Record readings : Type := {
  r_timestamp : string;
  r_cpu_temperature : Q;
  r_cpu_usage : pyval;
  r_memory : option memory_reading;
  r_partitions : option (list partition);
  r_disk_io : option (option io_counters);
  r_network_stats : pyval;
  r_uptime : pyval;
  r_load_average : pyval;
  r_gpio_status : pyval;
  r_camera_status : pyval;
  r_system_info : pyval
}.

(** [DeviceMonitor.get_health_status].  [alerts] is the list returned by
    [_check_health_alerts], or [None] when that call or the update of the
    history raises; the source then returns the error status. *)
Definition get_health_status (r : readings) (alerts : option (list pyval))
  (error_message : string) : pyval :=
  let health_data : dict pyval :=
    [ ("timestamp", PStr (r_timestamp r));
      ("cpu_temperature", PFloat (r_cpu_temperature r));
      ("cpu_usage", r_cpu_usage r);
      ("memory_usage", _get_memory_usage (r_memory r));
      ("disk_usage", _get_disk_usage (r_partitions r) (r_disk_io r));
      ("network_stats", r_network_stats r);
      ("uptime", r_uptime r);
      ("load_average", r_load_average r);
      ("gpio_status", r_gpio_status r);
      ("camera_status", r_camera_status r);
      ("system_info", r_system_info r) ] in
  let health_data :=
    dict_set "health_score" (PFloat (_calculate_health_score (PDict health_data)))
      health_data in
  match alerts with
  | Some a => PDict (dict_set "alerts" (PList a) health_data)
  | None => _get_error_health_status (r_timestamp r) error_message
  end.






End DeviceMonitor.

(** ** Edge application ([main.py]) *)

Module EdgeApp.
Import Py.

(** What an iteration of the health loop does that is visible outside. *)
Inductive event : Type :=
| LogWarning (field : string) (value : pyval)
| LogError
| Publish (topic : string) (payload : pyval).

(** One of the three checks: [if health_data[field] > limit: warn]. *)
Definition check (health_data : pyval) (field : string) (limit : Q)
  : option (list event) :=
  value ← py_subscript health_data field;
  high ← py_gt value limit;
  Some (if high : bool then [LogWarning field value] else []).

(** The body of the loop of [DHSILEDEdgeApp.monitor_device_health] for
    the fetched [health_data]: the [try] block, and the [except] branch
    that logs the error, at the point where an exception is raised. *)
Definition monitor_device_health_iteration (grid_id : string) (health_data : pyval)
  : list event :=
  match check health_data "cpu_temperature" 80 with
  | None => [LogError]
  | Some w1 =>
      match check health_data "memory_usage" 90 with
      | None => w1 ++ [LogError]
      | Some w2 =>
          match check health_data "disk_usage" 85 with
          | None => w1 ++ w2 ++ [LogError]
          | Some w3 =>
              w1 ++ w2 ++ w3
              ++ [Publish ("dhsiled/grids/" ++ grid_id ++ "/health")%string health_data]
          end
      end
  end.

Definition is_publish (ev : event) : bool :=
  match ev with Publish _ _ => true | _ => false end.

Definition is_error (ev : event) : bool :=
  match ev with LogError => true | _ => false end.

End EdgeApp.

(** ** Numeric routines: [sum], [np.average], [np.var] *)

Module Np.
Import Py.

(** [sum(xs)]: left to right from 0. *)
Definition py_sum (xs : list Q) : Q := fold_left Qplus xs 0%Q.

Fixpoint dot (a w : list Q) : Q :=
  match a, w with
  | x :: a', y :: w' => x * y + dot a' w'
  | _, _ => 0
  end%Q.

(** [np.average(a, weights=w)] on one-dimensional data: raises when the
    two shapes differ and when the weights sum to zero. *)
Definition average (a w : list Q) : option Q :=
  if negb (List.length a =? List.length w)%nat then None
  else if Qeq_bool (Qsum w) 0 then None
  else Some (dot a w / Qsum w)%Q.

(** [np.var(xs)]: the mean of the squared deviations from the mean. *)
Definition var (xs : list Q) : Q :=
  let n := inject_Z (Z.of_nat (List.length xs)) in
  let mean := (Qsum xs / n)%Q in
  (Qsum (List.map (fun x : Q => (x - mean) * (x - mean)) xs) / n)%Q.

End Np.

(** ** Behavior analyzer ([models/behavior_analyzer.py]) *)

Module BehaviorAnalyzer.
Import Py.

Definition behavior_classes : list string :=
  [ "normal"; "panic"; "running"; "fighting"; "falling";
    "unusual_gathering"; "crowd_surge"; "evacuation" ].

(** [deque(maxlen=n).append(x)]: a full deque drops its oldest element. *)
Definition deque_append {A} (maxlen : nat) (x : A) (dq : list A) : list A :=
  if (maxlen <=? List.length dq)%nat then List.tl dq ++ [x] else dq ++ [x].

(** [np.array([0.1, 0.2, 0.3, 0.4])]. *)
Definition base_weights : list Q := [ 1 # 10; 2 # 10; 3 # 10; 4 # 10 ]%Q.

(** [[pred[behavior] for pred in prediction_history]]; [None] is the
    [KeyError] of a prediction without the class. *)
Fixpoint class_scores (behavior : string) (history : list (dict Q))
  : option (list Q) :=
  match history with
  | [] => Some []
  | pred :: rest =>
      s ← dict_get behavior pred;
      ss ← class_scores behavior rest;
      Some (s :: ss)
  end.

(** The loop over [behavior_classes] of [_apply_temporal_smoothing]. *)
Fixpoint smooth_loop (history : list (dict Q)) (weights : list Q)
  (classes : list string) (smoothed_predictions : dict Q) : option (dict Q) :=
  match classes with
  | [] => Some smoothed_predictions
  | behavior :: rest =>
      scores ← class_scores behavior history;
      smoothed_score ← Np.average scores (firstn (List.length scores) weights);
      smooth_loop history weights rest
        (dict_set behavior smoothed_score smoothed_predictions)
  end.

(** [BehaviorAnalyzer._apply_temporal_smoothing]: the smoothed scores, or
    [None] when the computation raises, and the prediction history, which
    has received the current prediction in either case. *)
Definition _apply_temporal_smoothing (prediction_history : list (dict Q))
  (current_predictions : dict Q) : option (dict Q) * list (dict Q) :=
  let prediction_history := deque_append 5 current_predictions prediction_history in
  let weights := firstn (List.length prediction_history) base_weights in
  let weights := List.map (fun w : Q => w / Qsum weights)%Q weights in
  (smooth_loop prediction_history weights behavior_classes [], prediction_history).

(** The distribution [analyze_sequence] returns from its [except] branch. *)
Definition normal_fallback : dict Q :=
  List.map (fun behavior : string =>
              (behavior, if String.eqb behavior "normal" then 1%Q else 0%Q))
    behavior_classes.

(** [BehaviorAnalyzer.analyze_sequence] after inference has produced
    [behavior_scores]: the scores returned and the history afterwards. *)
Definition analyze_sequence (prediction_history : list (dict Q))
  (behavior_scores : dict Q) : dict Q * list (dict Q) :=
  match _apply_temporal_smoothing prediction_history behavior_scores with
  | (Some smoothed_scores, history) => (smoothed_scores, history)
  | (None, history) => (normal_fallback, history)
  end.

(** Successive calls of [analyze_sequence] on one analyzer. *)
Fixpoint analyze_all (predictions : list (dict Q)) (prediction_history : list (dict Q))
  : list (dict Q) :=
  match predictions with
  | [] => []
  | scores :: rest =>
      let '(out, history) := analyze_sequence prediction_history scores in
      out :: analyze_all rest history
  end.

(** A prediction over the eight classes, as the mock model biases it. *)
Definition sample_prediction : dict Q :=
  [ ("normal", 80 # 100); ("panic", 5 # 100); ("running", 8 # 100);
    ("fighting", 2 # 100); ("falling", 3 # 100); ("unusual_gathering", 15 # 1000);
    ("crowd_surge", 5 # 1000); ("evacuation", 1 # 100) ]%Q.

End BehaviorAnalyzer.

(** ** Emergency detector ([models/emergency_detector.py]) *)

Module EmergencyDetector.
Import Py.

Definition emergency_classes : list string :=
  [ "normal"; "fire"; "smoke"; "accident"; "medical_emergency";
    "structural_damage"; "flood"; "explosion" ].

(** What the video library reports about a frame: its number of pixels
    and the number of pixels inside the fire and the smoke color masks
    ([None] when the color conversion or the masking raises). *)
Record frame : Type := {
  total_pixels : positive;
  fire_pixels : option N;
  smoke_pixels : option N
}.

Record detector : Type := {
  use_color_analysis : bool;
  use_motion_analysis : bool;
  detection_history : list (dict Q)
}.

(** [EmergencyDetector._analyze_fire_colors]. *)
Definition _analyze_fire_colors (f : frame) : Q :=
  match fire_pixels f with
  | Some fire =>
      let fire_ratio := (inject_Z (Z.of_N fire) / inject_Z (Z.pos (total_pixels f)))%Q in
      Qmin 1 (fire_ratio * 10)
  | None => 0
  end.

(** [EmergencyDetector._analyze_smoke_colors]. *)
Definition _analyze_smoke_colors (f : frame) : Q :=
  match smoke_pixels f with
  | Some smoke =>
      let smoke_ratio := (inject_Z (Z.of_N smoke) / inject_Z (Z.pos (total_pixels f)))%Q in
      Qmin 1 (smoke_ratio * 5)
  | None => 0
  end.

(** [[entry[emergency] for entry in recent_scores]]. *)
Fixpoint entry_scores (emergency : string) (recent_scores : list (dict Q))
  : option (list Q) :=
  match recent_scores with
  | [] => Some []
  | entry :: rest =>
      s ← dict_get emergency entry;
      ss ← entry_scores emergency rest;
      Some (s :: ss)
  end.

(** The loop of [_analyze_motion_patterns] over the classes. *)
Fixpoint variance_loop (recent_scores : list (dict Q)) (classes : list string)
  (emergency_variance : Q) : option Q :=
  match classes with
  | [] => Some emergency_variance
  | emergency :: rest =>
      if String.eqb emergency "normal" then
        variance_loop recent_scores rest emergency_variance
      else
        scores ← entry_scores emergency recent_scores;
        variance_loop recent_scores rest
          (if (1 <? List.length scores)%nat
           then emergency_variance + Np.var scores else emergency_variance)%Q
  end.

(** [EmergencyDetector._analyze_motion_patterns]: any exception yields 0. *)
Definition _analyze_motion_patterns (d : detector) : Q :=
  if (List.length (detection_history d) <? 2)%nat then 0
  else
    let recent_scores := slice_from (-5) (detection_history d) in
    match variance_loop recent_scores emergency_classes 0 with
    | Some emergency_variance => Qmin 1 (emergency_variance * 2)
    | None => 0
    end.

(** [enhanced_scores[k] = min(1.0, enhanced_scores[k] + boost)]; [None]
    is the [KeyError] of a map without [k]. *)
Definition boost (k : string) (amount : Q) (enhanced_scores : dict Q)
  : option (dict Q) :=
  s ← dict_get k enhanced_scores;
  Some (dict_set k (Qmin 1 (s + amount)) enhanced_scores).

(** The normalisation at the end of the [try] block. *)
Definition normalize (enhanced_scores : dict Q) : dict Q :=
  let total_score := Np.py_sum (dict_values enhanced_scores) in
  if Qltb 0 total_score
  then List.map (fun kv : string * Q => (fst kv, snd kv / total_score)%Q) enhanced_scores
  else enhanced_scores.

(** [EmergencyDetector._enhance_detection].  The map is updated in place
    inside the [try] block, so an exception returns it as it stands at
    that point. *)
Definition _enhance_detection (d : detector) (f : frame) (base_scores : dict Q)
  : dict Q :=
  let enhanced_scores := base_scores in
  let colored : dict Q + dict Q :=
    if use_color_analysis d then
      let fire_color_score := _analyze_fire_colors f in
      let smoke_color_score := _analyze_smoke_colors f in
      match boost "fire" (fire_color_score * (3 # 10)) enhanced_scores with
      | None => inl enhanced_scores
      | Some with_fire =>
          match boost "smoke" (smoke_color_score * (3 # 10)) with_fire with
          | None => inl with_fire
          | Some with_smoke => inr with_smoke
          end
      end
    else inr enhanced_scores in
  match colored with
  | inl partial => partial
  | inr enhanced_scores =>
      if use_motion_analysis d && (0 <? List.length (detection_history d))%nat then
        let motion_emergency_score := _analyze_motion_patterns d in
        match boost "accident" (motion_emergency_score * (2 # 10)) enhanced_scores with
        | None => enhanced_scores
        | Some with_motion => normalize with_motion
        end
      else normalize enhanced_scores
  end.

(** Scores of a class-score map: none negative, one positive. *)
Definition all_nonneg (m : dict Q) : Prop :=
  Forall (fun kv : string * Q => 0 <= snd kv)%Q m.
Definition some_positive (m : dict Q) : Prop :=
  Exists (fun kv : string * Q => 0 < snd kv)%Q m.

(** A frame and a detector that contribute nothing. *)
Definition dark_frame : frame :=
  {| total_pixels := 50176; fire_pixels := Some 0%N; smoke_pixels := Some 0%N |}.

Definition fresh_detector : detector :=
  {| use_color_analysis := true; use_motion_analysis := true; detection_history := [] |}.

Definition uniform_scores : dict Q :=
  List.map (fun c : string => (c, (1 # 8)%Q)) emergency_classes.

End EmergencyDetector.

(** ** Messaging client of the edge ([processors/mqtt_client.py]) *)

Module MQTTClient.
Import Py.

(** An entry of [message_queue]. *)
Record message : Type := {
  topic : string;
  payload : string;
  qos : Z;
  retain : bool;
  timestamp : Q
}.

(** The attributes of an [MQTTClient] that [publish] reads or writes.
    [has_client] tells whether [self.client] is set, [default_qos] is
    [self.qos]. *)
Record client : Type := {
  connected : bool;
  has_client : bool;
  default_qos : Z;
  message_queue : list message
}.

(** [self.max_queue_size], set once by [__init__]. *)
Definition max_queue_size : nat := 1000.

(** What the transport does with a publish request: it returns a result
    code, or raises. *)
Inductive transport_result : Type :=
| Rc (rc : Z)
| TransportRaises.

(** What a call does that is visible outside the client. *)
Inductive effect : Type :=
| Sent (topic payload : string) (qos : Z) (retain : bool)
| Warning (text : string)
| Error (text : string)
| Debug (text : string).

Definition MQTT_ERR_SUCCESS : Z := 0.

Definition with_queue (c : client) (q : list message) : client :=
  {| connected := connected c; has_client := has_client c;
     default_qos := default_qos c; message_queue := q |}.

(** [MQTTClient._queue_message]; [now] is the reading of [time.time()]. *)
Definition _queue_message (now : Q) (c : client) (topic payload : string)
  (qos : Z) (retain : bool) : client * list effect :=
  let '(queue, evicted) :=
    if (max_queue_size <=? List.length (message_queue c))%nat then
      match message_queue c with
      | removed :: rest =>
          (rest, [Warning ("Message queue full, removed oldest message for topic "
                           ++ MQTTClient.topic removed)%string])
      | [] => ([], [])
      end
    else (message_queue c, []) in
  let message :=
    {| topic := topic; payload := payload; qos := qos; retain := retain;
       timestamp := now |} in
  (with_queue c (queue ++ [message]),
   evicted ++ [Debug ("Queued message for topic " ++ topic)%string]).

(** [MQTTClient.publish].  [mqtt_available] tells whether the import of
    the transport library succeeded: without it the name
    [mqtt.MQTT_ERR_SUCCESS] cannot be evaluated, which raises after the
    mock transport has accepted the message.  [result] is what the
    transport answers if it is asked.  The [except] branch queues the
    message; there is no branch for a client that is not connected. *)
Definition publish (mqtt_available : bool) (result : transport_result) (now : Q)
  (c : client) (topic payload : string) (qos : option Z) (retain : bool)
  : client * list effect :=
  let qos := match qos with Some q => q | None => default_qos c end in
  if connected c && has_client c then
    match result with
    | TransportRaises =>
        let '(c', effs) := _queue_message now c topic payload qos retain in
        (c', Error "Error publishing message" :: effs)
    | Rc rc =>
        if mqtt_available then
          if negb (rc =? MQTT_ERR_SUCCESS)%Z then
            let '(c', effs) := _queue_message now c topic payload qos retain in
            (c', Sent topic payload qos retain
                 :: Warning ("Publish failed for topic " ++ topic)%string :: effs)
          else (c, [Sent topic payload qos retain])
        else
          let '(c', effs) := _queue_message now c topic payload qos retain in
          (c', Sent topic payload qos retain :: Error "Error publishing message" :: effs)
    end
  else (c, []).

(** A client that has lost its connection, with nothing queued. *)
Definition offline_client : client :=
  {| connected := false; has_client := true; default_qos := 1;
     message_queue := [] |}.

End MQTTClient.

(** ** API server ([backend/api_server.py]) *)

Module ApiServer.
Import Py.

(** The module-level stores. *)
Record stores : Type := {
  grid_states : dict pyval;
  alert_history : list pyval;
  health_history : list pyval
}.

Definition initial_stores : stores :=
  {| grid_states := []; alert_history := []; health_history := [] |}.

(** A message of the bus as the handler sees it: the topic, the payload
    after [json.loads] ([None] when decoding or parsing raises), and the
    reading of [datetime.utcnow().isoformat()] at its arrival. *)
Record bus_message : Type := {
  msg_topic : string;
  msg_payload : option pyval;
  msg_received_at : string
}.

(** [l.append(x); if len(l) > bound: l.pop(0)]. *)
Definition append_bounded {A} (bound : nat) (x : A) (l : list A) : list A :=
  let l := l ++ [x] in
  if (bound <? List.length l)%nat then List.tl l else l.

(** The [try] block of [on_mqtt_message]; [None] is an exception, raised
    before any store is modified. *)
Definition handle (m : bus_message) (s : stores) : option stores :=
  let topic := msg_topic m in
  payload ← msg_payload m;
  if contains "status" topic then
    grid_id ← nth_error (split "/" topic) 2;
    Some {| grid_states := dict_set grid_id payload (grid_states s);
            alert_history := alert_history s;
            health_history := health_history s |}
  else if contains "alerts" topic then
    payload ← py_setitem payload "received_at" (PStr (msg_received_at m));
    Some {| grid_states := grid_states s;
            alert_history := append_bounded 1000 payload (alert_history s);
            health_history := health_history s |}
  else if contains "health" topic then
    grid_id ← nth_error (split "/" topic) 2;
    payload ← py_setitem payload "grid_id" (PStr grid_id);
    Some {| grid_states := grid_states s;
            alert_history := alert_history s;
            health_history := append_bounded 500 payload (health_history s) |}
  else Some s.

(** [on_mqtt_message]: an exception is printed and the stores stay as
    they were. *)
Definition on_mqtt_message (s : stores) (m : bus_message) : stores :=
  match handle m s with
  | Some s' => s'
  | None => s
  end.

(** The stores after a sequence of messages. *)
Definition deliver (msgs : list bus_message) (s : stores) : stores :=
  fold_left on_mqtt_message msgs s.

(** The alert payload a message delivers to the ring, if it delivers one:
    its topic mentions "alerts" and not "status", and its payload is a
    JSON object; the payload is stored with its arrival time. *)
Definition delivered_alert (m : bus_message) : option pyval :=
  if contains "status" (msg_topic m) then None
  else if contains "alerts" (msg_topic m) then
    payload ← msg_payload m;
    py_setitem payload "received_at" (PStr (msg_received_at m))
  else None.

(** The health payload a message delivers to the ring, if it delivers
    one; the payload is stored with the grid id of its topic. *)
Definition delivered_health (m : bus_message) : option pyval :=
  if contains "status" (msg_topic m) then None
  else if contains "alerts" (msg_topic m) then None
  else if contains "health" (msg_topic m) then
    payload ← msg_payload m;
    grid_id ← nth_error (split "/" (msg_topic m)) 2;
    py_setitem payload "grid_id" (PStr grid_id)
  else None.

(** The [n] most recent elements of a list, in order. *)
Definition most_recent {A} (n : nat) (l : list A) : list A :=
  skipn (List.length l - n) l.

(** The response of [GET /api/alerts]. *)
Record alerts_response : Type := {
  success : bool;
  count : nat;
  alerts : list pyval
}.

(** [[a for a in alerts if a.get('severity') == severity]]; [None] is the
    [AttributeError] of an entry that is not a map. *)
Fixpoint filter_severity (severity : string) (alerts : list pyval)
  : option (list pyval) :=
  match alerts with
  | [] => Some []
  | a :: rest =>
      sev ← py_get "severity" PNone a;
      kept ← filter_severity severity rest;
      Some (if eq_str sev severity then a :: kept else kept)
  end.

(** [get_alerts] for the query parameters [limit] (already converted by
    [int]) and [severity] ([None] when absent); [None] is an uncaught
    exception, answered by the generic error envelope. *)
Definition get_alerts (s : stores) (limit : Z) (severity : option string)
  : option alerts_response :=
  let alerts := slice_from (- limit) (alert_history s) in
  alerts ←
    match severity with
    | Some sev =>
        if negb (String.eqb sev "") then filter_severity sev alerts else Some alerts
    | None => Some alerts
    end;
  Some {| success := true; count := List.length alerts; alerts := List.rev alerts |}.

(** Alerts of a given severity and a ring holding them. *)
Definition alert_of (id severity : string) : pyval :=
  PDict [ ("id", PStr id); ("type", PStr "crowd_density"); ("severity", PStr severity) ].

Definition ring_of (history : list pyval) : stores :=
  {| grid_states := []; alert_history := history; health_history := [] |}.

(** An alert message and a health message of grid G01. *)
Definition alert_message (n : nat) : bus_message :=
  {| msg_topic := "dhsiled/grids/G01/alerts";
     msg_payload := Some (PDict [ ("id", PInt (Z.of_nat n)); ("severity", PStr "high") ]);
     msg_received_at := "2024-01-01T00:00:00" |}.

Definition health_message (n : nat) : bus_message :=
  {| msg_topic := "dhsiled/grids/G01/health";
     msg_payload := Some (PDict [ ("sample", PInt (Z.of_nat n)) ]);
     msg_received_at := "2024-01-01T00:00:00" |}.

(** 1500 alert messages followed by 600 health messages. *)
Definition sample_traffic : list bus_message :=
  List.map alert_message (seq 0 1500) ++ List.map health_message (seq 0 600).

(** The listing as the description of [GET /api/alerts] states it: the
    alerts of the given severity among the most recent [limit] entries of
    the ring, newest first. *)
Definition stated_listing (ring : list pyval) (limit : Z) (severity : string)
  : list pyval :=
  List.rev
    (List.filter
       (fun a => match a with
                 | PDict d => match dict_get "severity" d with
                              | Some (PStr s) => String.eqb s severity
                              | _ => false
                              end
                 | _ => false
                 end)
       (most_recent (Z.to_nat limit) ring)).

(** [a.get('severity') == severity] on an entry of the ring. *)
Definition has_severity (severity : string) (a : pyval) : bool :=
  match py_get "severity" PNone a with
  | Some sev => eq_str sev severity
  | None => false
  end.

End ApiServer.

(** ** Flushing the offline queue ([processors/mqtt_client.py]) *)

Module MQTTQueue.
Import Py MQTTClient.

(** What one turn of the loop of [_process_message_queue] reads from
    outside the client: the clock when it checks the age of the message,
    what the transport answers if [publish] asks it, and the clock when
    [_queue_message] stamps a message that is queued again. *)
Record turn : Type := {
  age_clock : Q;
  answer : transport_result;
  queue_clock : Q
}.

(** [time.time() - message['timestamp'] < 300] *)
Definition fresh (t : turn) (m : message) : bool :=
  Qltb (age_clock t - timestamp m) 300.

(** The loop [for message in messages_to_process]; [turns i] is what the
    [i]-th turn reads.  [publish] handles what the transport raises
    itself, so the [except] of the loop body has nothing to catch.  The
    loop is run to its end without another task of the event loop
    touching the client in between; [process_messages_among] below is
    the loop with the other tasks at work while it sleeps. *)
Fixpoint process_messages (mqtt_available : bool) (turns : nat -> turn)
  (i : nat) (messages_to_process : list message) (c : client)
  : client * list effect :=
  match messages_to_process with
  | [] => (c, [])
  | m :: rest =>
      let t := turns i in
      let '(c1, effs1) :=
        if fresh t m then
          publish mqtt_available (answer t) (queue_clock t) c
            (topic m) (payload m) (Some (qos m)) (retain m)
        else
          (c, [Debug ("Discarded old queued message for topic " ++ topic m)%string]) in
      let '(c2, effs2) := process_messages mqtt_available turns (S i) rest c1 in
      (c2, effs1 ++ effs2)
  end.

(** What [_process_message_queue] does that is visible outside: its own
    two lines at level info, and the effects of the calls it makes. *)
Inductive flush_event : Type :=
| Info (text : string)
| Of (e : effect).

(** [MQTTClient._process_message_queue]: the queue is copied and cleared
    before the loop. *)
Definition _process_message_queue (mqtt_available : bool) (turns : nat -> turn)
  (c : client) : client * list flush_event :=
  match message_queue c with
  | [] => (c, [])
  | _ :: _ =>
      let messages_to_process := message_queue c in
      let '(c', effs) :=
        process_messages mqtt_available turns 0 messages_to_process (with_queue c []) in
      (c', Info ("Processing "
                 ++ str_of_Z (Z.of_nat (List.length messages_to_process))
                 ++ " queued messages")%string
           :: map Of effs ++ [Info "Finished processing message queue"])
  end.

(** The requests handed to the transport, in the order they were made. *)
Definition sent_requests (effs : list effect) : list effect :=
  List.filter (fun e => match e with Sent _ _ _ _ => true | _ => false end) effs.

Definition sent_events (evs : list flush_event) : list effect :=
  sent_requests (flat_map (fun ev => match ev with Of e => [e] | Info _ => [] end) evs).

(** The request that sends a queued message again. *)
Definition sent_of (m : message) : effect :=
  Sent (topic m) (payload m) (qos m) (retain m).

(** The messages of a queue that are young enough at their turn. *)
Fixpoint kept (turns : nat -> turn) (i : nat) (ms : list message) : list message :=
  match ms with
  | [] => []
  | m :: rest =>
      if fresh (turns i) m then m :: kept turns (S i) rest
      else kept turns (S i) rest
  end.

(** A message as [_queue_message] stores it when it is queued again. *)
Definition stamped (now : Q) (m : message) : message :=
  {| topic := topic m; payload := payload m; qos := qos m; retain := retain m;
     timestamp := now |}.

(** Whether a request ends without [_queue_message]: the transport
    answers the success code and the name [mqtt.MQTT_ERR_SUCCESS] can be
    evaluated. *)
Definition accepted (mqtt_available : bool) (result : transport_result) : bool :=
  match result with
  | Rc rc => mqtt_available && (rc =? MQTT_ERR_SUCCESS)%Z
  | TransportRaises => false
  end.

(** The messages a flush queues again: young enough at their turn, and
    not accepted. *)
Fixpoint requeued (mqtt_available : bool) (turns : nat -> turn) (i : nat)
  (ms : list message) : list message :=
  match ms with
  | [] => []
  | m :: rest =>
      if fresh (turns i) m && negb (accepted mqtt_available (answer (turns i))) then
        stamped (queue_clock (turns i)) m :: requeued mqtt_available turns (S i) rest
      else requeued mqtt_available turns (S i) rest
  end.

(** The loop as the event loop runs it.  Every message that is young
    enough is followed by [await asyncio.sleep(0.1)], where the other
    tasks of [EdgeComputingApp.run] (the video loop and the health loop
    with their own [publish], the network loop with its callbacks) run
    before the loop goes on: [between i] is what they do to the client
    during the sleep of turn [i].  A message that is too old is followed
    by no sleep.  [publish] and [_queue_message] are awaited but suspend
    nowhere themselves. *)
Fixpoint process_messages_among (mqtt_available : bool) (turns : nat -> turn)
  (between : nat -> client -> client) (i : nat)
  (messages_to_process : list message) (c : client)
  : client * list effect :=
  match messages_to_process with
  | [] => (c, [])
  | m :: rest =>
      let t := turns i in
      let '(c1, effs1) :=
        if fresh t m then
          let '(c', effs) :=
            publish mqtt_available (answer t) (queue_clock t) c
              (topic m) (payload m) (Some (qos m)) (retain m) in
          (between i c', effs)
        else
          (c, [Debug ("Discarded old queued message for topic " ++ topic m)%string]) in
      let '(c2, effs2) :=
        process_messages_among mqtt_available turns between (S i) rest c1 in
      (c2, effs1 ++ effs2)
  end.

(** [MQTTClient._process_message_queue] among the other tasks; the events
    are those of the flush itself. *)
Definition _process_message_queue_among (mqtt_available : bool)
  (turns : nat -> turn) (between : nat -> client -> client) (c : client)
  : client * list flush_event :=
  match message_queue c with
  | [] => (c, [])
  | _ :: _ =>
      let messages_to_process := message_queue c in
      let '(c', effs) :=
        process_messages_among mqtt_available turns between 0 messages_to_process
          (with_queue c []) in
      (c', Info ("Processing "
                 ++ str_of_Z (Z.of_nat (List.length messages_to_process))
                 ++ " queued messages")%string
           :: map Of effs ++ [Info "Finished processing message queue"])
  end.

(** Other tasks that leave the connection as it is and, during the sleep
    of turn [i], queue the messages [added i] (requests of their own
    that the transport did not accept) in a queue that has room for
    them. *)
Definition queued_by_others (added : nat -> list message) (i : nat) (c : client)
  : client :=
  with_queue c (message_queue c ++ added i).

(** The queue a flush among such tasks ends with, while nothing is
    evicted: the messages it queues again, each followed by what the
    other tasks queue during its sleep. *)
Fixpoint requeued_among (mqtt_available : bool) (turns : nat -> turn)
  (added : nat -> list message) (i : nat) (ms : list message) : list message :=
  match ms with
  | [] => []
  | m :: rest =>
      if fresh (turns i) m then
        (if accepted mqtt_available (answer (turns i)) then []
         else [stamped (queue_clock (turns i)) m])
        ++ added i ++ requeued_among mqtt_available turns added (S i) rest
      else requeued_among mqtt_available turns added (S i) rest
  end.

(** What the other tasks queue during the turns [i], ..., [i + n - 1]. *)
Definition added_during (added : nat -> list message) (i n : nat) : list message :=
  flat_map added (seq i n).

(** A client whose connection is down with two messages left in its
    queue, and a turn that finds the transport working. *)
Definition stale_queue_client : client :=
  {| connected := false; has_client := true; default_qos := 1;
     message_queue :=
       [ {| topic := "dhsiled/grids/G01/status"; payload := "{}"; qos := 1;
            retain := false; timestamp := 600 |};
         {| topic := "dhsiled/grids/G01/alerts"; payload := "{}"; qos := 1;
            retain := false; timestamp := 900 |} ] |}.

Definition online (c : client) : client :=
  {| connected := true; has_client := has_client c;
     default_qos := default_qos c; message_queue := message_queue c |}.

Definition working_turn (_ : nat) : turn :=
  {| age_clock := 1000; answer := Rc MQTT_ERR_SUCCESS; queue_clock := 1000 |}.

Definition refusing_turn (_ : nat) : turn :=
  {| age_clock := 1000; answer := Rc 4; queue_clock := 1000 |}.

(** A video loop that queues one status message during the sleep of the
    second turn. *)
Definition one_status (i : nat) : list message :=
  match i with
  | 1%nat => [ {| topic := "dhsiled/grids/G01/status"; payload := "{}"; qos := 1;
                  retain := false; timestamp := 1000 |} ]
  | _ => []
  end.

End MQTTQueue.

(** ** Health alerts and trends ([processors/device_monitor.py]) *)

Module DeviceAlerts.
Import Py DeviceMonitor.

(** [self.alert_cooldown], set once by [__init__]. *)
Definition alert_cooldown : Q := 300.

(** [DeviceMonitor._should_send_alert]: the table [self.last_alerts]
    after the call, and the answer. *)
Definition _should_send_alert (last_alerts : gmap string Q) (alert_type : string)
  (current_time : Q) : gmap string Q * bool :=
  match last_alerts !! alert_type with
  | None => (<[alert_type := current_time]> last_alerts, true)
  | Some last =>
      let elapsed := (current_time - last)%Q in
      if Qle_bool alert_cooldown elapsed then
        (<[alert_type := current_time]> last_alerts, true)
      else (last_alerts, false)
  end.

(** The answers to a sequence of calls, each with its alert type and its
    reading of the clock. *)
Fixpoint alert_answers (last_alerts : gmap string Q) (calls : list (string * Q))
  : list bool :=
  match calls with
  | [] => []
  | call :: rest =>
      let '(last_alerts', answer) :=
        _should_send_alert last_alerts (fst call) (snd call) in
      answer :: alert_answers last_alerts' rest
  end.

(** The clock does not go back from one call to a later one. *)
Fixpoint clock_ok (calls : list (string * Q)) : bool :=
  match calls with
  | [] => true
  | call :: rest =>
      forallb (fun later : string * Q => Qle_bool (snd call) (snd later)) rest
      && clock_ok rest
  end.

(** [a == b] on two values: numbers are compared by value whatever
    their types, strings and lists element by element, maps by their
    keys and values whatever the order; values of different kinds are
    not equal. *)
Fixpoint py_eq (a b : pyval) {struct a} : bool :=
  match a, b with
  | PNone, PNone => true
  | PStr s, PStr t => String.eqb s t
  | PList l, PList m =>
      (fix go (l m : list pyval) : bool :=
         match l, m with
         | [], [] => true
         | x :: l', y :: m' => py_eq x y && go l' m'
         | _, _ => false
         end) l m
  | PDict d, PDict e =>
      (List.length d =? List.length e)%nat
      && (fix go (d : list (string * pyval)) : bool :=
            match d with
            | [] => true
            | (k, x) :: d' =>
                match dict_get k e with
                | Some y => py_eq x y
                | None => false
                end && go d'
            end) d
  | _, _ =>
      match as_number a, as_number b with
      | Some x, Some y => Qeq_bool x y
      | _, _ => false
      end
  end.

(** [a > b] on two values.  Numbers are ordered by value, strings by
    their characters (here: their bytes, which for UTF-8 is the same
    order), lists by the first position at which they differ; every
    other pair of operands raises [TypeError]. *)
Fixpoint py_gt_values (a b : pyval) {struct a} : option bool :=
  match a, b with
  | PStr s, PStr t => Some (String.ltb t s)
  | PList l, PList m =>
      (fix go (l m : list pyval) : option bool :=
         match l, m with
         | [], _ => Some false
         | _ :: _, [] => Some true
         | x :: l', y :: m' => if py_eq x y then go l' m' else py_gt_values x y
         end) l m
  | _, _ =>
      match as_number a, as_number b with
      | Some x, Some y => Some (Qltb y x)
      | _, _ => None
      end
  end.

(** The three parts of [DeviceMonitor._check_health_alerts], each on the
    table [self.last_alerts] and returning the table and the alerts it
    appends; [None] is an exception (a threshold that is missing, a
    comparison of values that are not ordered).  [str] is the text Python
    formats a value to inside an f-string. *)
Definition cpu_temp_alerts (str : pyval -> string) (thresholds : pyval)
  (current_time : Q) (health_data : pyval) (last_alerts : gmap string Q)
  : option (gmap string Q * list pyval) :=
  cpu_temp ← py_get "cpu_temperature" (PInt 0) health_data;
  limit ← py_subscript thresholds "cpu_temp";
  above ← py_gt_values cpu_temp limit;
  if above : bool then
    let '(last_alerts, send) := _should_send_alert last_alerts "cpu_temp" current_time in
    if send : bool then
      high ← py_gt cpu_temp 85;
      Some (last_alerts,
            [ PDict [ ("type", PStr "cpu_temperature");
                      ("severity", PStr (if high : bool then "high" else "medium"));
                      ("value", cpu_temp);
                      ("threshold", limit);
                      ("message",
                       PStr ("CPU temperature high: " ++ str cpu_temp ++ "°C")%string) ] ])
    else Some (last_alerts, [])
  else Some (last_alerts, []).

Definition memory_alerts (str : pyval -> string) (thresholds : pyval)
  (current_time : Q) (health_data : pyval) (last_alerts : gmap string Q)
  : option (gmap string Q * list pyval) :=
  memory_d ← py_get "memory_usage" (PDict []) health_data;
  memory_usage ← py_get "percentage" (PInt 0) memory_d;
  limit ← py_subscript thresholds "memory_usage";
  above ← py_gt_values memory_usage limit;
  if above : bool then
    let '(last_alerts, send) :=
      _should_send_alert last_alerts "memory_usage" current_time in
    if send : bool then
      Some (last_alerts,
            [ PDict [ ("type", PStr "memory_usage");
                      ("severity", PStr "high");
                      ("value", memory_usage);
                      ("threshold", limit);
                      ("message",
                       PStr ("Memory usage critical: " ++ str memory_usage ++ "%")%string) ] ])
    else Some (last_alerts, [])
  else Some (last_alerts, []).

(** One turn of the loop over [disk_usage.items()]. *)
Definition disk_alert (str : pyval -> string) (thresholds : pyval)
  (current_time : Q) (acc : option (gmap string Q * list pyval))
  (item : string * pyval) : option (gmap string Q * list pyval) :=
  '(last_alerts, alerts) ← acc;
  let '(mount, info) := item in
  if is_dict info then
    usage ← py_get "percentage" (PInt 0) info;
    limit ← py_subscript thresholds "disk_usage";
    above ← py_gt_values usage limit;
    if above : bool then
      let alert_key := ("disk_usage_" ++ mount)%string in
      let '(last_alerts, send) := _should_send_alert last_alerts alert_key current_time in
      if send : bool then
        high ← py_gt usage 95;
        Some (last_alerts,
              alerts ++
              [ PDict [ ("type", PStr "disk_usage");
                        ("severity", PStr (if high : bool then "high" else "medium"));
                        ("value", usage);
                        ("threshold", limit);
                        ("mount_point", PStr mount);
                        ("message",
                         PStr ("Disk usage high on " ++ mount ++ ": " ++ str usage
                               ++ "%")%string) ] ])
      else Some (last_alerts, alerts)
    else Some (last_alerts, alerts)
  else Some (last_alerts, alerts).

(** [DeviceMonitor._check_health_alerts]; [current_time] is its one
    reading of the clock. *)
Definition _check_health_alerts (str : pyval -> string) (thresholds : pyval)
  (current_time : Q) (health_data : pyval) (last_alerts : gmap string Q)
  : option (gmap string Q * list pyval) :=
  '(last_alerts, alerts1) ←
    cpu_temp_alerts str thresholds current_time health_data last_alerts;
  '(last_alerts, alerts2) ←
    memory_alerts str thresholds current_time health_data last_alerts;
  disk_usage ← py_get "disk_usage" (PDict []) health_data;
  items ← match disk_usage with PDict d => Some d | _ => None end;
  fold_left (disk_alert str thresholds current_time) items
    (Some (last_alerts, alerts1 ++ alerts2)).

(** An alert whose reported value is above its reported threshold, as
    [>] compares them. *)
Definition justified (alert : pyval) : bool :=
  match py_subscript alert "value", py_subscript alert "threshold" with
  | Some value, Some limit =>
      match py_gt_values value limit with
      | Some above => above
      | None => false
      end
  | _, _ => false
  end.

(** The thresholds [__init__] falls back to. *)
Definition default_thresholds : pyval :=
  PDict [ ("cpu_temp", PFloat 80); ("cpu_usage", PFloat 90);
          ("memory_usage", PFloat 95); ("disk_usage", PFloat 90);
          ("network_errors", PInt 100) ].




(** A record with a hot processor and a full root file system, checked
    at time 1000 against the default thresholds with no earlier alert. *)
Definition hot_record : pyval :=
  PDict [ ("cpu_temperature", PFloat 90);
          ("memory_usage", PDict [ ("percentage", PFloat 50) ]);
          ("disk_usage", PDict [ ("/", PDict [ ("percentage", PFloat 96) ]);
                                 ("io_stats", PDict [ ("read_count", PInt 0) ]) ]) ].

Definition hot_check : gmap string Q * list pyval :=
  match _check_health_alerts (fun _ : pyval => "?") default_thresholds 1000
          hot_record ∅ with
  | Some r => r
  | None => (∅, [])
  end.

End DeviceAlerts.

(** ** Behaviour and emergency classification of the edge processor
       ([processors/edge_processor.py]) *)

Module EdgeAnalysis.
Import Py EdgeProcessor.

(** The table of [get_behavior_severity]. *)
Definition severity_mapping : dict string :=
  [ ("panic", "critical"); ("running", "high"); ("fighting", "critical");
    ("falling", "high"); ("unusual_gathering", "moderate") ].

(** [EdgeProcessor.get_behavior_severity]. *)
Definition get_behavior_severity (behavior : string) (confidence : Q) : string :=
  let base_severity := dict_get_default behavior "moderate" severity_mapping in
  if Qltb (9 # 10) confidence then
    if String.eqb base_severity "moderate" then "high"
    else if String.eqb base_severity "high" then "critical"
    else base_severity
  else base_severity.

(** The loop of [EdgeProcessor.analyze_behavior] over the predictions the
    behaviour analyzer returned. *)
Fixpoint analyze_behavior (behavior_predictions : dict Q) : list behavior_alert :=
  match behavior_predictions with
  | [] => []
  | (behavior, confidence) :: rest =>
      if negb (String.eqb behavior "normal") && Qltb (7 # 10) confidence then
        {| ba_behavior := behavior;
           ba_confidence := confidence;
           ba_severity := get_behavior_severity behavior confidence |}
        :: analyze_behavior rest
      else analyze_behavior rest
  end.

(** [EdgeProcessor.calculate_normal_confidence]. *)
Definition calculate_normal_confidence (behavior_alerts : list behavior_alert) : Q :=
  match behavior_alerts with
  | [] => 1
  | _ :: _ =>
      let total_abnormal_confidence :=
        Np.py_sum (List.map ba_confidence behavior_alerts) in
      let normal_confidence :=
        Qmax 0 (1 - total_abnormal_confidence
                    / inject_Z (Z.of_nat (List.length behavior_alerts))) in
      py_round normal_confidence 3
  end.

(** One turn of the loop of [EdgeProcessor.detect_emergencies] that looks
    for the highest score among the classes other than normal. *)
Definition highest_step (acc : Q * option string) (item : string * Q)
  : Q * option string :=
  let '(max_confidence, emergency_type) := acc in
  let '(emergency, confidence) := item in
  if negb (String.eqb emergency "normal") && Qltb max_confidence confidence then
    (confidence, Some emergency)
  else (max_confidence, emergency_type).

(** [EdgeProcessor.detect_emergencies] on the predictions the emergency
    detector returned. *)
Definition detect_emergencies (emergency_predictions : dict Q) : emergency_status :=
  let '(max_confidence, emergency_type) :=
    fold_left highest_step emergency_predictions (0%Q, None) in
  if Qltb (8 # 10) max_confidence then
    {| es_status := "emergency"; es_type := emergency_type;
       es_confidence := max_confidence |}
  else if Qltb (6 # 10) max_confidence then
    {| es_status := "warning"; es_type := emergency_type;
       es_confidence := max_confidence |}
  else
    {| es_status := "clear"; es_type := None; es_confidence := 0 |}.

(** The severity an alert carries. *)
Definition severity_of (alert : pyval) : option pyval := py_subscript alert "severity".

Definition high_or_critical (alert : pyval) : Prop :=
  severity_of alert = Some (PStr "high") \/ severity_of alert = Some (PStr "critical").

(** A scene in which nothing asks for an alert: no behaviour other than
    normal scores high enough for a severity above moderate, and no
    emergency class other than normal scores above 0.6. *)
Definition calm_behavior (item : string * Q) : bool :=
  String.eqb (fst item) "normal"
  || Qle_bool (snd item) (7 # 10)
  || (negb (str_in (fst item) ["panic"; "running"; "fighting"; "falling"])
      && Qle_bool (snd item) (9 # 10)).

Definition calm_emergency (item : string * Q) : bool :=
  String.eqb (fst item) "normal" || Qle_bool (snd item) (6 # 10).

(** An evaluation in which the three blocks of [generate_alerts] all
    fire: 210 people, a panic at 0.95 and a fire at 0.85, from the
    processor as [__init__] leaves it. *)
Definition busy_predictions : dict Q := [ ("normal", 3 # 100); ("panic", 95 # 100) ]%Q.
Definition fire_predictions : dict Q := [ ("normal", 10 # 100); ("fire", 85 # 100) ]%Q.

Definition busy_evaluation : list pyval * processor :=
  match generate_alerts (env_at 1000 "t0") default_processor 210
          (analyze_behavior busy_predictions) (detect_emergencies fire_predictions) with
  | Some r => r
  | None => ([], default_processor)
  end.

End EdgeAnalysis.

(** ** The configuration as objects ([utils/config.py]) *)

Module ConfigObjects.
Import Py.

#[local] Set Warnings "-register-all,-notation-for-abbreviation".

(** [Config.set] and [Config._deep_update] change the maps of the
    document in place and store what they are given by reference, and a
    document can hold one map in two places (an alias in the YAML file,
    a map that was [set] under two keys).  Here the maps are objects
    with an identity: a value is a scalar, a list, or a reference to a
    map.  (The module [Config] has the document as a tree, in which two
    keys cannot hold the same map.) *)
Notation loc := nat (only parsing).

Inductive val : Type :=
| VNone
| VBool (b : bool)
| VInt (n : Z)
| VFloat (q : Q)
| VStr (s : string)
| VList (items : list val)
| VRef (l : loc).

(** The maps allocated so far, each at its position; a new map takes the
    next position. *)
Notation heap := (list (dict val)) (only parsing).

(** What the map [l] holds under [k]. *)
Definition item (h : heap) (l : loc) (k : string) : option val :=
  d ← h !! l; dict_get k d.

(** The loop [for k in keys: value = value[k]] of [Config.get]; [None] is
    the [KeyError] or [TypeError] the source catches. *)
Fixpoint get_from (h : heap) (keys : list string) (value : val) : option val :=
  match keys with
  | [] => Some value
  | k :: ks =>
      match value with
      | VRef l => v ← item h l k; get_from h ks v
      | _ => None
      end
  end.

(** [Config.get(key, default)]. *)
Definition get (h : heap) (config_data : val) (key : string) (default : val)
  : val :=
  match get_from h (split "." key) config_data with
  | Some v => v
  | None => default
  end.

(** The body of [Config.set] on the list of keys: the loop over
    [keys[:-1]], which stores a new empty map under a key that is
    missing and descends, then the assignment of the last key.  [None]
    is the [TypeError] raised when the descent meets a value that is not
    a map; no map has been changed when that happens, since a map made
    by the loop is never the value that fails. *)
Fixpoint set_from (keys : list string) (value : val) (config : val) (h : heap)
  : option heap :=
  match keys with
  | [] => None
  | k :: ks =>
      match config with
      | VRef l =>
          d ← h !! l;
          match ks with
          | [] => Some (<[l := dict_set k value d]> h)
          | _ :: _ =>
              match dict_get k d with
              | Some child => set_from ks value child h
              | None =>
                  let new := List.length h in
                  set_from ks value (VRef new)
                    (<[l := dict_set k (VRef new) d]> h ++ [[]])
              end
          end
      | _ => None
      end
  end.

(** [Config.set(key, value)]. *)
Definition set (h : heap) (config_data : val) (key : string) (value : val)
  : option heap :=
  set_from (split "." key) value config_data h.

(** The item of a map of the document that a [set] along [keys] assigns:
    under the last key, or under the first key that is missing. *)
Fixpoint assigned (h : heap) (keys : list string) (config : val)
  : option (loc * string) :=
  match keys with
  | [] => None
  | k :: ks =>
      match config with
      | VRef l =>
          match ks with
          | [] => Some (l, k)
          | _ :: _ =>
              match item h l k with
              | Some child => assigned h ks child
              | None => Some (l, k)
              end
          end
      | _ => None
      end
  end.

(** The items a [get] along [keys] looks up. *)
Fixpoint reads (h : heap) (keys : list string) (value : val)
  : list (loc * string) :=
  match keys with
  | [] => []
  | k :: ks =>
      match value with
      | VRef l =>
          (l, k) :: match item h l k with
                    | Some v => reads h ks v
                    | None => []
                    end
      | _ => []
      end
  end.

Definition same_item (s t : loc * string) : bool :=
  (fst s =? fst t)%nat && String.eqb (snd s) (snd t).

(** Whether a [get] along [keys] looks up the item [s]. *)
Definition looks_up (h : heap) (keys : list string) (value : val)
  (s : loc * string) : bool :=
  existsb (same_item s) (reads h keys value).

(** Every reference in a value is to one of the maps [lo], ...,
    [hi - 1]. *)
Fixpoint ranged (lo hi : nat) (v : val) : bool :=
  match v with
  | VRef l => (lo <=? l)%nat && (l <? hi)%nat
  | VList items =>
      (fix go (items : list val) : bool :=
         match items with
         | [] => true
         | x :: items' => ranged lo hi x && go items'
         end) items
  | _ => true
  end.

(** Every reference in a value is to one of the first [n] maps. *)
Definition within (n : nat) (v : val) : bool := ranged 0 n v.

(** Every reference held in a map is to a map of the heap: what the
    interpreter guarantees. *)
Definition closed (h : heap) : bool :=
  forallb (fun d : dict val =>
             forallb (fun kv => within (List.length h) (snd kv)) d) h.

(** The heap [h'] holds the maps of [h], each with the items it has in
    [h] but for the items in [changed], and maybe more maps. *)
Definition same_but (changed : list (loc * string)) (h h' : heap) : Prop :=
  (List.length h <= List.length h')%nat
  /\ forall l k, (l < List.length h)%nat -> ~ In (l, k) changed ->
                 item h' l k = item h l k.

(** A value given as a literal stored by reference: its maps become
    objects of the heap, held nowhere else. *)
Fixpoint store (v : pyval) (h : heap) {struct v} : val * heap :=
  match v with
  | PNone => (VNone, h)
  | PBool b => (VBool b, h)
  | PInt n => (VInt n, h)
  | PFloat q => (VFloat q, h)
  | PStr s => (VStr s, h)
  | PList l =>
      let '(items, h') :=
        fold_left (fun (acc : list val * heap) (x : pyval) =>
                     let '(x', h') := store x (snd acc) in (fst acc ++ [x'], h'))
                  l ([], h) in
      (VList items, h')
  | PDict d =>
      let '(d', h') :=
        fold_left (fun (acc : dict val * heap) (kx : string * pyval) =>
                     let '(x', h') := store (snd kx) (snd acc) in
                     (fst acc ++ [(fst kx, x')], h'))
                  d ([], h) in
      (VRef (List.length h'), h' ++ [d'])
  end.

(** The heap [h'] is the heap [h] and new maps after it, which hold
    references to new maps only. *)
Definition grows_by_new (h h' : heap) : Prop :=
  exists ext,
    h' = h ++ ext
    /\ Forall (fun d : dict val =>
                 Forall (fun kv => ranged (List.length h) (List.length h') (snd kv) = true) d)
              ext.

(** [Config._deep_update(base_dict, update_dict)] for an update given as
    a literal (none of its maps is part of the document or held twice):
    a map is merged into the map the key already holds, every other
    value is stored under the key.  [None] is the [AttributeError] of an
    update without [items]. *)
Fixpoint _deep_update (update_dict : pyval) (base_dict : loc) (h : heap)
  {struct update_dict} : option heap :=
  match update_dict with
  | PDict items =>
      fold_left
        (fun (acc : option heap) (kv : string * pyval) =>
           h ← acc;
           match snd kv, item h base_dict (fst kv) with
           | PDict _, Some (VRef l) => _deep_update (snd kv) l h
           | _, _ =>
               let '(x, h1) := store (snd kv) h in
               d ← h1 !! base_dict;
               Some (<[base_dict := dict_set (fst kv) x d]> h1)
           end)
        items (Some h)
  | _ => None
  end.

(** [Config.update(updates)]: [None] when the call raises, which it does
    before any map is changed ([updates] has no [items], or its first
    item cannot be stored into a document that is not a map). *)
Definition update (h : heap) (config_data : val) (updates : pyval) : option heap :=
  match updates with
  | PDict [] => Some h
  | PDict (_ :: _) =>
      match config_data with
      | VRef l => _deep_update updates l h
      | _ => None
      end
  | _ => None
  end.

(** The items of the maps of the document that an update can assign:
    found by following the update through the maps as they are before
    the call. *)
Fixpoint touched (h : heap) (update_dict : pyval) (base_dict : loc)
  {struct update_dict} : list (loc * string) :=
  match update_dict with
  | PDict items =>
      flat_map
        (fun kv : string * pyval =>
           match snd kv, item h base_dict (fst kv) with
           | PDict _, Some (VRef l) => touched h (snd kv) l
           | _, _ => [(base_dict, fst kv)]
           end)
        items
  | _ => []
  end.

Definition touched_by (h : heap) (config_data : val) (updates : pyval)
  : list (loc * string) :=
  match config_data with
  | VRef l => touched h updates l
  | _ => []
  end.

(** Whether a [get] along [keys] looks up one of the items [items]. *)
Definition looks_up_any (h : heap) (keys : list string) (value : val)
  (items : list (loc * string)) : bool :=
  existsb (looks_up h keys value) items.

(** A heap [c] that a call has made of the heap [h]: what a map holds is
    what the same map holds in [h] under the same key, or a value whose
    maps are all new. *)
Definition grown (h c : heap) : Prop :=
  (List.length h <= List.length c)%nat
  /\ forall l k v,
       item c l k = Some v ->
       ((l < List.length h)%nat /\ item h l k = Some v)
       \/ ranged (List.length h) (List.length c) v = true.

(** What a call [_deep_update(base_dict, update_dict)] does to a heap
    grown from [h]: the heap it leaves is grown from [h] too, and an
    item of a map of [h] that held what it holds in [h] still does,
    unless the update touches it. *)
Definition merges_within (h : heap) (update_dict : pyval) : Prop :=
  forall (c c' : heap) (base_dict : loc),
    grown h c -> (base_dict < List.length c)%nat ->
    _deep_update update_dict base_dict c = Some c' ->
    grown h c'
    /\ (List.length c <= List.length c')%nat
    /\ forall l k,
         (l < List.length h)%nat -> item c l k = item h l k ->
         ((base_dict < List.length h)%nat ->
          ~ In (l, k) (touched h update_dict base_dict)) ->
         item c' l k = item h l k.

(** A document that holds one map in two places: [primary] and [backup]
    are the same broker settings. *)
Definition shared_heap : heap :=
  [ [ ("primary", VRef 1%nat); ("backup", VRef 1%nat); ("camera", VRef 2%nat) ];
    [ ("host", VStr "localhost"); ("port", VInt 1883) ];
    [ ("fps", VInt 30) ] ].

Definition shared_root : val := VRef 0%nat.

Definition shared_heap_after_set : heap :=
  default [] (set shared_heap shared_root "primary.host" (VStr "10.0.0.9")).

Definition camera_updates : pyval :=
  PDict [ ("camera", PDict [ ("fps", PInt 15) ]) ].

Definition shared_heap_after_update : heap :=
  default [] (update shared_heap shared_root camera_updates).

End ConfigObjects.

(** ** Loading the configuration ([utils/config.py]) *)

Module ConfigUpdate.
Import Py Config.

(** Two paths that part at some key. *)
Fixpoint diverge (p q : list string) : bool :=
  match p, q with
  | k :: p', k' :: q' => if String.eqb k k' then diverge p' q' else true
  | _, _ => false
  end.

(** [d.setdefault(section, {})[k] = x] on the document: [None] when the
    document has no [setdefault] or the section does not take an item
    assignment. *)
Definition override (config_data : pyval) (section k : string) (x : pyval)
  : option pyval :=
  match config_data with
  | PDict d =>
      let d1 := match dict_get section d with
                | Some _ => d
                | None => dict_set section (PDict []) d
                end in
      s ← dict_get section d1;
      s' ← py_setitem s k x;
      Some (PDict (dict_set section s' d1))
  | _ => None
  end.

(** One statement of [_load_env_overrides]:
    [if x := os.getenv(name): config_data.setdefault(section, {})[k] = convert(x)],
    for the value [present] the environment gives the name. *)
Definition apply_override (present : option string) (section k : string)
  (convert : string -> option pyval) (config_data : pyval) : option pyval :=
  match present with
  | Some s =>
      if negb (String.eqb s "") then
        x ← convert s;
        override config_data section k x
      else Some config_data
  | None => Some config_data
  end.

(** [Config._load_env_overrides].  [getenv] is the environment and [int]
    is Python's conversion of a string to an integer, [None] where it
    raises. *)
Definition _load_env_overrides (getenv : string -> option string)
  (int : string -> option Z) (config_data : pyval) : option pyval :=
  config_data ← apply_override (getenv "DHSILED_MQTT_HOST") "mqtt" "host"
                  (fun s => Some (PStr s)) config_data;
  config_data ← apply_override (getenv "DHSILED_MQTT_PORT") "mqtt" "port"
                  (fun s => PInt <$> int s) config_data;
  config_data ← apply_override (getenv "DHSILED_GRID_ID") "grid" "id"
                  (fun s => Some (PStr s)) config_data;
  apply_override (getenv "DHSILED_LOG_LEVEL") "logging" "level"
    (fun s => Some (PStr s)) config_data.

(** [Config.load_config]: [file] is [None] when there is no file at the
    path, [Some None] when opening or parsing it raises, and the parsed
    document otherwise. *)
Definition load_config (getenv : string -> option string) (int : string -> option Z)
  (file : option (option pyval)) : pyval :=
  match file with
  | None => _get_default_config
  | Some None => _get_default_config
  | Some (Some document) =>
      match _load_env_overrides getenv int document with
      | Some config_data => config_data
      | None => _get_default_config
      end
  end.

(** An environment that sets the broker and the grid, and a file that
    names another broker. *)
Definition sample_env (name : string) : option string :=
  if String.eqb name "DHSILED_MQTT_HOST" then Some "broker.local"
  else if String.eqb name "DHSILED_MQTT_PORT" then Some "8883"
  else if String.eqb name "DHSILED_GRID_ID" then Some "G07"
  else None.

Definition sample_int (s : string) : option Z :=
  if String.eqb s "8883" then Some 8883%Z else None.

Definition sample_file : pyval :=
  PDict [ ("mqtt", PDict [ ("host", PStr "10.0.0.5"); ("qos", PInt 2) ]);
          ("logging", PDict [ ("level", PStr "DEBUG") ]) ].

End ConfigUpdate.

(** ** Alerts by id, system health and the topics of the grids
       ([backend/api_server.py]) *)

Module ApiEndpoints.
Import Py ApiServer.

(** [next((a for a in alert_history if a.get('id') == alert_id), None)]:
    the first entry with that id and its position, [Some None] when there
    is none; [None] is the [AttributeError] of an entry that is not a map
    and is reached before a match. *)
Fixpoint find_alert (alert_id : string) (history : list pyval)
  : option (option (nat * pyval)) :=
  match history with
  | [] => Some None
  | a :: rest =>
      id ← py_get "id" PNone a;
      if eq_str id alert_id then Some (Some (0%nat, a))
      else
        found ← find_alert alert_id rest;
        Some (match found with
              | Some (i, alert) => Some (S i, alert)
              | None => None
              end)
  end.

(** What a handler answers: the body with status 200, the envelope of a
    missing alert with status 404, or nothing of its own when it raises
    (the framework then answers with an error status). *)
Inductive reply (A : Type) : Type :=
| Ok (body : A)
| NotFound
| Raises.
Arguments Ok {A} body.
Arguments NotFound {A}.
Arguments Raises {A}.

(** [get_alert]. *)
Definition get_alert (s : stores) (alert_id : string) : reply pyval :=
  match find_alert alert_id (alert_history s) with
  | Some (Some (_, alert)) => Ok alert
  | Some None => NotFound
  | None => Raises
  end.

Definition with_alert_history (s : stores) (history : list pyval) : stores :=
  {| grid_states := grid_states s; alert_history := history;
     health_history := health_history s |}.

(** [acknowledge_alert].  [json] is [request.json], [None] when reading
    it raises; [now] is the reading of [datetime.utcnow().isoformat()].
    The entry of the ring is modified in place, one key after the other,
    so what was assigned before an exception stays assigned. *)
Definition acknowledge_alert (s : stores) (alert_id : string) (json : option pyval)
  (now : string) : stores * reply unit :=
  match find_alert alert_id (alert_history s) with
  | Some (Some (i, alert)) =>
      match py_setitem alert "acknowledged" (PBool true) with
      | Some alert1 =>
          match py_setitem alert1 "acknowledged_at" (PStr now) with
          | Some alert2 =>
              match json ≫= py_get "user" (PStr "system") with
              | Some user =>
                  match py_setitem alert2 "acknowledged_by" user with
                  | Some alert3 =>
                      (with_alert_history s (<[i := alert3]> (alert_history s)), Ok tt)
                  | None =>
                      (with_alert_history s (<[i := alert2]> (alert_history s)),
                       Raises)
                  end
              | None =>
                  (with_alert_history s (<[i := alert2]> (alert_history s)), Raises)
              end
          | None =>
              (with_alert_history s (<[i := alert1]> (alert_history s)), Raises)
          end
      | None => (s, Raises)
      end
  | Some None => (s, NotFound)
  | None => (s, Raises)
  end.

(** [sum(1 for g in states if g.get('status') != 'offline')]. *)
Fixpoint count_online (states : list pyval) : option nat :=
  match states with
  | [] => Some 0%nat
  | g :: rest =>
      status ← py_get "status" PNone g;
      n ← count_online rest;
      Some (if negb (eq_str status "offline") then S n else n)
  end.

(** [sum(1 for a in alerts if a.get('severity') == 'critical')]. *)
Fixpoint count_critical (alerts : list pyval) : option nat :=
  match alerts with
  | [] => Some 0%nat
  | a :: rest =>
      severity ← py_get "severity" PNone a;
      n ← count_critical rest;
      Some (if eq_str severity "critical" then S n else n)
  end.

Record health_response : Type := {
  system_status : string;
  total_grids : nat;
  online_grids : nat;
  offline_grids : Z;
  recent_critical_alerts : nat
}.

(** [get_system_health]; [None] is an uncaught exception. *)
Definition get_system_health (s : stores) : option health_response :=
  let total_grids := List.length (grid_states s) in
  online_grids ← count_online (dict_values (grid_states s));
  critical_alerts ← count_critical (slice_from (-100) (alert_history s));
  Some {| system_status := if (0 <? online_grids)%nat then "operational" else "offline";
          total_grids := total_grids;
          online_grids := online_grids;
          offline_grids := (Z.of_nat total_grids - Z.of_nat online_grids)%Z;
          recent_critical_alerts := critical_alerts |}.

(** The topics a grid publishes on: [f"dhsiled/grids/{grid_id}/..."]. *)
Definition grid_topic (grid_id kind : string) : string :=
  ("dhsiled/grids/" ++ grid_id ++ "/" ++ kind)%string.

(** A grid id that can stand between two slashes of a topic. *)
Definition no_slash (s : string) : Prop := contains "/" s = false.

(** A ring with two alerts, and a request body. *)
Definition two_alerts : stores :=
  ring_of [ PDict [ ("id", PStr "ALT_1"); ("severity", PStr "high") ];
            PDict [ ("id", PStr "ALT_2"); ("severity", PStr "critical") ] ].

Definition operator_body : pyval := PDict [ ("user", PStr "operator") ].

End ApiEndpoints.

(** ** Detected emergencies ([models/emergency_detector.py]) *)

Module EmergencyAlerts.
Import Py EmergencyDetector.

(** [self.detection_thresholds] and [self.alert_cooldown_seconds], set
    once by [__init__]. *)
Definition detection_thresholds : dict Q :=
  [ ("fire", 7 # 10); ("smoke", 6 # 10); ("accident", 65 # 100);
    ("medical_emergency", 7 # 10); ("structural_damage", 8 # 10);
    ("flood", 75 # 100); ("explosion", 9 # 10) ]%Q.

Definition alert_cooldown_seconds : Q := 30.

(** [EmergencyDetector._is_in_cooldown]; [now] is the reading of the
    clock. *)
Definition _is_in_cooldown (now : Q) (last_alert_time : gmap string Q)
  (emergency_type : string) : bool :=
  match last_alert_time !! emergency_type with
  | None => false
  | Some last =>
      let elapsed := (now - last)%Q in
      Qltb elapsed alert_cooldown_seconds
  end.

Definition one_of (s : string) (l : list string) : bool := existsb (String.eqb s) l.

(** [EmergencyDetector._get_emergency_severity]. *)
Definition _get_emergency_severity (emergency : string) (confidence : Q) : string :=
  if one_of emergency [ "fire"; "explosion"; "structural_damage" ] then
    if Qltb (9 # 10) confidence then "critical"
    else if Qltb (8 # 10) confidence then "high"
    else "medium"
  else if one_of emergency [ "smoke"; "flood"; "accident" ] then
    if Qltb (85 # 100) confidence then "high"
    else if Qltb (7 # 10) confidence then "medium"
    else "low"
  else
    if Qltb (8 # 10) confidence then "medium"
    else "low".

(** [EmergencyDetector._get_emergency_description]. *)
Definition _get_emergency_description (emergency : string) : string :=
  dict_get_default emergency ("Emergency situation: " ++ emergency)%string
    [ ("fire", "Fire detected - immediate evacuation may be required");
      ("smoke", "Smoke detected - potential fire hazard");
      ("accident", "Accident or incident detected");
      ("medical_emergency", "Medical emergency detected");
      ("structural_damage", "Structural damage detected - safety risk");
      ("flood", "Flooding detected in area");
      ("explosion", "Explosion detected - critical emergency") ].

(** An entry of [detected_emergencies]. *)
Record detected_emergency : Type := {
  de_type : string;
  de_confidence : Q;
  de_severity : string;
  de_threshold : Q;
  de_timestamp : Q;
  de_description : string
}.

(** One turn of the loop of [is_emergency_detected], on the table
    [self.last_alert_time] and the list collected so far.  The clock is
    read as one instant [now] for the whole call. *)
Definition detect_step (now : Q) (acc : gmap string Q * list detected_emergency)
  (item : string * Q) : gmap string Q * list detected_emergency :=
  let '(last_alert_time, detected_emergencies) := acc in
  let '(emergency, score) := item in
  if String.eqb emergency "normal" then acc
  else
    let threshold := dict_get_default emergency (7 # 10)%Q detection_thresholds in
    if Qltb threshold score then
      if negb (_is_in_cooldown now last_alert_time emergency) then
        let severity := _get_emergency_severity emergency score in
        (<[emergency := now]> last_alert_time,
         detected_emergencies
         ++ [ {| de_type := emergency; de_confidence := score;
                 de_severity := severity; de_threshold := threshold;
                 de_timestamp := now;
                 de_description := _get_emergency_description emergency |} ])
      else acc
    else acc.

(** [EmergencyDetector.is_emergency_detected]: the table of last alerts
    afterwards, and the pair the call returns. *)
Definition is_emergency_detected (now : Q) (last_alert_time : gmap string Q)
  (emergency_scores : dict Q)
  : gmap string Q * (bool * list detected_emergency) :=
  let '(last_alert_time, detected_emergencies) :=
    fold_left (detect_step now) emergency_scores (last_alert_time, []) in
  (last_alert_time,
   ((0 <? List.length detected_emergencies)%nat, detected_emergencies)).

(** What the thresholds and the severity ranges of the classes give a
    detected emergency. *)
Definition well_graded (e : detected_emergency) : Prop :=
  de_type e <> "normal"
  /\ (de_threshold e < de_confidence e)%Q
  /\ (de_type e = "explosion" -> de_severity e = "critical")
  /\ (de_type e = "structural_damage" ->
      de_severity e = "high" \/ de_severity e = "critical")
  /\ (de_type e = "flood" -> de_severity e = "medium" \/ de_severity e = "high")
  /\ (de_type e = "medical_emergency" ->
      de_severity e = "low" \/ de_severity e = "medium").

(** Scores between 0 and 1. *)
Definition all_probabilities (m : dict Q) : Prop :=
  Forall (fun kv : string * Q => 0 <= snd kv <= 1)%Q m.

End EmergencyAlerts.

(** * Properties

    The modules below state and prove the properties of the definitions
    above, one module of facts per module of definitions. *)

(** ** Facts about the Python fragment *)

Module PyFacts.
Import Py.

Lemma Qltb_lt (a b : Q) : Qltb a b = true <-> (a < b)%Q.
Proof.
  unfold Qltb. rewrite negb_true_iff, <- not_true_iff_false, Qle_bool_iff.
  split; [apply Qnot_le_lt | apply Qlt_not_le].
Qed.

Lemma Qltb_ge (a b : Q) : Qltb a b = false <-> (b <= a)%Q.
Proof.
  unfold Qltb. rewrite negb_false_iff. apply Qle_bool_iff.
Qed.

Lemma dict_get_set_eq {V} (k : string) (v : V) (d : dict V) :
  dict_get k (dict_set k v d) = Some v.
Proof.
  induction d as [|[k' v'] d IH]; simpl.
  - now rewrite String.eqb_refl.
  - destruct (String.eqb k k') eqn:E; simpl; rewrite E; [reflexivity | exact IH].
Qed.

Lemma dict_get_set_ne {V} (k k' : string) (v : V) (d : dict V) :
  k <> k' -> dict_get k' (dict_set k v d) = dict_get k' d.
Proof.
  intros Hne. induction d as [|[k0 v0] d IH]; simpl.
  - destruct (String.eqb k' k) eqn:E; [|reflexivity].
    apply String.eqb_eq in E. congruence.
  - destruct (String.eqb k k0) eqn:E; simpl.
    + apply String.eqb_eq in E. subst k0.
      destruct (String.eqb k' k) eqn:E'; [|reflexivity].
      apply String.eqb_eq in E'. congruence.
    + now rewrite IH.
Qed.

Lemma dict_keys_set_present {V} (k : string) (v : V) (d : dict V) :
  In k (dict_keys d) -> dict_keys (dict_set k v d) = dict_keys d.
Proof.
  induction d as [|[k' v'] d IH]; simpl; [tauto|].
  intros Hin. destruct (String.eqb k k') eqn:E; simpl; [reflexivity|].
  f_equal. apply IH. destruct Hin as [->|Hin]; [|exact Hin].
  now rewrite String.eqb_refl in E.
Qed.

Lemma dict_get_Some_In {V} (k : string) (v : V) (d : dict V) :
  dict_get k d = Some v -> In (k, v) d.
Proof.
  induction d as [|[k' v'] d IH]; simpl; [discriminate|].
  destruct (String.eqb k k') eqn:E.
  - apply String.eqb_eq in E. intros [= ->]. left. now subst.
  - intros H. right. now apply IH.
Qed.

Lemma dict_get_is_Some {V} (k : string) (d : dict V) :
  In k (dict_keys d) -> exists v, dict_get k d = Some v.
Proof.
  induction d as [|[k' v'] d IH]; simpl; [tauto|].
  intros Hin. destruct (String.eqb k k') eqn:E; [eauto|].
  apply IH. destruct Hin as [->|Hin]; [|exact Hin].
  now rewrite String.eqb_refl in E.
Qed.

End PyFacts.

(** ** The alerting policy of the edge processor *)

Module EdgeProcessorFacts.
Import Py PyFacts EdgeProcessor.

(** The bucket chain is monotone for any table of thresholds, sorted or
    not: the bucket of [b] is the first threshold [b] does not exceed, and
    a smaller count does not exceed it either. *)
Lemma bucket_mono (lowest : string) (th : dict Z) (a b : Z) (la lb : string) :
  level_rank lowest = 0%nat ->
  (a <= b)%Z ->
  bucket lowest th a = Some la -> bucket lowest th b = Some lb ->
  (level_rank la <= level_rank lb)%nat.
Proof.
  intros H0 Hab. unfold bucket.
  destruct (dict_get "normal" th) as [n|]; simpl; [|discriminate].
  destruct (Z.leb_spec a n), (Z.leb_spec b n); try lia.
  - intros [= <-] [= <-]. lia.
  - intros [= <-] _. lia.
  - destruct (dict_get "moderate" th) as [m|]; simpl; [|discriminate].
    destruct (Z.leb_spec a m), (Z.leb_spec b m); try lia.
    + intros [= <-] [= <-]. lia.
    + intros [= <-].
      destruct (dict_get "high" th) as [h|]; simpl; [|discriminate].
      destruct (b <=? h)%Z; intros [= <-]; vm_compute; lia.
    + destruct (dict_get "high" th) as [h|]; simpl; [|discriminate].
      destruct (Z.leb_spec a h), (Z.leb_spec b h); try lia;
        intros [= <-] [= <-]; vm_compute; lia.
Qed.

Lemma bucket_default_total (lowest : string) (n : Z) :
  exists l, bucket lowest default_thresholds n = Some l.
Proof.
  unfold bucket, default_thresholds. simpl.
  destruct (n <=? 60)%Z; [eauto|].
  destruct (n <=? 100)%Z; [eauto|].
  destruct (n <=? 150)%Z; eauto.
Qed.

Lemma calculate_crowd_density_level (p : processor) (n : Z) :
  Qeq_bool (grid_area p) 0 = false ->
  fst <$> calculate_crowd_density p n = bucket "low" (density_thresholds p) n.
Proof.
  intros Ha. unfold calculate_crowd_density. rewrite Ha.
  destruct (bucket "low" (density_thresholds p) n); reflexivity.
Qed.

(** C4.  With the default thresholds 60/100/150/200 (and any non-zero
    area), the counts 0, 60, 61, 100, 101, 150, 151, 300 are given the
    levels low, low, moderate, moderate, high, high, critical, critical by
    [calculate_crowd_density] and the statuses normal, normal, moderate,
    moderate, high, high, critical, critical by [get_threshold_status];
    and for all counts [a <= b] both functions return, and the level and
    the status of [a] are at most those of [b] in the order
    low/normal < moderate < high < critical. *)
Theorem density_bucketing_monotone (p : processor) :
  density_thresholds p = default_thresholds ->
  Qeq_bool (grid_area p) 0 = false ->
  List.map (fun n => fst <$> calculate_crowd_density p n)
      [0; 60; 61; 100; 101; 150; 151; 300]%Z
    = List.map Some
        ["low"; "low"; "moderate"; "moderate"; "high"; "high"; "critical"; "critical"]
  /\ List.map (get_threshold_status p) [0; 60; 61; 100; 101; 150; 151; 300]%Z
    = List.map Some
        ["normal"; "normal"; "moderate"; "moderate"; "high"; "high"; "critical"; "critical"]
  /\ forall a b : Z, (a <= b)%Z ->
       exists la lb sa sb,
         fst <$> calculate_crowd_density p a = Some la
         /\ fst <$> calculate_crowd_density p b = Some lb
         /\ get_threshold_status p a = Some sa
         /\ get_threshold_status p b = Some sb
         /\ (level_rank la <= level_rank lb)%nat
         /\ (level_rank sa <= level_rank sb)%nat.
Proof.
  intros Hth Harea. split; [|split].
  - simpl. rewrite !calculate_crowd_density_level by exact Harea.
    rewrite Hth. reflexivity.
  - unfold get_threshold_status. rewrite Hth. reflexivity.
  - intros a b Hab.
    destruct (bucket_default_total "low" a) as [la Hla].
    destruct (bucket_default_total "low" b) as [lb Hlb].
    destruct (bucket_default_total "normal" a) as [sa Hsa].
    destruct (bucket_default_total "normal" b) as [sb Hsb].
    exists la, lb, sa, sb.
    rewrite !calculate_crowd_density_level by exact Harea.
    unfold get_threshold_status. rewrite Hth.
    repeat split; try assumption.
    + exact (bucket_mono "low" _ a b la lb eq_refl Hab Hla Hlb).
    + exact (bucket_mono "normal" _ a b sa sb eq_refl Hab Hsa Hsb).
Qed.

Lemma density_bucketing_monotone_witness :
  List.map (fun n => fst <$> calculate_crowd_density default_processor n)
      [0; 60; 61; 100; 101; 150; 151; 300]%Z
    = List.map Some
        ["low"; "low"; "moderate"; "moderate"; "high"; "high"; "critical"; "critical"]
  /\ List.map (get_threshold_status default_processor)
       [0; 60; 61; 100; 101; 150; 151; 300]%Z
    = List.map Some
        ["normal"; "normal"; "moderate"; "moderate"; "high"; "high"; "critical"; "critical"]
  /\ forall a b : Z, (a <= b)%Z ->
       exists la lb sa sb,
         fst <$> calculate_crowd_density default_processor a = Some la
         /\ fst <$> calculate_crowd_density default_processor b = Some lb
         /\ get_threshold_status default_processor a = Some sa
         /\ get_threshold_status default_processor b = Some sb
         /\ (level_rank la <= level_rank lb)%nat
         /\ (level_rank sa <= level_rank sb)%nat.
Proof.
  apply (density_bucketing_monotone default_processor); reflexivity.
Defined.

(** *** Cooldown of the crowd-density alert *)

Lemma density_key_inj (s s' : string) : density_key s = density_key s' -> s = s'.
Proof. unfold density_key. cbv [String.append]. congruence. Qed.

Lemma behavior_key_fresh (b s : string) : ("behavior_" ++ b)%string <> density_key s.
Proof. unfold density_key. discriminate. Qed.

Lemma emergency_key_fresh (t s : string) : ("emergency_" ++ t)%string <> density_key s.
Proof. unfold density_key. discriminate. Qed.

Lemma same_density_view_refl status r : same_density_view status r r.
Proof. repeat split. Qed.

Lemma same_density_view_trans status r1 r2 r3 :
  same_density_view status r1 r2 -> same_density_view status r2 r3 ->
  same_density_view status r1 r3.
Proof.
  intros (A1 & B1 & C1) (A2 & B2 & C2).
  repeat split; [now rewrite A2 | now rewrite B2 | now rewrite C2].
Qed.

Lemma behavior_step_view (e : env) status acc b :
  same_density_view status acc (behavior_step e acc b).
Proof.
  destruct acc as [alerts p]. unfold behavior_step.
  destruct (str_in (ba_severity b) ["high"; "critical"]);
    [|apply same_density_view_refl].
  destruct (negb (is_alert_in_cooldown e p ("behavior_" ++ ba_behavior b)));
    [|apply same_density_view_refl].
  repeat split; simpl.
  - rewrite existsb_app. simpl. unfold is_density_alert. simpl.
    now rewrite orb_false_r.
  - apply lookup_insert_ne, behavior_key_fresh.
Qed.

Lemma behavior_loop_view (e : env) status bas acc :
  same_density_view status acc (fold_left (behavior_step e) bas acc).
Proof.
  revert acc. induction bas as [|b bas IH]; intros acc; simpl.
  - apply same_density_view_refl.
  - eapply same_density_view_trans; [apply behavior_step_view | apply IH].
Qed.

Lemma emergency_block_view (e : env) status acc es :
  same_density_view status acc (emergency_block e acc es).
Proof.
  destruct acc as [alerts p]. unfold emergency_block.
  destruct (str_in (es_status es) ["warning"; "emergency"]);
    [|apply same_density_view_refl].
  destruct (negb (is_alert_in_cooldown e p ("emergency_" ++ str_of_type (es_type es))));
    [|apply same_density_view_refl].
  repeat split; simpl.
  - rewrite existsb_app. simpl. unfold is_density_alert. simpl.
    now rewrite orb_false_r.
  - apply lookup_insert_ne, emergency_key_fresh.
Qed.

Lemma str_in_high_critical (st : string) :
  str_in st ["high"; "critical"] = true <-> st = "high" \/ st = "critical".
Proof.
  unfold str_in. simpl. rewrite orb_false_r, orb_true_iff, !String.eqb_eq. tauto.
Qed.

(** An evaluation inside the window, or without the condition: the first
    block adds no alert of that status and leaves the entry alone. *)
Lemma density_block_quiet (e : env) (p : processor) (pc : Z) status cooldown_until r :
  alert_cooldown p !! density_key status = Some cooldown_until ->
  (now e < cooldown_until)%Q \/ get_threshold_status p pc <> Some status ->
  density_block e p pc = Some r ->
  same_density_view status ([], p) r.
Proof.
  intros Hcd Hheld. unfold density_block.
  destruct (get_threshold_status p pc) as [st|]; cbn [mbind option_bind];
    [|discriminate].
  destruct (str_in st ["high"; "critical"]);
    [|intros [= <-]; apply same_density_view_refl].
  destruct (String.eqb_spec st status) as [->|Hne].
  - destruct Hheld as [Hnow|Hother]; [|congruence].
    unfold is_alert_in_cooldown. fold (density_key status). rewrite Hcd.
    apply Qltb_lt in Hnow. rewrite Hnow. simpl.
    intros [= <-]. apply same_density_view_refl.
  - destruct (negb (is_alert_in_cooldown e p ("density_" ++ st)));
      intros [= <-]; [|apply same_density_view_refl].
    repeat split; simpl.
    + unfold is_density_alert. simpl.
      apply String.eqb_neq in Hne. now rewrite Hne.
    + apply lookup_insert_ne. intros Heq. apply density_key_inj in Heq. congruence.
Qed.

(** An evaluation with the condition holding and the key out of cooldown:
    the first block fires and arms the cooldown for 60 seconds. *)
Lemma density_block_fires (e : env) (p : processor) (pc : Z) status :
  get_threshold_status p pc = Some status ->
  status = "high" \/ status = "critical" ->
  is_alert_in_cooldown e p (density_key status) = false ->
  exists r, density_block e p pc = Some r
    /\ existsb (is_density_alert status) (fst r) = true
    /\ alert_cooldown (snd r) !! density_key status = Some (now e + 60)%Q
    /\ density_thresholds (snd r) = density_thresholds p.
Proof.
  intros Hst Hhc Hcd. unfold density_block. rewrite Hst. cbn [mbind option_bind].
  apply str_in_high_critical in Hhc. rewrite Hhc.
  fold (density_key status). rewrite Hcd. simpl.
  eexists. split; [reflexivity|]. simpl. repeat split.
  - unfold is_density_alert. simpl. now rewrite String.eqb_refl.
  - apply lookup_insert_eq.
Qed.

Lemma generate_alerts_quiet (e : env) (p : processor) pc bas es status cooldown_until r :
  alert_cooldown p !! density_key status = Some cooldown_until ->
  (now e < cooldown_until)%Q \/ get_threshold_status p pc <> Some status ->
  generate_alerts e p pc bas es = Some r ->
  same_density_view status ([], p) r.
Proof.
  intros Hcd Hnow. unfold generate_alerts.
  destruct (density_block e p pc) as [acc|] eqn:Hblock; simpl; [|discriminate].
  intros [= <-].
  eapply same_density_view_trans;
    [exact (density_block_quiet e p pc status cooldown_until acc Hcd Hnow Hblock)|].
  eapply same_density_view_trans;
    [apply behavior_loop_view | apply emergency_block_view].
Qed.

Lemma generate_alerts_fires (e : env) (p : processor) pc bas es status :
  get_threshold_status p pc = Some status ->
  status = "high" \/ status = "critical" ->
  is_alert_in_cooldown e p (density_key status) = false ->
  exists r, generate_alerts e p pc bas es = Some r
    /\ existsb (is_density_alert status) (fst r) = true
    /\ alert_cooldown (snd r) !! density_key status = Some (now e + 60)%Q
    /\ density_thresholds (snd r) = density_thresholds p.
Proof.
  intros Hst Hhc Hcd.
  destruct (density_block_fires e p pc status Hst Hhc Hcd) as (acc & Hb & Hfire & Hcool & Hth).
  unfold generate_alerts. rewrite Hb. simpl.
  eexists. split; [reflexivity|].
  destruct (same_density_view_trans status _ _ _
              (behavior_loop_view e status bas acc)
              (emergency_block_view e status _ es)) as (A & B & C).
  repeat split; [now rewrite A | now rewrite B | now rewrite C].
Qed.

Lemma held_back_thresholds (p p' : processor) status cooldown_until ev :
  density_thresholds p' = density_thresholds p ->
  held_back p status cooldown_until ev -> held_back p' status cooldown_until ev.
Proof.
  intros Hth. unfold held_back, get_threshold_status. now rewrite Hth.
Qed.

(** Any number of evaluations that are held back yield no alert of that
    status and leave the cooldown entry in place. *)
Lemma run_quiet (status : string) (cooldown_until : Q) (evs : list evaluation) :
  forall p : processor,
  alert_cooldown p !! density_key status = Some cooldown_until ->
  Forall (held_back p status cooldown_until) evs ->
  Forall (fun out => existsb (is_density_alert status) out = false) (fst (run evs p))
  /\ alert_cooldown (snd (run evs p)) !! density_key status = Some cooldown_until
  /\ density_thresholds (snd (run evs p)) = density_thresholds p.
Proof.
  induction evs as [|ev evs IH]; intros p Hcd Hall; simpl.
  - repeat split; [constructor | exact Hcd].
  - inversion Hall as [|? ? Hev Hrest]; subst.
    destruct (generate_alerts (ev_env ev) p (ev_people_count ev)
                (ev_behavior_alerts ev) (ev_emergency ev)) as [[alerts p1]|] eqn:Hgen.
    + destruct (generate_alerts_quiet _ _ _ _ _ status cooldown_until _ Hcd Hev Hgen)
        as (A & B & C). simpl in A, B, C.
      rewrite Hcd in B.
      assert (Hrest1 : Forall (held_back p1 status cooldown_until) evs).
      { eapply List.Forall_impl; [|exact Hrest].
        intros ev'. now apply held_back_thresholds. }
      destruct (IH p1 B Hrest1) as (IA & IB & IC).
      destruct (run evs p1) as [outs p2]. simpl in *.
      repeat split; [constructor; assumption | exact IB | congruence].
    + destruct (IH p Hcd Hrest) as (IA & IB & IC).
      destruct (run evs p) as [outs p2]. simpl in *.
      repeat split; [constructor; [reflexivity | assumption] | exact IB | exact IC].
Qed.

(** C5.  Let a crowd-density alert of status [status] (high or critical)
    fire in an evaluation at time [now e].  Then in every later run of
    evaluations whose clock readings are strictly below [now e + 60],
    whatever their inputs (evaluations in which the count does not have
    that status may come at any time), no evaluation produces a
    crowd-density alert of that status; and the evaluation after them
    whose clock reading is at least [now e + 60] and whose people count
    has that threshold status produces one. *)
Theorem alert_cooldown_window (e : env) (p : processor) (pc : Z)
    (bas : list behavior_alert) (es : emergency_status) (status : string) :
  get_threshold_status p pc = Some status ->
  status = "high" \/ status = "critical" ->
  is_alert_in_cooldown e p (density_key status) = false ->
  exists alerts p1,
    generate_alerts e p pc bas es = Some (alerts, p1)
    /\ existsb (is_density_alert status) alerts = true
    /\ forall evs : list evaluation,
         Forall (held_back p status (now e + 60)) evs ->
         Forall (fun out => existsb (is_density_alert status) out = false)
           (fst (run evs p1))
         /\ forall (e' : env) (pc' : Z) bas' es',
              (now e + 60 <= now e')%Q ->
              get_threshold_status p pc' = Some status ->
              exists alerts' p3,
                generate_alerts e' (snd (run evs p1)) pc' bas' es' = Some (alerts', p3)
                /\ existsb (is_density_alert status) alerts' = true.
Proof.
  intros Hst Hhc Hcd.
  destruct (generate_alerts_fires e p pc bas es status Hst Hhc Hcd)
    as ([alerts p1] & Hgen & Hfire & Hcool & Hth).
  simpl in Hfire, Hcool, Hth.
  exists alerts, p1. split; [exact Hgen|]. split; [exact Hfire|].
  intros evs Hall.
  assert (Hall1 : Forall (held_back p1 status (now e + 60)) evs).
  { eapply List.Forall_impl; [|exact Hall]. intros ev'. now apply held_back_thresholds. }
  destruct (run_quiet status (now e + 60)%Q evs p1 Hcool Hall1) as (Hq & Hkeep & Hth2).
  split; [exact Hq|].
  intros e' pc' bas' es' Hlate Hst'.
  assert (Hst2 : get_threshold_status (snd (run evs p1)) pc' = Some status).
  { unfold get_threshold_status in *. now rewrite Hth2, Hth. }
  assert (Hout : is_alert_in_cooldown e' (snd (run evs p1)) (density_key status) = false).
  { unfold is_alert_in_cooldown. rewrite Hkeep. now apply Qltb_ge. }
  destruct (generate_alerts_fires e' _ pc' bas' es' status Hst2 Hhc Hout)
    as ([alerts' p3] & Hgen' & Hfire' & _).
  exists alerts', p3. split; assumption.
Qed.

(** In particular every evaluation strictly inside the window is held
    back, whatever it is given. *)
Lemma inside_window_held_back (p : processor) status (t : Q) (evs : list evaluation) :
  Forall (fun ev => (now (ev_env ev) < t + 60)%Q) evs ->
  Forall (held_back p status (t + 60)) evs.
Proof.
  intros H. eapply List.Forall_impl; [|exact H]. intros ev Hev. now left.
Qed.

Lemma alert_cooldown_window_witness :
  exists alerts p1,
    generate_alerts (env_at 1000 "t0") default_processor 210 [] clear_status
      = Some (alerts, p1)
    /\ existsb (is_density_alert "critical") alerts = true
    /\ forall evs : list evaluation,
         Forall (held_back default_processor "critical" (now (env_at 1000 "t0") + 60)) evs ->
         Forall (fun out => existsb (is_density_alert "critical") out = false)
           (fst (run evs p1))
         /\ forall (e' : env) (pc' : Z) bas' es',
              (now (env_at 1000 "t0") + 60 <= now e')%Q ->
              get_threshold_status default_processor pc' = Some "critical" ->
              exists alerts' p3,
                generate_alerts e' (snd (run evs p1)) pc' bas' es' = Some (alerts', p3)
                /\ existsb (is_density_alert "critical") alerts' = true.
Proof.
  apply (alert_cooldown_window (env_at 1000 "t0") default_processor 210 []
           clear_status "critical").
  - vm_compute. reflexivity.
  - right. reflexivity.
  - vm_compute. reflexivity.
Defined.

(** The scenario of the documentation on a simulated clock: a critical
    alert at 1000, silence at 1000 and 1059, a new alert at 1060. *)
Lemma cooldown_scenario :
  List.map (fun out => existsb (is_density_alert "critical") out)
    (fst (run
       (List.map (fun t : Q =>
          {| ev_env := env_at t "t"; ev_people_count := 210;
             ev_behavior_alerts := []; ev_emergency := clear_status |})
          [1000; 1000; 1059; 1060; 1119; 1120]%Q)
       default_processor))
  = [true; false; false; true; false; true].
Proof. vm_compute. reflexivity. Qed.

End EdgeProcessorFacts.

(** ** The health score of the device monitor *)

Module DeviceMonitorFacts.
Import Py PyFacts DeviceMonitor.

#[local] Instance Qltb_comp : Proper (Qeq ==> Qeq ==> eq) Qltb.
Proof. intros a a' Ha b b' Hb. unfold Qltb. now rewrite Ha, Hb. Qed.

#[local] Instance round_half_even_comp : Proper (Qeq ==> eq) round_half_even.
Proof.
  intros a b Hab. unfold round_half_even.
  rewrite (Qfloor_comp a b Hab).
  assert (Hr : (a - inject_Z (Qfloor b) == b - inject_Z (Qfloor b))%Q) by now rewrite Hab.
  rewrite (Qltb_comp _ _ Hr _ _ (Qeq_refl (1 # 2))).
  rewrite (Qltb_comp _ _ (Qeq_refl (1 # 2)) _ _ Hr).
  reflexivity.
Qed.

#[local] Instance py_round_comp : Proper (Qeq ==> eq ==> Qeq) py_round.
Proof.
  intros a b Hab n n' <-. unfold py_round.
  assert (Hs : (a * inject_Z (10 ^ Z.of_nat n) == b * inject_Z (10 ^ Z.of_nat n))%Q)
    by now rewrite Hab.
  now rewrite (round_half_even_comp _ _ Hs).
Qed.








End DeviceMonitorFacts.

(** ** The health loop of the edge application *)

Module EdgeAppFacts.
Import Py PyFacts DeviceMonitor EdgeApp.

Lemma memory_usage_is_dict (reading : option memory_reading) :
  exists d, _get_memory_usage reading = PDict d.
Proof. destruct reading; simpl; eauto. Qed.

Lemma check_dict_raises (health_data : pyval) (field : string) (limit : Q) d :
  py_subscript health_data field = Some (PDict d) ->
  check health_data field limit = None.
Proof. intros H. unfold check. rewrite H. reflexivity. Qed.

(** Whatever the record, an iteration whose memory field is a map logs
    the error and publishes nothing. *)
Lemma iteration_with_memory_map (grid_id : string) (health_data : pyval) d :
  py_subscript health_data "memory_usage" = Some (PDict d) ->
  existsb is_error (monitor_device_health_iteration grid_id health_data) = true
  /\ existsb is_publish (monitor_device_health_iteration grid_id health_data) = false.
Proof.
  intros Hmem. unfold monitor_device_health_iteration.
  rewrite (check_dict_raises _ _ _ _ Hmem).
  destruct (check health_data "cpu_temperature" 80) as [w1|] eqn:Hc; [|split; reflexivity].
  unfold check in Hc.
  destruct (py_subscript health_data "cpu_temperature") as [t|]; [|discriminate].
  simpl in Hc. destruct (py_gt t 80) as [[|]|]; inversion Hc; subst; split; reflexivity.
Qed.

(** C2, on the code.  For every record [get_health_status] returns,
    whatever the readings, the iteration of the health loop raises at the
    memory check ([memory_usage] is a map, and a map is not comparable
    with 90): the error branch is taken and the health record is not
    published. *)
Theorem health_loop_raises_before_publish (grid_id : string) (r : readings)
    (alerts : option (list pyval)) (error_message : string) :
  existsb is_error
    (monitor_device_health_iteration grid_id (get_health_status r alerts error_message))
    = true
  /\ existsb is_publish
       (monitor_device_health_iteration grid_id (get_health_status r alerts error_message))
     = false.
Proof.
  destruct alerts as [a|].
  - destruct (memory_usage_is_dict (r_memory r)) as [d Hd].
    apply (iteration_with_memory_map grid_id _ d).
    unfold get_health_status. simpl. now rewrite Hd.
  - apply (iteration_with_memory_map grid_id _ [ ("percentage", PInt 0) ]).
    reflexivity.
Qed.

End EdgeAppFacts.

(** ** The offline queue of the messaging client *)

Module MQTTClientFacts.
Import Py PyFacts MQTTClient.

(** The queue never exceeds its bound, and a full queue loses its oldest
    entry to make room for the new one. *)
Lemma queue_message_bounded (now : Q) (c : client) topic payload qos retain :
  (List.length (message_queue c) <= max_queue_size)%nat ->
  (List.length (message_queue (fst (_queue_message now c topic payload qos retain)))
   <= max_queue_size)%nat.
Proof.
  intros Hlen. unfold _queue_message.
  destruct (Nat.leb_spec max_queue_size (List.length (message_queue c))) as [Hfull|Hroom].
  - destruct (message_queue c) as [|removed rest] eqn:Hq; simpl in *.
    + unfold max_queue_size in Hfull. lia.
    + rewrite length_app. simpl. lia.
  - simpl. rewrite length_app. simpl. lia.
Qed.

Lemma queue_message_fifo (now : Q) (c : client) topic payload qos retain :
  message_queue (fst (_queue_message now c topic payload qos retain))
  = (if (max_queue_size <=? List.length (message_queue c))%nat
     then List.tl (message_queue c) else message_queue c)
    ++ [ {| MQTTClient.topic := topic; MQTTClient.payload := payload;
            MQTTClient.qos := qos; MQTTClient.retain := retain;
            timestamp := now |} ].
Proof.
  unfold _queue_message.
  destruct (max_queue_size <=? List.length (message_queue c))%nat; [|reflexivity].
  destruct (message_queue c); reflexivity.
Qed.

(** A send the transport refuses, or that raises, ends in the queue. *)
Lemma publish_failure_queues (result : transport_result) (now : Q) (c : client)
    topic payload qos retain :
  connected c = true -> has_client c = true ->
  result <> Rc MQTT_ERR_SUCCESS ->
  message_queue (fst (publish true result now c topic payload (Some qos) retain))
  = message_queue (fst (_queue_message now c topic payload qos retain)).
Proof.
  intros Hc Hh Hres. unfold publish. rewrite Hc, Hh. simpl.
  destruct result as [rc|].
  - destruct (Z.eqb_spec rc MQTT_ERR_SUCCESS) as [->|Hne]; [congruence|]. simpl.
    destruct (_queue_message now c topic payload qos retain). reflexivity.
  - destruct (_queue_message now c topic payload qos retain). reflexivity.
Qed.

(** C1, on the code.  A message handed to [publish] while the client is
    not connected is neither sent nor queued: the client is unchanged and
    nothing is logged, whatever the transport would have answered. *)
Theorem publish_while_disconnected_drops (mqtt_available : bool)
    (result : transport_result) (now : Q) (c : client)
    (topic payload : string) (qos : option Z) (retain : bool) :
  connected c = false ->
  publish mqtt_available result now c topic payload qos retain = (c, []).
Proof.
  intros Hc. unfold publish. rewrite Hc. reflexivity.
Qed.

Lemma publish_while_disconnected_drops_witness :
  publish true (Rc 0) 1000 offline_client "dhsiled/grids/G01/status" "{}" None false
  = (offline_client, []).
Proof.
  apply (publish_while_disconnected_drops true (Rc 0) 1000 offline_client).
  reflexivity.
Defined.

End MQTTClientFacts.

(** ** The rings and the alert listing of the API server *)

Module ApiServerFacts.
Import Py PyFacts ApiServer.

Lemma most_recent_all {A} (n : nat) (l : list A) :
  (List.length l <= n)%nat -> most_recent n l = l.
Proof.
  intros H. unfold most_recent. replace (List.length l - n)%nat with 0%nat by lia.
  reflexivity.
Qed.

Lemma most_recent_length {A} (n : nat) (l : list A) :
  List.length (most_recent n l) = Nat.min n (List.length l).
Proof. unfold most_recent. rewrite length_skipn. lia. Qed.

Lemma most_recent_app {A} (n : nat) (l k : list A) :
  most_recent n (most_recent n l ++ k) = most_recent n (l ++ k).
Proof.
  unfold most_recent. rewrite !length_app, length_skipn.
  destruct (Nat.le_gt_cases (List.length l) n) as [Hle|Hgt].
  - replace (List.length l - n)%nat with 0%nat by lia. simpl.
    now replace (List.length l - 0)%nat with (List.length l) by lia.
  - rewrite (skipn_app (List.length l + List.length k - n)).
    replace (List.length l + List.length k - n - List.length l)%nat
      with (List.length k - n)%nat by lia.
    rewrite skipn_app, skipn_skipn, length_skipn.
    f_equal.
    + f_equal. lia.
    + f_equal. lia.
Qed.

Lemma append_bounded_most_recent {A} (bound : nat) (x : A) (l : list A) :
  (List.length l <= bound)%nat ->
  append_bounded bound x l = most_recent bound (l ++ [x]).
Proof.
  intros Hlen. unfold append_bounded, most_recent. rewrite length_app. simpl.
  destruct (Nat.ltb_spec bound (List.length l + 1)) as [Hfull|Hroom].
  - replace (List.length l + 1 - bound)%nat with 1%nat by lia.
    destruct (l ++ [x]); reflexivity.
  - replace (List.length l + 1 - bound)%nat with 0%nat by lia. reflexivity.
Qed.

Ltac option_step := cbn [mbind option_bind].

(** What one message does to each ring. *)
Lemma on_mqtt_message_alerts (s : stores) (m : bus_message) :
  alert_history (on_mqtt_message s m)
  = match delivered_alert m with
    | Some payload => append_bounded 1000 payload (alert_history s)
    | None => alert_history s
    end.
Proof.
  unfold on_mqtt_message, handle, delivered_alert.
  destruct (msg_payload m) as [payload|]; option_step.
  - destruct (contains "status" (msg_topic m)).
    + destruct (nth_error (split "/" (msg_topic m)) 2); reflexivity.
    + destruct (contains "alerts" (msg_topic m)).
      * destruct (py_setitem payload "received_at" (PStr (msg_received_at m)));
          reflexivity.
      * destruct (contains "health" (msg_topic m)); [|reflexivity].
        destruct (nth_error (split "/" (msg_topic m)) 2) as [g|]; option_step;
          [|reflexivity].
        destruct (py_setitem payload "grid_id" (PStr g)); reflexivity.
  - destruct (contains "status" (msg_topic m)); [reflexivity|].
    destruct (contains "alerts" (msg_topic m)); reflexivity.
Qed.

Lemma on_mqtt_message_health (s : stores) (m : bus_message) :
  health_history (on_mqtt_message s m)
  = match delivered_health m with
    | Some payload => append_bounded 500 payload (health_history s)
    | None => health_history s
    end.
Proof.
  unfold on_mqtt_message, handle, delivered_health.
  destruct (msg_payload m) as [payload|]; option_step.
  - destruct (contains "status" (msg_topic m)).
    + destruct (nth_error (split "/" (msg_topic m)) 2); reflexivity.
    + destruct (contains "alerts" (msg_topic m)).
      * destruct (py_setitem payload "received_at" (PStr (msg_received_at m)));
          reflexivity.
      * destruct (contains "health" (msg_topic m)); [|reflexivity].
        destruct (nth_error (split "/" (msg_topic m)) 2) as [g|]; option_step;
          [|reflexivity].
        destruct (py_setitem payload "grid_id" (PStr g)); reflexivity.
  - destruct (contains "status" (msg_topic m)); [reflexivity|].
    destruct (contains "alerts" (msg_topic m)); [reflexivity|].
    destruct (contains "health" (msg_topic m)); reflexivity.
Qed.

Lemma append_bounded_length {A} (bound : nat) (x : A) (l : list A) :
  (List.length l <= bound)%nat ->
  (List.length (append_bounded bound x l) <= bound)%nat.
Proof.
  intros H. rewrite append_bounded_most_recent by exact H.
  rewrite most_recent_length. lia.
Qed.

(** The bounds are preserved by every message. *)
Lemma on_mqtt_message_bounds (s : stores) (m : bus_message) :
  (List.length (alert_history s) <= 1000)%nat ->
  (List.length (health_history s) <= 500)%nat ->
  (List.length (alert_history (on_mqtt_message s m)) <= 1000)%nat
  /\ (List.length (health_history (on_mqtt_message s m)) <= 500)%nat.
Proof.
  intros Ha Hh. rewrite on_mqtt_message_alerts, on_mqtt_message_health.
  split.
  - destruct (delivered_alert m); [now apply append_bounded_length | exact Ha].
  - destruct (delivered_health m); [now apply append_bounded_length | exact Hh].
Qed.

(** After any sequence of messages each ring holds the most recent
    entries of what was there followed by what the messages delivered. *)
Lemma deliver_rings (msgs : list bus_message) :
  forall s : stores,
  (List.length (alert_history s) <= 1000)%nat ->
  (List.length (health_history s) <= 500)%nat ->
  alert_history (deliver msgs s)
    = most_recent 1000 (alert_history s ++ omap delivered_alert msgs)
  /\ health_history (deliver msgs s)
    = most_recent 500 (health_history s ++ omap delivered_health msgs).
Proof.
  induction msgs as [|m msgs IH]; intros s Ha Hh.
  - simpl. rewrite !app_nil_r, !most_recent_all by assumption. split; reflexivity.
  - destruct (on_mqtt_message_bounds s m Ha Hh) as [Ha' Hh'].
    destruct (IH (on_mqtt_message s m) Ha' Hh') as [IHa IHh].
    change (deliver (m :: msgs) s) with (deliver msgs (on_mqtt_message s m)).
    rewrite IHa, IHh, on_mqtt_message_alerts, on_mqtt_message_health.
    simpl omap. split.
    + destruct (delivered_alert m) as [p|]; [|reflexivity].
      rewrite append_bounded_most_recent by exact Ha.
      rewrite most_recent_app, <- app_assoc. reflexivity.
    + destruct (delivered_health m) as [p|]; [|reflexivity].
      rewrite append_bounded_most_recent by exact Hh.
      rewrite most_recent_app, <- app_assoc. reflexivity.
Qed.

(** C8.  Starting from the empty stores, after any sequence of bus
    messages the alert ring holds the most recent 1000 of the alert
    payloads delivered, in arrival order, and the health ring the most
    recent 500 of the health payloads delivered.  In particular a sequence
    delivering 1500 alert payloads leaves exactly the last 1000 of them
    (the first 500 are evicted), and one delivering 600 health payloads
    leaves exactly the last 500.  The bounds 1000 and 500 are preserved by
    every message-handling step. *)
Theorem rings_bounded_oldest_evicted (msgs : list bus_message) :
  alert_history (deliver msgs initial_stores)
    = most_recent 1000 (omap delivered_alert msgs)
  /\ health_history (deliver msgs initial_stores)
    = most_recent 500 (omap delivered_health msgs)
  /\ (List.length (omap delivered_alert msgs) = 1500%nat ->
      List.length (alert_history (deliver msgs initial_stores)) = 1000%nat
      /\ alert_history (deliver msgs initial_stores)
         = skipn 500 (omap delivered_alert msgs))
  /\ (List.length (omap delivered_health msgs) = 600%nat ->
      List.length (health_history (deliver msgs initial_stores)) = 500%nat
      /\ health_history (deliver msgs initial_stores)
         = skipn 100 (omap delivered_health msgs))
  /\ forall (s : stores) (m : bus_message),
       (List.length (alert_history s) <= 1000)%nat ->
       (List.length (health_history s) <= 500)%nat ->
       (List.length (alert_history (on_mqtt_message s m)) <= 1000)%nat
       /\ (List.length (health_history (on_mqtt_message s m)) <= 500)%nat.
Proof.
  destruct (deliver_rings msgs initial_stores) as [Ha Hh]; [simpl; lia | simpl; lia |].
  simpl in Ha, Hh.
  split; [exact Ha|]. split; [exact Hh|]. split; [|split].
  - intros Hlen. rewrite Ha. split.
    + rewrite most_recent_length, Hlen. reflexivity.
    + unfold most_recent. rewrite Hlen. reflexivity.
  - intros Hlen. rewrite Hh. split.
    + rewrite most_recent_length, Hlen. reflexivity.
    + unfold most_recent. rewrite Hlen. reflexivity.
  - exact on_mqtt_message_bounds.
Qed.

Lemma rings_bounded_oldest_evicted_witness :
  List.length (alert_history (deliver sample_traffic initial_stores)) = 1000%nat
  /\ List.length (health_history (deliver sample_traffic initial_stores)) = 500%nat.
Proof.
  destruct (rings_bounded_oldest_evicted sample_traffic) as (_ & _ & Ha & Hh & _).
  split; [apply Ha | apply Hh]; vm_compute; reflexivity.
Defined.

(** *** The alert listing *)

Lemma slice_most_recent {A} (limit : Z) (l : list A) :
  (1 <= limit)%Z -> slice_from (- limit) l = most_recent (Z.to_nat limit) l.
Proof.
  intros H. unfold slice_from, most_recent.
  destruct (Z.ltb_spec (- limit) 0); [|lia].
  f_equal. lia.
Qed.

Lemma slice_zero_is_everything {A} (l : list A) : slice_from (- 0) l = l.
Proof.
  unfold slice_from. simpl. rewrite Z.min_l by lia. reflexivity.
Qed.

Lemma filter_severity_maps (severity : string) (entries : list pyval) :
  Forall (fun a => is_dict a = true) entries ->
  filter_severity severity entries = Some (List.filter (has_severity severity) entries).
Proof.
  induction 1 as [|a entries Ha _ IH]; [reflexivity|].
  simpl. destruct a; try discriminate. unfold has_severity. simpl.
  rewrite IH. simpl. reflexivity.
Qed.

Lemma Forall_most_recent {A} (P : A -> Prop) (n : nat) (l : list A) :
  Forall P l -> Forall P (most_recent n l).
Proof.
  intros H. unfold most_recent. rewrite <- (firstn_skipn (List.length l - n) l) in H.
  now apply Forall_app in H.
Qed.

Lemma has_severity_stated (severity : string) (a : pyval) :
  has_severity severity a
  = match a with
    | PDict d => match dict_get "severity" d with
                 | Some (PStr s) => String.eqb s severity
                 | _ => false
                 end
    | _ => false
    end.
Proof.
  unfold has_severity, py_get, dict_get_default. destruct a; try reflexivity.
  destruct (dict_get "severity" d) as [[]|]; reflexivity.
Qed.

(** The entries of the rings are maps: only a payload that accepted an
    item assignment is appended. *)
Lemma delivered_alerts_are_maps (msgs : list bus_message) :
  Forall (fun a => is_dict a = true) (alert_history (deliver msgs initial_stores)).
Proof.
  destruct (deliver_rings msgs initial_stores) as [-> _]; [simpl; lia | simpl; lia |].
  apply Forall_most_recent. simpl.
  induction msgs as [|m msgs IH]; simpl; [constructor|].
  destruct (delivered_alert m) as [a|] eqn:Hd; [|exact IH].
  constructor; [|exact IH].
  unfold delivered_alert in Hd.
  destruct (contains "status" (msg_topic m)); [discriminate|].
  destruct (contains "alerts" (msg_topic m)); [|discriminate].
  destruct (msg_payload m) as [payload|]; [|discriminate].
  cbn [mbind option_bind] in Hd.
  destruct payload; try discriminate. injection Hd as <-. reflexivity.
Qed.

(** C10, as the code has it.  For a request with a limit [L >= 1] and a
    non-empty severity [s], on a ring whose entries are maps, the handler
    first cuts the ring to its most recent [L] entries and only then
    applies the severity filter: the response lists exactly the alerts of
    severity [s] among the last [L] entries, newest first, and its count
    is their number.  An empty severity parameter applies no filter: the
    response lists the last [L] entries.  The response can hold fewer than
    [L] alerts of severity [s] although more than [L] of them are in the
    ring. *)
Theorem get_alerts_truncates_then_filters (s : stores) (limit : Z) (severity : string) :
  (1 <= limit)%Z -> severity <> "" ->
  Forall (fun a => is_dict a = true) (alert_history s) ->
  get_alerts s limit (Some severity)
  = Some {| success := true;
            count := List.length (stated_listing (alert_history s) limit severity);
            alerts := stated_listing (alert_history s) limit severity |}
  /\ get_alerts s limit (Some "")
     = Some {| success := true;
               count := List.length (most_recent (Z.to_nat limit) (alert_history s));
               alerts := List.rev (most_recent (Z.to_nat limit) (alert_history s)) |}
  /\ get_alerts
       (ring_of [ alert_of "A1" "high"; alert_of "A2" "high"; alert_of "A3" "high";
                  alert_of "A4" "low"; alert_of "A5" "low" ])
       2 (Some "high")
     = Some {| success := true; count := 0; alerts := [] |}.
Proof.
  intros Hl Hs Hd. split; [|split; [|reflexivity]]; unfold get_alerts.
  - apply String.eqb_neq in Hs. rewrite Hs. simpl negb. cbv iota.
    rewrite slice_most_recent by exact Hl.
    rewrite filter_severity_maps by (apply Forall_most_recent; exact Hd).
    cbn [mbind option_bind]. unfold stated_listing.
    rewrite length_rev.
    rewrite (filter_ext _ _ (has_severity_stated severity)).
    reflexivity.
  - rewrite slice_most_recent by exact Hl. reflexivity.
Qed.

Lemma get_alerts_truncates_then_filters_witness :
  get_alerts (deliver (List.map alert_message (seq 0 5)) initial_stores) 2 (Some "high")
  = Some {| success := true;
            count := List.length
                       (stated_listing
                          (alert_history (deliver (List.map alert_message (seq 0 5))
                                            initial_stores)) 2 "high");
            alerts := stated_listing
                        (alert_history (deliver (List.map alert_message (seq 0 5))
                                          initial_stores)) 2 "high" |}
  /\ get_alerts (deliver (List.map alert_message (seq 0 5)) initial_stores) 2 (Some "")
     = Some {| success := true;
               count := List.length
                          (most_recent (Z.to_nat 2)
                             (alert_history (deliver (List.map alert_message (seq 0 5))
                                               initial_stores)));
               alerts := List.rev
                           (most_recent (Z.to_nat 2)
                              (alert_history (deliver (List.map alert_message (seq 0 5))
                                                initial_stores))) |}
  /\ get_alerts
       (ring_of [ alert_of "A1" "high"; alert_of "A2" "high"; alert_of "A3" "high";
                  alert_of "A4" "low"; alert_of "A5" "low" ])
       2 (Some "high")
     = Some {| success := true; count := 0; alerts := [] |}.
Proof.
  apply (get_alerts_truncates_then_filters
           (deliver (List.map alert_message (seq 0 5)) initial_stores) 2 "high").
  - lia.
  - discriminate.
  - vm_compute. repeat constructor.
Defined.

(** With [limit=0] the slice [alert_history[-0:]] is the whole ring: the
    request is answered like one whose limit is the length of the ring. *)
Lemma get_alerts_limit_zero_returns_all (s : stores) (severity : option string) :
  get_alerts s 0 severity
  = get_alerts s (Z.of_nat (List.length (alert_history s))) severity.
Proof.
  unfold get_alerts.
  rewrite slice_zero_is_everything.
  replace (slice_from (- Z.of_nat (List.length (alert_history s))) (alert_history s))
    with (alert_history s); [reflexivity|].
  unfold slice_from.
  destruct (Z.ltb_spec (- Z.of_nat (List.length (alert_history s))) 0).
  - rewrite Z.add_opp_diag_r. reflexivity.
  - rewrite Z.min_l by lia.
    replace (Z.to_nat (- Z.of_nat (List.length (alert_history s)))) with 0%nat by lia.
    reflexivity.
Qed.

(** C10, counterexample.  The statement does not hold for every request.
    An empty severity parameter is not a filter: the guard [if severity]
    skips the filtering, and the listing holds alerts whose severity is
    not the empty string.  And with [limit=0] the listing holds the two
    high alerts of the ring, not the high alerts among its most recent
    zero entries. *)
Lemma get_alerts_not_stated_listing :
  alerts <$> get_alerts (ring_of [ alert_of "A1" "high"; alert_of "A2" "low" ]) 5 (Some "")
    <> Some (stated_listing [ alert_of "A1" "high"; alert_of "A2" "low" ] 5 "")
  /\ alerts <$> get_alerts (ring_of [ alert_of "A1" "high"; alert_of "A2" "high" ]) 0
                  (Some "high")
    <> Some (stated_listing [ alert_of "A1" "high"; alert_of "A2" "high" ] 0 "high").
Proof. split; vm_compute; discriminate. Qed.

End ApiServerFacts.

(** ** Dotted access to the configuration *)

Module ConfigFacts.
Import Py PyFacts Config.

Lemma get_path_value (keys : list string) :
  forall doc v, get_path keys doc = Some v <-> path_value keys doc v.
Proof.
  induction keys as [|k ks IH]; intros doc v; simpl.
  - split.
    + intros [= ->]. constructor.
    + inversion 1. reflexivity.
  - split.
    + destruct doc; simpl; try discriminate.
      destruct (dict_get k d) as [c|] eqn:Hk; [|discriminate].
      intros H. apply IH in H. econstructor; eassumption.
    + inversion 1 as [|? ? ? c ? Hk Hrest]; subst. simpl. rewrite Hk.
      now apply IH.
Qed.

(** After a [set] that returns, the path leads to the value set. *)
Lemma get_path_set_path (keys : list string) (v : pyval) :
  forall doc doc', set_path keys v doc = Some doc' -> get_path keys doc' = Some v.
Proof.
  induction keys as [|k ks IH]; intros doc doc'; simpl; [discriminate|].
  destruct ks as [|k' ks].
  - destruct doc; simpl; try discriminate.
    intros [= <-]. simpl. now rewrite dict_get_set_eq.
  - destruct doc; try discriminate.
    destruct (set_path (k' :: ks) v
                match dict_get k d with Some c => c | None => PDict [] end)
      as [child'|] eqn:Hchild; [|discriminate].
    intros [= <-]. cbn [py_subscript]. rewrite dict_get_set_eq.
    exact (IH _ _ Hchild).
Qed.

Lemma set_path_descend (k k' : string) (ks : list string) (v : pyval) (d : dict pyval) :
  set_path (k :: k' :: ks) v (PDict d)
  = match set_path (k' :: ks) v
            match dict_get k d with Some c => c | None => PDict [] end with
    | Some child' => Some (PDict (dict_set k child' d))
    | None => None
    end.
Proof. reflexivity. Qed.

(** [set] returns exactly on the settable paths; in particular a missing
    intermediate key is no obstacle: the map is created. *)
Lemma set_path_settable (keys : list string) (v : pyval) :
  forall doc, settable keys doc <-> exists doc', set_path keys v doc = Some doc'.
Proof.
  induction keys as [|k ks IH]; intros doc.
  - split; [inversion 1 | intros [? [=]]].
  - destruct ks as [|k' ks].
    + split.
      * inversion 1; subst. simpl. eauto.
      * intros [doc' H]. destruct doc; try discriminate. constructor.
    + split.
      * inversion 1 as [| ? ? ? ? Hk | ? ? ? ? c Hk Hrest]; subst.
        -- assert (Hnew : settable (k' :: ks) (PDict [])).
           { destruct ks; constructor. reflexivity. }
           apply IH in Hnew. destruct Hnew as [child' Hc].
           rewrite set_path_descend, Hk, Hc. eauto.
        -- apply IH in Hrest. destruct Hrest as [child' Hc].
           rewrite set_path_descend, Hk, Hc. eauto.
      * intros [doc' H].
        destruct doc; try discriminate.
        rewrite set_path_descend in H.
        destruct (dict_get k d) as [c|] eqn:Hk.
        -- apply (settable_present _ _ _ _ c Hk). apply IH.
           destruct (set_path (k' :: ks) v c); [eauto | discriminate].
        -- now apply settable_missing.
Qed.

(** C9, as the code has it.  [get("mqtt.host", "x")] on the default
    document returns "localhost"; on a document lacking a dotted path
    [get] returns the supplied default; and for every key path along which
    [set] can descend (every existing value met before the last key is a
    map), [set(k, v)] returns and [get(k)] then returns [v], the missing
    intermediate maps having been created; along any other path [set]
    raises. *)
Theorem dotted_access :
  get _get_default_config "mqtt.host" (PStr "x") = PStr "localhost"
  /\ (forall (doc : pyval) (key : string) (default : pyval),
        (~ exists v, path_value (split "." key) doc v) ->
        get doc key default = default)
  /\ (forall (doc : pyval) (key : string) (v : pyval),
        settable (split "." key) doc ->
        exists doc', set doc key v = Some doc'
          /\ forall default, get doc' key default = v)
  /\ (forall (doc : pyval) (key : string) (v : pyval),
        ~ settable (split "." key) doc -> set doc key v = None)
  /\ (exists doc',
        set _get_default_config "a.b.c" (PInt 5) = Some doc'
        /\ get doc' "a.b.c" PNone = PInt 5
        /\ get doc' "a" PNone = PDict [ ("b", PDict [ ("c", PInt 5) ]) ]).
Proof.
  split; [reflexivity|]. split; [|split; [|split]].
  - intros doc key default Hlack. unfold get.
    destruct (get_path (split "." key) doc) as [v|] eqn:Hget; [|reflexivity].
    exfalso. apply Hlack. exists v. now apply get_path_value.
  - intros doc key v Hset. unfold set, get.
    apply (set_path_settable _ v) in Hset. destruct Hset as [doc' Hdoc'].
    exists doc'. split; [exact Hdoc'|].
    intros default. now rewrite (get_path_set_path _ _ _ _ Hdoc').
  - intros doc key v Hnot. unfold set.
    destruct (set_path (split "." key) v doc) as [doc'|] eqn:Hset; [|reflexivity].
    exfalso. apply Hnot. apply (set_path_settable _ v). eauto.
  - eexists. split; [reflexivity|]. split; reflexivity.
Qed.

Lemma dotted_access_witness :
  get _get_default_config "a.b.c" (PStr "fallback") = PStr "fallback"
  /\ exists doc', set _get_default_config "a.b.c" (PInt 5) = Some doc'
       /\ forall default, get doc' "a.b.c" default = PInt 5.
Proof.
  destruct dotted_access as (_ & Hget & Hset & _ & _). split.
  - apply Hget. intros [v Hv]. apply get_path_value in Hv. vm_compute in Hv.
    discriminate Hv.
  - apply Hset. apply settable_missing. reflexivity.
Defined.

(** C9, counterexample.  The statement does not hold for every key path:
    on the default document, [set("mqtt.host.name", 5)] meets the string
    "localhost" where it needs a map and raises, so that [get] of the same
    path still returns the default. *)
Lemma set_through_a_leaf_raises :
  set _get_default_config "mqtt.host.name" (PInt 5) = None
  /\ get _get_default_config "mqtt.host.name" PNone <> PInt 5
  /\ ~ (forall (doc : pyval) (key : string) (v : pyval),
          exists doc', set doc key v = Some doc' /\ get doc' key PNone = v).
Proof.
  split; [reflexivity|]. split; [discriminate|].
  intros H. destruct (H _get_default_config "mqtt.host.name" (PInt 5)) as (doc' & Hset & _).
  vm_compute in Hset. discriminate Hset.
Qed.

End ConfigFacts.

(** ** Temporal smoothing of the behavior analyzer *)

Module BehaviorAnalyzerFacts.
Import Py PyFacts BehaviorAnalyzer.

Lemma class_scores_length (behavior : string) (history : list (dict Q)) :
  forall scores, class_scores behavior history = Some scores ->
  List.length scores = List.length history.
Proof.
  induction history as [|pred rest IH]; simpl; intros scores.
  - intros [= <-]. reflexivity.
  - destruct (dict_get behavior pred) as [s|]; simpl; [|discriminate].
    destruct (class_scores behavior rest) as [ss|]; simpl; [|discriminate].
    intros [= <-]. simpl. f_equal. now apply IH.
Qed.

Lemma class_scores_defined (behavior : string) (history : list (dict Q)) :
  Forall (fun pred => In behavior (dict_keys pred)) history ->
  exists scores, class_scores behavior history = Some scores.
Proof.
  induction 1 as [|pred rest Hpred _ [ss IH]]; simpl; [eauto|].
  destruct (dict_get_is_Some behavior pred Hpred) as [s ->]. simpl.
  rewrite IH. simpl. eauto.
Qed.

Lemma deque_append_full {A} (x : A) (dq : list A) :
  (4 <= List.length dq)%nat -> (5 <= List.length (deque_append 5 x dq))%nat.
Proof.
  intros H. unfold deque_append.
  destruct (Nat.leb_spec 5 (List.length dq)); rewrite length_app; simpl.
  - destruct dq; simpl in *; lia.
  - lia.
Qed.

(** With five predictions in the history there are five scores per class
    and four weights: the weighted average raises for the first class. *)
Lemma smooth_loop_shape_mismatch (history : list (dict Q)) (weights : list Q)
    (behavior : string) (rest : list string) (acc : dict Q) :
  (List.length weights < List.length history)%nat ->
  smooth_loop history weights (behavior :: rest) acc = None.
Proof.
  intros Hlen. cbn [smooth_loop].
  destruct (class_scores behavior history) as [scores|] eqn:Hs; [|reflexivity].
  apply class_scores_length in Hs. cbn [mbind option_bind].
  unfold Np.average.
  rewrite firstn_all2 by lia.
  destruct (Nat.eqb_spec (List.length scores) (List.length weights)); [lia|].
  reflexivity.
Qed.

(** C3, on the code.  Once the history holds four predictions, the call
    that brings it to five (and every call after it: the deque stays at
    five) makes [_apply_temporal_smoothing] raise: the four weights do not
    match the five scores of a class.  [analyze_sequence] then returns the
    all-normal fallback instead of smoothed scores. *)
Theorem smoothing_raises_on_full_history (history : list (dict Q)) (current : dict Q) :
  (4 <= List.length history)%nat ->
  fst (_apply_temporal_smoothing history current) = None
  /\ fst (analyze_sequence history current) = normal_fallback
  /\ (4 <= List.length (snd (analyze_sequence history current)))%nat.
Proof.
  intros Hlen.
  assert (Hfull := deque_append_full current history Hlen).
  assert (Hraise : fst (_apply_temporal_smoothing history current) = None).
  { unfold _apply_temporal_smoothing. cbn [fst]. unfold behavior_classes.
    apply smooth_loop_shape_mismatch.
    rewrite length_map, length_firstn. unfold base_weights. simpl List.length. lia. }
  split; [exact Hraise|].
  unfold analyze_sequence.
  destruct (_apply_temporal_smoothing history current) as [[sm|] h] eqn:Hs;
    simpl in Hraise; [discriminate|].
  unfold _apply_temporal_smoothing in Hs. injection Hs as _ <-.
  split; [reflexivity|]. simpl. lia.
Qed.

Lemma smoothing_raises_on_full_history_witness :
  fst (_apply_temporal_smoothing (repeat sample_prediction 4) sample_prediction) = None
  /\ fst (analyze_sequence (repeat sample_prediction 4) sample_prediction) = normal_fallback
  /\ (4 <= List.length (snd (analyze_sequence (repeat sample_prediction 4) sample_prediction)))%nat.
Proof.
  apply (smoothing_raises_on_full_history (repeat sample_prediction 4) sample_prediction).
  simpl. lia.
Defined.

(** From the fifth call on, every call returns the fallback. *)
Lemma fifth_call_returns_fallback :
  skipn 4 (analyze_all (repeat sample_prediction 7) [])
  = [ normal_fallback; normal_fallback; normal_fallback ].
Proof. vm_compute. reflexivity. Qed.

Lemma smooth_loop_defined (history : list (dict Q)) (weights : list Q) :
  List.length weights = List.length history ->
  Qeq_bool (Qsum weights) 0 = false ->
  forall (classes : list string) (acc : dict Q),
  Forall (fun c => Forall (fun pred => In c (dict_keys pred)) history) classes ->
  exists smoothed, smooth_loop history weights classes acc = Some smoothed.
Proof.
  intros Hlen Hsum classes. induction classes as [|c rest IH]; intros acc Hall.
  - simpl. eauto.
  - inversion Hall as [|? ? Hc Hrest]; subst.
    destruct (class_scores_defined c history Hc) as [scores Hs].
    cbn [smooth_loop]. rewrite Hs. cbn [mbind option_bind].
    apply class_scores_length in Hs.
    unfold Np.average. rewrite firstn_all2 by lia.
    rewrite Hs, Hlen, Nat.eqb_refl. simpl negb. cbv iota.
    rewrite Hsum. cbn [mbind option_bind].
    apply IH. exact Hrest.
Qed.

(** For a history of one to four predictions over the eight classes the
    smoothing is defined. *)
Lemma smoothing_defined_below_five (history : list (dict Q)) (current : dict Q) :
  (List.length history < 4)%nat ->
  Forall (fun pred => forall c, In c behavior_classes -> In c (dict_keys pred))
    (history ++ [current]) ->
  exists smoothed, fst (_apply_temporal_smoothing history current) = Some smoothed.
Proof.
  intros Hlen Hall. unfold _apply_temporal_smoothing. cbn [fst].
  assert (Hh : deque_append 5 current history = history ++ [current]).
  { unfold deque_append. destruct (Nat.leb_spec 5 (List.length history)); [lia|reflexivity]. }
  rewrite Hh.
  apply smooth_loop_defined.
  - rewrite length_map, length_firstn. unfold base_weights. simpl List.length.
    rewrite length_app. simpl. lia.
  - destruct history as [|a [|b [|c [|d rest]]]]; try reflexivity.
    simpl in Hlen. lia.
  - apply List.Forall_forall. intros c Hc.
    apply List.Forall_forall. intros pred Hpred.
    rewrite List.Forall_forall in Hall. apply Hall; assumption.
Qed.

(** The weights in use for one to four predictions, oldest first: the
    most recent prediction has the largest one. *)
Lemma smoothing_weights_ascending :
  List.map (fun n => List.map (fun w : Q => Qred (w / Qsum (firstn n base_weights)))
                       (firstn n base_weights)) [1; 2; 3; 4]%nat
  = [ [ 1 ]; [ 1 # 3; 2 # 3 ]; [ 1 # 6; 1 # 3; 1 # 2 ];
      [ 1 # 10; 1 # 5; 3 # 10; 2 # 5 ] ]%Q.
Proof. vm_compute. reflexivity. Qed.

End BehaviorAnalyzerFacts.

(** ** Normalisation in the emergency detector *)

Module EmergencyDetectorFacts.
Import Py PyFacts EmergencyDetector.

Lemma fold_plus_Qsum (l : list Q) (a : Q) : (fold_left Qplus l a == a + Qsum l)%Q.
Proof.
  revert a. induction l as [|x l IH]; intros a; simpl.
  - ring.
  - rewrite IH. ring.
Qed.

Lemma py_sum_Qsum (l : list Q) : (Np.py_sum l == Qsum l)%Q.
Proof. unfold Np.py_sum. rewrite fold_plus_Qsum. ring. Qed.

Lemma Qsum_nonneg (l : list Q) : Forall (fun x => 0 <= x)%Q l -> (0 <= Qsum l)%Q.
Proof.
  induction 1 as [|x l Hx _ IH]; simpl; [apply Qle_refl|].
  apply Qle_trans with (0 + 0)%Q; [apply Qle_refl|]. now apply Qplus_le_compat.
Qed.

Lemma Qmin_pos (a b : Q) : (0 < a)%Q -> (0 < b)%Q -> (0 < Qmin a b)%Q.
Proof. intros Ha Hb. now apply Q.min_glb_lt. Qed.

Lemma Qmin_nonneg (a b : Q) : (0 <= a)%Q -> (0 <= b)%Q -> (0 <= Qmin a b)%Q.
Proof. intros Ha Hb. now apply Q.min_glb. Qed.

Lemma Qsquare_nonneg (z : Q) : (0 <= z * z)%Q.
Proof. nra. Qed.

Lemma var_nonneg (xs : list Q) : (0 <= Np.var xs)%Q.
Proof.
  unfold Np.var. cbv zeta. unfold Qdiv at 1.
  apply Qmult_le_0_compat.
  - apply Qsum_nonneg. apply List.Forall_forall. intros y Hy.
    apply in_map_iff in Hy. destruct Hy as (x & <- & _). apply Qsquare_nonneg.
  - apply Qinv_le_0_compat. change 0%Q with (inject_Z 0).
    rewrite <- Zle_Qle. lia.
Qed.

Lemma variance_loop_nonneg (recent : list (dict Q)) (classes : list string) :
  forall acc v, (0 <= acc)%Q -> variance_loop recent classes acc = Some v -> (0 <= v)%Q.
Proof.
  induction classes as [|c rest IH]; intros acc v Hacc; simpl.
  - now intros [= <-].
  - destruct (String.eqb c "normal"); [now apply IH|].
    destruct (entry_scores c recent) as [scores|]; simpl; [|discriminate].
    apply IH. destruct (1 <? List.length scores)%nat; [|exact Hacc].
    apply Qle_trans with (0 + 0)%Q; [apply Qle_refl|].
    apply Qplus_le_compat; [exact Hacc | apply var_nonneg].
Qed.

Lemma motion_score_nonneg (d : detector) : (0 <= _analyze_motion_patterns d)%Q.
Proof.
  unfold _analyze_motion_patterns.
  destruct (List.length (detection_history d) <? 2)%nat; [apply Qle_refl|].
  destruct (variance_loop _ emergency_classes 0) as [v|] eqn:Hv; [|apply Qle_refl].
  apply variance_loop_nonneg in Hv; [|apply Qle_refl].
  apply Qmin_nonneg; [discriminate | nra].
Qed.

Lemma ratio_nonneg (n : N) (total : positive) :
  (0 <= inject_Z (Z.of_N n) / inject_Z (Z.pos total))%Q.
Proof.
  unfold Qdiv. apply Qmult_le_0_compat.
  - change 0%Q with (inject_Z 0). rewrite <- Zle_Qle. lia.
  - apply Qinv_le_0_compat. change 0%Q with (inject_Z 0). rewrite <- Zle_Qle. lia.
Qed.

Lemma fire_score_nonneg (f : frame) : (0 <= _analyze_fire_colors f)%Q.
Proof.
  unfold _analyze_fire_colors. destruct (fire_pixels f) as [n|]; [|apply Qle_refl].
  apply Qmin_nonneg; [discriminate|].
  pose proof (ratio_nonneg n (total_pixels f)). nra.
Qed.

Lemma smoke_score_nonneg (f : frame) : (0 <= _analyze_smoke_colors f)%Q.
Proof.
  unfold _analyze_smoke_colors. destruct (smoke_pixels f) as [n|]; [|apply Qle_refl].
  apply Qmin_nonneg; [discriminate|].
  pose proof (ratio_nonneg n (total_pixels f)). nra.
Qed.

(** Raising the score of a class by a non-negative amount, capped at 1,
    keeps the scores non-negative and keeps a positive score positive. *)
Lemma boost_keeps_scores (k : string) (amount : Q) (m m' : dict Q) :
  (0 <= amount)%Q -> boost k amount m = Some m' ->
  dict_keys m' = dict_keys m
  /\ (all_nonneg m -> all_nonneg m')
  /\ (all_nonneg m -> some_positive m -> some_positive m').
Proof.
  intros Ha. unfold boost.
  destruct (dict_get k m) as [s|] eqn:Hs; simpl; [|discriminate].
  intros [= <-]. revert Hs.
  induction m as [|[k0 v0] m IH]; simpl; [discriminate|].
  destruct (String.eqb k k0) eqn:E.
  - intros [= ->]. simpl. split; [reflexivity|]. split.
    + intros Hn. inversion Hn as [|? ? Hv Hrest]; subst. simpl in Hv.
      constructor; [|exact Hrest]. simpl. apply Qmin_nonneg; [discriminate | nra].
    + intros Hn Hp. inversion Hn as [|? ? Hv Hrest]; subst. simpl in Hv.
      inversion Hp as [? ? Hpos|? ? Hpos]; subst.
      * simpl in Hpos. apply Exists_cons_hd. simpl.
        apply Qmin_pos; [reflexivity | nra].
      * now apply Exists_cons_tl.
  - intros Hs. destruct (IH Hs) as (Hk & Hnn & Hpp). simpl.
    split; [now rewrite Hk|]. split.
    + intros Hn. inversion Hn; subst. constructor; [assumption | now apply Hnn].
    + intros Hn Hp. inversion Hn; subst.
      inversion Hp as [? ? Hpos|? ? Hpos]; subst.
      * now apply Exists_cons_hd.
      * apply Exists_cons_tl. now apply Hpp.
Qed.

Lemma boost_defined (k : string) (amount : Q) (m : dict Q) :
  In k (dict_keys m) -> exists m', boost k amount m = Some m'.
Proof.
  intros Hk. unfold boost. destruct (dict_get_is_Some k m Hk) as [s ->].
  simpl. eauto.
Qed.

Lemma scores_sum_positive (m : dict Q) :
  all_nonneg m -> some_positive m -> (0 < Qsum (dict_values m))%Q.
Proof.
  intros Hn Hp. induction Hp as [[k v] m Hpos|[k v] m Hp IH]; simpl in *.
  - inversion Hn as [|? ? _ Hrest]; subst.
    assert (0 <= Qsum (dict_values m))%Q.
    { apply Qsum_nonneg. unfold dict_values. apply List.Forall_forall.
      intros y Hy. apply in_map_iff in Hy. destruct Hy as (kv & <- & Hin).
      rewrite List.Forall_forall in Hrest. now apply Hrest. }
    nra.
  - inversion Hn as [|? ? Hv Hrest]; subst. simpl in Hv.
    specialize (IH Hrest). nra.
Qed.

Lemma Qsum_scaled (t : Q) (l : list Q) :
  (Qsum (List.map (fun v : Q => v / t) l) == Qsum l / t)%Q.
Proof.
  induction l as [|x l IH]; simpl.
  - unfold Qdiv. ring.
  - rewrite IH. unfold Qdiv. ring.
Qed.

(** Scores that are non-negative, one of them positive, are turned into
    scores that sum to 1. *)
Lemma normalize_sums_to_one (m : dict Q) :
  all_nonneg m -> some_positive m ->
  (Np.py_sum (dict_values (normalize m)) == 1)%Q.
Proof.
  intros Hn Hp. pose proof (scores_sum_positive m Hn Hp) as Hpos.
  unfold normalize.
  assert (Htotal : (0 < Np.py_sum (dict_values m))%Q) by now rewrite py_sum_Qsum.
  apply Qltb_lt in Htotal. rewrite Htotal.
  rewrite py_sum_Qsum. unfold dict_values. rewrite List.map_map. simpl.
  rewrite <- (List.map_map snd (fun v : Q => v / Np.py_sum (List.map snd m))%Q).
  rewrite Qsum_scaled. fold (dict_values m). rewrite py_sum_Qsum.
  unfold Qdiv. apply Qmult_inv_r. intros H0. rewrite H0 in Hpos.
  now apply Qlt_irrefl in Hpos.
Qed.

(** C6.  For every class-score map over the eight emergency classes
    whose scores are non-negative (as are the scores [detect_emergencies]
    calls the function with: the output of the network's softmax, or the
    scores of the mock, clipped at 0), one of them positive, the map
    returned by [_enhance_detection] sums to 1, whatever the frame and
    the detection history contribute through the fire-color, smoke-color
    and motion heuristics, and whether or not either heuristic is
    switched on. *)
Theorem enhance_detection_sums_to_one (d : detector) (f : frame) (base_scores : dict Q) :
  (forall c, In c emergency_classes -> In c (dict_keys base_scores)) ->
  all_nonneg base_scores ->
  some_positive base_scores ->
  (Np.py_sum (dict_values (_enhance_detection d f base_scores)) == 1)%Q.
Proof.
  intros Hkeys Hn Hp.
  assert (Hfire : In "fire" (dict_keys base_scores)) by (apply Hkeys; simpl; tauto).
  assert (Hsmoke : In "smoke" (dict_keys base_scores)) by (apply Hkeys; simpl; tauto).
  assert (Hacc : In "accident" (dict_keys base_scores)) by (apply Hkeys; simpl; tauto).
  assert (Hcolored : exists m, all_nonneg m /\ some_positive m
            /\ dict_keys m = dict_keys base_scores
            /\ (if use_color_analysis d then
                  match boost "fire" (_analyze_fire_colors f * (3 # 10)) base_scores with
                  | None => inl base_scores
                  | Some with_fire =>
                      match boost "smoke" (_analyze_smoke_colors f * (3 # 10)) with_fire with
                      | None => inl with_fire
                      | Some with_smoke => inr with_smoke
                      end
                  end
                else inr base_scores) = (inr m : dict Q + dict Q)).
  { destruct (use_color_analysis d); [|exists base_scores; auto].
    pose proof (fire_score_nonneg f) as Hf. pose proof (smoke_score_nonneg f) as Hs.
    assert (Hfa : (0 <= _analyze_fire_colors f * (3 # 10))%Q) by nra.
    assert (Hsa : (0 <= _analyze_smoke_colors f * (3 # 10))%Q) by nra.
    destruct (boost_defined "fire" (_analyze_fire_colors f * (3 # 10)) _ Hfire) as [m1 H1].
    destruct (boost_keeps_scores _ _ _ _ Hfa H1) as (K1 & N1 & P1).
    rewrite H1. rewrite <- K1 in Hsmoke.
    destruct (boost_defined "smoke" (_analyze_smoke_colors f * (3 # 10)) _ Hsmoke) as [m2 H2].
    destruct (boost_keeps_scores _ _ _ _ Hsa H2) as (K2 & N2 & P2).
    rewrite H2. exists m2. repeat split; auto. now rewrite K2. }
  destruct Hcolored as (m & Hmn & Hmp & Hmk & Hm).
  unfold _enhance_detection. rewrite Hm.
  destruct (use_motion_analysis d && (0 <? List.length (detection_history d))%nat);
    [|now apply normalize_sums_to_one].
  rewrite <- Hmk in Hacc.
  pose proof (motion_score_nonneg d) as Hmo.
  assert (Hma : (0 <= _analyze_motion_patterns d * (2 # 10))%Q) by nra.
  destruct (boost_defined "accident" (_analyze_motion_patterns d * (2 # 10)) _ Hacc)
    as [m3 H3].
  destruct (boost_keeps_scores _ _ _ _ Hma H3) as (K3 & N3 & P3).
  rewrite H3. apply normalize_sums_to_one; auto.
Qed.

Lemma enhance_detection_sums_to_one_witness :
  (Np.py_sum (dict_values (_enhance_detection fresh_detector dark_frame uniform_scores)) == 1)%Q.
Proof.
  apply (enhance_detection_sums_to_one fresh_detector dark_frame uniform_scores).
  - intros c Hc. exact Hc.
  - unfold all_nonneg, uniform_scores. simpl. repeat constructor; discriminate.
  - unfold some_positive, uniform_scores. simpl. apply Exists_cons_hd. reflexivity.
Defined.

End EmergencyDetectorFacts.

(** ** Further facts about rounding *)

Module RoundFacts.
Import Py PyFacts.

Lemma round_half_even_mono (a b : Q) :
  (a <= b)%Q -> (round_half_even a <= round_half_even b)%Z.
Proof.
  intros Hab. unfold round_half_even.
  pose proof (Qfloor_resp_le a b Hab) as Hf.
  pose proof (Qfloor_le a) as Ha1. pose proof (Qlt_floor a) as Ha2.
  pose proof (Qfloor_le b) as Hb1. pose proof (Qlt_floor b) as Hb2.
  set (fa := Qfloor a) in *. set (fb := Qfloor b) in *.
  assert (Hcase : (fa + 1 <= fb)%Z \/ fa = fb) by lia.
  destruct Hcase as [Hlt|Heq].
  - destruct (Qltb (a - inject_Z fa) (1 # 2)), (Qltb (1 # 2) (a - inject_Z fa)),
      (Qltb (b - inject_Z fb) (1 # 2)), (Qltb (1 # 2) (b - inject_Z fb)),
      (Z.even fa), (Z.even fb); lia.
  - rewrite <- Heq in *. clear Heq.
    destruct (Qltb (a - inject_Z fa) (1 # 2)) eqn:A1.
    + destruct (Qltb (b - inject_Z fa) (1 # 2)), (Qltb (1 # 2) (b - inject_Z fa)),
        (Z.even fa); lia.
    + apply Qltb_ge in A1.
      assert (B1 : Qltb (b - inject_Z fa) (1 # 2) = false) by (apply Qltb_ge; lra).
      rewrite B1.
      destruct (Qltb (1 # 2) (a - inject_Z fa)) eqn:A2.
      * apply Qltb_lt in A2.
        assert (B2 : Qltb (1 # 2) (b - inject_Z fa) = true) by (apply Qltb_lt; lra).
        rewrite B2. lia.
      * destruct (Qltb (1 # 2) (b - inject_Z fa)), (Z.even fa); lia.
Qed.

Lemma round_half_even_Z (n : Z) : round_half_even (inject_Z n) = n.
Proof.
  unfold round_half_even. rewrite Qfloor_Z.
  assert (H : Qltb (inject_Z n - inject_Z n) (1 # 2) = true)
    by (apply Qltb_lt; lra).
  now rewrite H.
Qed.

Lemma scale_pos (ndigits : nat) : (0 < inject_Z (10 ^ Z.of_nat ndigits))%Q.
Proof.
  change 0%Q with (inject_Z 0). rewrite <- Zlt_Qlt.
  apply Z.pow_pos_nonneg; lia.
Qed.

Lemma py_round_mono (a b : Q) (ndigits : nat) :
  (a <= b)%Q -> (py_round a ndigits <= py_round b ndigits)%Q.
Proof.
  intros Hab. unfold py_round.
  pose proof (scale_pos ndigits) as Hs.
  set (scale := inject_Z (10 ^ Z.of_nat ndigits)) in *.
  assert (Hm : (a * scale <= b * scale)%Q) by nra.
  apply round_half_even_mono in Hm. rewrite Zle_Qle in Hm.
  apply Qle_shift_div_l; [exact Hs|].
  assert (He : (inject_Z (round_half_even (a * scale)) / scale * scale
                == inject_Z (round_half_even (a * scale)))%Q) by (field; lra).
  rewrite He. exact Hm.
Qed.

(** A number with at most [ndigits] decimals is its own rounding. *)
Lemma py_round_exact (z : Z) (ndigits : nat) :
  (py_round (inject_Z z / inject_Z (10 ^ Z.of_nat ndigits)) ndigits
   == inject_Z z / inject_Z (10 ^ Z.of_nat ndigits))%Q.
Proof.
  unfold py_round. pose proof (scale_pos ndigits) as Hs.
  set (scale := inject_Z (10 ^ Z.of_nat ndigits)) in *.
  assert (He : (inject_Z z / scale * scale == inject_Z z)%Q) by (field; lra).
  rewrite (DeviceMonitorFacts.round_half_even_comp _ _ He), round_half_even_Z.
  reflexivity.
Qed.

Lemma py_round_between (lo hi : Z) (x : Q) (ndigits : nat) :
  (inject_Z lo <= x <= inject_Z hi)%Q ->
  (inject_Z lo <= py_round x ndigits <= inject_Z hi)%Q.
Proof.
  intros [Hlo Hhi].
  assert (Hint : forall z : Z, (py_round (inject_Z z) ndigits == inject_Z z)%Q).
  { intros z. pose proof (scale_pos ndigits) as Hs.
    pose proof (py_round_exact (z * 10 ^ Z.of_nat ndigits) ndigits) as He.
    assert (Hz : (inject_Z (z * 10 ^ Z.of_nat ndigits)
                  / inject_Z (10 ^ Z.of_nat ndigits) == inject_Z z)%Q).
    { rewrite inject_Z_mult. field. lra. }
    rewrite (DeviceMonitorFacts.py_round_comp _ _ Hz ndigits ndigits eq_refl) in He.
    now rewrite He, Hz. }
  split.
  - rewrite <- (Hint lo). now apply py_round_mono.
  - rewrite <- (Hint hi). now apply py_round_mono.
Qed.

End RoundFacts.

(** ** Facts about flushing the offline queue *)

Module MQTTQueueFacts.
Import Py PyFacts MQTTClient MQTTQueue.

Lemma publish_not_connected a result now c topic payload qos retain :
  connected c = false ->
  publish a result now c topic payload qos retain = (c, []).
Proof. intros Hc. unfold publish. now rewrite Hc. Qed.

Lemma process_messages_not_connected a turns c :
  connected c = false ->
  forall ms i,
    fst (process_messages a turns i ms c) = c
    /\ sent_requests (snd (process_messages a turns i ms c)) = [].
Proof.
  intros Hc ms. induction ms as [|m rest IH]; intros i; [split; reflexivity|].
  cbn [process_messages]. cbv zeta.
  destruct (fresh (turns i) m).
  - rewrite publish_not_connected by exact Hc.
    destruct (IH (S i)) as [H1 H2].
    destruct (process_messages a turns (S i) rest c) as [c2 effs2]. simpl in *.
    split; assumption.
  - destruct (IH (S i)) as [H1 H2].
    destruct (process_messages a turns (S i) rest c) as [c2 effs2]. simpl in *.
    split; assumption.
Qed.

Lemma sent_events_wrap (a b : string) (effs : list effect) :
  sent_events (Info a :: map Of effs ++ [Info b]) = sent_requests effs.
Proof.
  unfold sent_events. cbn [flat_map app]. f_equal.
  induction effs as [|e effs IH]; [reflexivity|].
  cbn [map app flat_map]. now rewrite IH.
Qed.

(** What a flush of a queue that is not empty leaves and sends, read off
    the loop. *)
Lemma flush_unfold a turns c m rest :
  message_queue c = m :: rest ->
  message_queue (fst (_process_message_queue a turns c))
  = message_queue (fst (process_messages a turns 0 (m :: rest) (with_queue c [])))
  /\ sent_events (snd (_process_message_queue a turns c))
     = sent_requests (snd (process_messages a turns 0 (m :: rest) (with_queue c []))).
Proof.
  intros Hq. unfold _process_message_queue. rewrite Hq.
  destruct (process_messages a turns 0 (m :: rest) (with_queue c [])) as [c' effs].
  cbn [fst snd]. now rewrite sent_events_wrap.
Qed.

(** X1.  A flush that runs while the connection is down destroys the
    queue: the queue is cleared before the loop and every [publish] of
    the loop returns without sending or queueing, so afterwards the queue
    is empty and no request has reached the transport. *)
Theorem flush_while_disconnected_loses_queue (mqtt_available : bool)
    (turns : nat -> turn) (c : client) :
  connected c = false ->
  message_queue (fst (_process_message_queue mqtt_available turns c)) = []
  /\ sent_events (snd (_process_message_queue mqtt_available turns c)) = [].
Proof.
  intros Hc.
  destruct (message_queue c) as [|m rest] eqn:Hq.
  - unfold _process_message_queue. rewrite Hq. split; [exact Hq|reflexivity].
  - destruct (flush_unfold mqtt_available turns c m rest Hq) as [-> ->].
    destruct (process_messages_not_connected mqtt_available turns (with_queue c [])
                Hc (m :: rest) 0%nat) as [-> ->].
    split; reflexivity.
Qed.

Lemma flush_while_disconnected_loses_queue_witness :
  message_queue (fst (_process_message_queue true working_turn stale_queue_client)) = []
  /\ sent_events (snd (_process_message_queue true working_turn stale_queue_client)) = [].
Proof.
  apply (flush_while_disconnected_loses_queue true working_turn stale_queue_client).
  reflexivity.
Defined.

Lemma sent_requests_app (xs ys : list effect) :
  sent_requests (xs ++ ys) = sent_requests xs ++ sent_requests ys.
Proof. unfold sent_requests. apply List.filter_app. Qed.

Lemma publish_accepted now c topic payload qos retain :
  connected c = true -> has_client c = true ->
  publish true (Rc MQTT_ERR_SUCCESS) now c topic payload (Some qos) retain
  = (c, [Sent topic payload qos retain]).
Proof. intros Hc Hh. unfold publish. now rewrite Hc, Hh. Qed.

Lemma process_messages_accepted (turns : nat -> turn) (c : client) :
  connected c = true -> has_client c = true ->
  (forall i, answer (turns i) = Rc MQTT_ERR_SUCCESS) ->
  forall ms i,
    fst (process_messages true turns i ms c) = c
    /\ sent_requests (snd (process_messages true turns i ms c))
       = map sent_of (kept turns i ms).
Proof.
  intros Hc Hh Hok ms. induction ms as [|m rest IH]; intros i; [split; reflexivity|].
  cbn [process_messages kept]. cbv zeta.
  destruct (IH (S i)) as [H1 H2].
  destruct (fresh (turns i) m).
  - rewrite Hok, publish_accepted by assumption.
    destruct (process_messages true turns (S i) rest c) as [c2 effs2].
    cbn [fst snd] in *. split; [assumption|].
    rewrite sent_requests_app, H2. reflexivity.
  - destruct (process_messages true turns (S i) rest c) as [c2 effs2].
    cbn [fst snd] in *. split; [assumption|].
    rewrite sent_requests_app, H2. reflexivity.
Qed.

(** X2.  A flush over a working connection hands to the transport exactly
    the queued messages that are younger than 300 seconds at their turn,
    oldest first and with the quality of service and retain flag they
    were queued with; messages of 300 seconds or more are discarded, and
    the queue is empty afterwards. *)
Theorem flush_sends_fresh_in_order (turns : nat -> turn) (c : client) :
  connected c = true -> has_client c = true ->
  (forall i, answer (turns i) = Rc MQTT_ERR_SUCCESS) ->
  sent_events (snd (_process_message_queue true turns c))
  = map sent_of (kept turns 0 (message_queue c))
  /\ message_queue (fst (_process_message_queue true turns c)) = [].
Proof.
  intros Hc Hh Hok.
  destruct (message_queue c) as [|m rest] eqn:Hq.
  - unfold _process_message_queue. rewrite Hq. split; [reflexivity|exact Hq].
  - destruct (flush_unfold true turns c m rest Hq) as [-> ->].
    destruct (process_messages_accepted turns (with_queue c []) Hc Hh Hok
                (m :: rest) 0%nat) as [-> ->].
    split; reflexivity.
Qed.

Lemma flush_sends_fresh_in_order_witness :
  sent_events (snd (_process_message_queue true working_turn (online stale_queue_client)))
  = [Sent "dhsiled/grids/G01/alerts" "{}" 1 false]
  /\ message_queue (fst (_process_message_queue true working_turn
                           (online stale_queue_client))) = [].
Proof.
  apply (flush_sends_fresh_in_order working_turn (online stale_queue_client));
    [reflexivity | reflexivity | intros i; reflexivity].
Defined.

Lemma publish_bounded a result now c topic payload qos retain :
  (List.length (message_queue c) <= max_queue_size)%nat ->
  (List.length (message_queue (fst (publish a result now c topic payload qos retain)))
   <= max_queue_size)%nat.
Proof.
  intros Hlen. unfold publish.
  set (q := match qos with Some q => q | None => default_qos c end).
  pose proof (MQTTClientFacts.queue_message_bounded now c topic payload q retain Hlen) as Hq.
  destruct (connected c && has_client c); [|exact Hlen].
  destruct result as [rc|].
  - destruct a.
    + destruct (negb (rc =? MQTT_ERR_SUCCESS)%Z); [|exact Hlen].
      destruct (_queue_message now c topic payload q retain). exact Hq.
    + destruct (_queue_message now c topic payload q retain). exact Hq.
  - destruct (_queue_message now c topic payload q retain). exact Hq.
Qed.

Lemma process_messages_bounded a turns ms :
  forall i c,
    (List.length (message_queue c) <= max_queue_size)%nat ->
    (List.length (message_queue (fst (process_messages a turns i ms c)))
     <= max_queue_size)%nat.
Proof.
  induction ms as [|m rest IH]; intros i c Hlen; [exact Hlen|].
  cbn [process_messages]. cbv zeta.
  destruct (fresh (turns i) m).
  - pose proof (publish_bounded a (answer (turns i)) (queue_clock (turns i)) c
                  (topic m) (payload m) (Some (qos m)) (retain m) Hlen) as Hp.
    destruct (publish a (answer (turns i)) (queue_clock (turns i)) c
                (topic m) (payload m) (Some (qos m)) (retain m)) as [c1 effs1].
    specialize (IH (S i) c1 Hp).
    destruct (process_messages a turns (S i) rest c1). exact IH.
  - specialize (IH (S i) c Hlen).
    destruct (process_messages a turns (S i) rest c). exact IH.
Qed.

(** X3.  The bound of the queue is an invariant of the client: a queue of
    at most 1000 messages has at most 1000 after any [publish], whatever
    the connection state and the transport's answer, and after any
    flush. *)
Theorem queue_bound_is_invariant (mqtt_available : bool) (c : client) :
  (List.length (message_queue c) <= max_queue_size)%nat ->
  (forall result now topic payload qos retain,
      (List.length (message_queue
         (fst (publish mqtt_available result now c topic payload qos retain)))
       <= max_queue_size)%nat)
  /\ (forall turns,
      (List.length (message_queue (fst (_process_message_queue mqtt_available turns c)))
       <= max_queue_size)%nat).
Proof.
  intros Hlen. split.
  - intros. now apply publish_bounded.
  - intros turns. unfold _process_message_queue.
    destruct (message_queue c) as [|m rest] eqn:Hq;
      [cbn [fst]; rewrite Hq; simpl; lia|].
    pose proof (process_messages_bounded mqtt_available turns (m :: rest) 0%nat
                  (with_queue c []) ltac:(simpl; lia)) as Hb.
    destruct (process_messages mqtt_available turns 0 (m :: rest) (with_queue c [])).
    exact Hb.
Qed.

Lemma queue_bound_is_invariant_witness :
  (forall result now topic payload qos retain,
      (List.length (message_queue
         (fst (publish true result now (online stale_queue_client)
                 topic payload qos retain)))
       <= max_queue_size)%nat)
  /\ (forall turns,
      (List.length (message_queue
         (fst (_process_message_queue true turns (online stale_queue_client))))
       <= max_queue_size)%nat).
Proof.
  apply (queue_bound_is_invariant true (online stale_queue_client)).
  vm_compute. lia.
Defined.

(** With room in the queue nothing is evicted. *)
Lemma queue_message_room now c topic payload qos retain :
  (List.length (message_queue c) < max_queue_size)%nat ->
  fst (_queue_message now c topic payload qos retain)
  = with_queue c (message_queue c
                  ++ [ {| MQTTClient.topic := topic; MQTTClient.payload := payload;
                          MQTTClient.qos := qos; MQTTClient.retain := retain;
                          timestamp := now |} ]).
Proof.
  intros Hlen. unfold _queue_message.
  destruct (Nat.leb_spec max_queue_size (List.length (message_queue c))); [lia|].
  reflexivity.
Qed.

Lemma publish_connected_queue a result now c m :
  connected c = true -> has_client c = true ->
  (List.length (message_queue c) < max_queue_size)%nat ->
  fst (publish a result now c (topic m) (payload m) (Some (qos m)) (retain m))
  = with_queue c (message_queue c
                  ++ (if accepted a result then [] else [stamped now m])).
Proof.
  intros Hc Hh Hlen. unfold publish. rewrite Hc, Hh. cbn [andb].
  pose proof (queue_message_room now c (topic m) (payload m) (qos m) (retain m) Hlen)
    as Hq.
  assert (Hid : c = with_queue c (message_queue c ++ [])).
  { rewrite app_nil_r. destruct c; reflexivity. }
  destruct result as [rc|]; cbn [accepted].
  - destruct a; cbn [andb].
    + destruct (rc =? MQTT_ERR_SUCCESS)%Z; cbn [negb].
      * exact Hid.
      * destruct (_queue_message now c (topic m) (payload m) (qos m) (retain m)).
        exact Hq.
    + destruct (_queue_message now c (topic m) (payload m) (qos m) (retain m)).
      exact Hq.
  - destruct (_queue_message now c (topic m) (payload m) (qos m) (retain m)).
    exact Hq.
Qed.

Lemma publish_connected_sent a rc now c m :
  connected c = true -> has_client c = true ->
  sent_requests
    (snd (publish a (Rc rc) now c (topic m) (payload m) (Some (qos m)) (retain m)))
  = [sent_of m].
Proof.
  intros Hc Hh. unfold publish. rewrite Hc, Hh. cbn [andb].
  destruct a.
  - destruct (negb (rc =? MQTT_ERR_SUCCESS)%Z).
    + unfold _queue_message.
      destruct (max_queue_size <=? List.length (message_queue c))%nat;
        [destruct (message_queue c)|]; reflexivity.
    + reflexivity.
  - unfold _queue_message.
    destruct (max_queue_size <=? List.length (message_queue c))%nat;
      [destruct (message_queue c)|]; reflexivity.
Qed.

Lemma requeued_length a turns ms : forall i,
  (List.length (requeued a turns i ms) <= List.length ms)%nat.
Proof.
  induction ms as [|m rest IH]; intros i; [simpl; lia|].
  cbn [requeued]. specialize (IH (S i)).
  destruct (fresh (turns i) m && negb (accepted a (answer (turns i)))); simpl; lia.
Qed.


Lemma publish_keeps_connection a result now c topic payload qos retain :
  connected c = true -> has_client c = true ->
  connected (fst (publish a result now c topic payload qos retain)) = true
  /\ has_client (fst (publish a result now c topic payload qos retain)) = true.
Proof.
  intros Hc Hh. unfold publish, _queue_message. rewrite Hc, Hh. cbn [andb].
  destruct result as [rc0|]; [destruct a;
    [destruct (negb (rc0 =? MQTT_ERR_SUCCESS)%Z)|]|];
  try (destruct (max_queue_size <=? List.length (message_queue c))%nat;
       [destruct (message_queue c)|]);
  destruct qos; cbn; auto.
Qed.

(** With no other task at work in the sleeps the loop is the loop run in
    one piece. *)
Lemma process_messages_among_alone a turns ms :
  forall i c,
    process_messages_among a turns (fun _ c' => c') i ms c
    = process_messages a turns i ms c.
Proof.
  induction ms as [|m rest IH]; intros i c; [reflexivity|].
  cbn [process_messages_among process_messages]. cbv zeta.
  destruct (fresh (turns i) m).
  - destruct (publish a (answer (turns i)) (queue_clock (turns i)) c
                (topic m) (payload m) (Some (qos m)) (retain m)) as [c1 effs1].
    now rewrite IH.
  - now rewrite IH.
Qed.

Lemma flush_among_unfold a turns between c m rest :
  message_queue c = m :: rest ->
  message_queue (fst (_process_message_queue_among a turns between c))
  = message_queue
      (fst (process_messages_among a turns between 0 (m :: rest) (with_queue c [])))
  /\ sent_events (snd (_process_message_queue_among a turns between c))
     = sent_requests
         (snd (process_messages_among a turns between 0 (m :: rest) (with_queue c []))).
Proof.
  intros Hq. unfold _process_message_queue_among. rewrite Hq.
  destruct (process_messages_among a turns between 0 (m :: rest) (with_queue c []))
    as [c' effs].
  cbn [fst snd]. now rewrite sent_events_wrap.
Qed.

Lemma added_during_step added i n :
  added_during added i (S n) = added i ++ added_during added (S i) n.
Proof. reflexivity. Qed.

(** The queue a flush among queueing tasks builds: nothing is evicted
    while the messages in the queue, the messages still to process and
    the messages the other tasks add are at most 1000 together. *)
Lemma process_messages_among_queue a turns added ms :
  forall i c,
    connected c = true -> has_client c = true ->
    (List.length (message_queue c) + List.length ms
     + List.length (added_during added i (List.length ms)) <= max_queue_size)%nat ->
    fst (process_messages_among a turns (queued_by_others added) i ms c)
    = with_queue c (message_queue c ++ requeued_among a turns added i ms).
Proof.
  induction ms as [|m rest IH]; intros i c Hc Hh Hlen.
  - cbn [process_messages_among requeued_among fst]. rewrite app_nil_r.
    destruct c; reflexivity.
  - cbn [process_messages_among requeued_among]. cbv zeta.
    cbn [List.length] in Hlen. rewrite added_during_step, length_app in Hlen.
    destruct (fresh (turns i) m).
    + pose proof (publish_connected_queue a (answer (turns i)) (queue_clock (turns i))
                    c m Hc Hh ltac:(lia)) as Hp.
      destruct (publish a (answer (turns i)) (queue_clock (turns i)) c
                  (topic m) (payload m) (Some (qos m)) (retain m)) as [c1 effs1].
      cbn [fst] in Hp. subst c1.
      specialize (IH (S i)
                    (queued_by_others added i
                       (with_queue c (message_queue c
                          ++ (if accepted a (answer (turns i)) then []
                              else [stamped (queue_clock (turns i)) m]))))
                    Hc Hh).
      destruct (process_messages_among a turns (queued_by_others added) (S i) rest _)
        as [c2 effs2].
      cbn [fst] in *. rewrite IH.
      * unfold queued_by_others, with_queue. cbn. rewrite <- !app_assoc.
        reflexivity.
      * unfold queued_by_others. cbn [message_queue with_queue].
        rewrite !length_app.
        destruct (accepted a (answer (turns i))); simpl; lia.
    + specialize (IH (S i) c Hc Hh ltac:(lia)).
      destruct (process_messages_among a turns (queued_by_others added) (S i) rest c)
        as [c2 effs2].
      exact IH.
Qed.

Lemma process_messages_among_sent a turns added ms :
  forall i c j m rc,
    connected c = true -> has_client c = true ->
    nth_error ms j = Some m ->
    fresh (turns (i + j)%nat) m = true ->
    answer (turns (i + j)%nat) = Rc rc ->
    In (sent_of m)
       (sent_requests
          (snd (process_messages_among a turns (queued_by_others added) i ms c))).
Proof.
  induction ms as [|m0 rest IH]; intros i c j m rc Hc Hh Hnth Hfresh Hans;
    [destruct j; discriminate|].
  cbn [process_messages_among]. cbv zeta.
  destruct j as [|j]; cbn [nth_error] in Hnth.
  - injection Hnth as ->. rewrite Nat.add_0_r in Hfresh, Hans.
    rewrite Hfresh, Hans.
    pose proof (publish_connected_sent a rc (queue_clock (turns i)) c m Hc Hh) as Hs.
    destruct (publish a (Rc rc) (queue_clock (turns i)) c
                (topic m) (payload m) (Some (qos m)) (retain m)) as [c1 effs1].
    destruct (process_messages_among a turns (queued_by_others added) (S i) rest _)
      as [c2 effs2].
    cbn [snd] in *. rewrite sent_requests_app, Hs. now left.
  - replace (i + S j)%nat with (S i + j)%nat in Hfresh, Hans by lia.
    assert (Hstep : forall c1, connected c1 = true -> has_client c1 = true ->
              In (sent_of m)
                 (sent_requests
                    (snd (process_messages_among a turns (queued_by_others added)
                            (S i) rest c1))))
      by (intros c1 Hc1 Hh1; exact (IH (S i) c1 j m rc Hc1 Hh1 Hnth Hfresh Hans)).
    destruct (fresh (turns i) m0).
    + pose proof (publish_keeps_connection a (answer (turns i)) (queue_clock (turns i))
                    c (topic m0) (payload m0) (Some (qos m0)) (retain m0) Hc Hh)
        as [Hc1 Hh1].
      destruct (publish a (answer (turns i)) (queue_clock (turns i)) c
                  (topic m0) (payload m0) (Some (qos m0)) (retain m0)) as [c1 effs1].
      cbn [fst] in Hc1, Hh1.
      specialize (Hstep (queued_by_others added i c1) Hc1 Hh1).
      destruct (process_messages_among a turns (queued_by_others added) (S i) rest _)
        as [c2 effs2].
      cbn [snd] in *. rewrite sent_requests_app. apply in_or_app. now right.
    + specialize (Hstep c Hc Hh).
      destruct (process_messages_among a turns (queued_by_others added) (S i) rest c)
        as [c2 effs2].
      cbn [snd] in *. rewrite sent_requests_app. apply in_or_app. now right.
Qed.

Lemma requeued_among_In a turns added ms :
  forall i j m,
    nth_error ms j = Some m ->
    fresh (turns (i + j)%nat) m = true ->
    accepted a (answer (turns (i + j)%nat)) = false ->
    In (stamped (queue_clock (turns (i + j)%nat)) m)
       (requeued_among a turns added i ms).
Proof.
  induction ms as [|m0 rest IH]; intros i j m Hnth Hfresh Hacc;
    [destruct j; discriminate|].
  cbn [requeued_among]. destruct j as [|j]; cbn [nth_error] in Hnth.
  - injection Hnth as ->. rewrite Nat.add_0_r in *.
    rewrite Hfresh, Hacc. now left.
  - replace (i + S j)%nat with (S i + j)%nat in * by lia.
    specialize (IH (S i) j m Hnth Hfresh Hacc).
    destruct (fresh (turns i) m0); [|assumption].
    apply in_or_app. right. apply in_or_app. now right.
Qed.

(** X4.  A flush loses no message that is younger than 300 seconds at
    its turn, also with the other tasks of the application at work while
    it sleeps after each message, as long as the connection stays up and
    the messages those tasks queue meanwhile fit into the queue beside
    the messages of the flush (1000 together): if the transport answers,
    the request was handed to it, and unless the answer is the success
    code (with the transport library present) the message is in the
    queue again afterwards, stamped with the time of its new entry. *)
Theorem flush_keeps_fresh_messages (mqtt_available : bool) (turns : nat -> turn)
    (added : nat -> list message) (c : client) (j : nat) (m : message) :
  connected c = true -> has_client c = true ->
  (List.length (message_queue c)
   + List.length (added_during added 0 (List.length (message_queue c)))
   <= max_queue_size)%nat ->
  nth_error (message_queue c) j = Some m ->
  fresh (turns j) m = true ->
  (forall rc, answer (turns j) = Rc rc ->
     In (sent_of m)
        (sent_events
           (snd (_process_message_queue_among mqtt_available turns
                   (queued_by_others added) c))))
  /\ (accepted mqtt_available (answer (turns j)) = false ->
      In (stamped (queue_clock (turns j)) m)
         (message_queue
            (fst (_process_message_queue_among mqtt_available turns
                    (queued_by_others added) c)))).
Proof.
  intros Hc Hh Hlen Hnth Hfresh.
  destruct (message_queue c) as [|m0 rest] eqn:Hq; [destruct j; discriminate|].
  destruct (flush_among_unfold mqtt_available turns (queued_by_others added)
              c m0 rest Hq) as [-> ->].
  split.
  - intros rc Hans.
    exact (process_messages_among_sent mqtt_available turns added (m0 :: rest) 0%nat
             (with_queue c []) j m rc Hc Hh Hnth Hfresh Hans).
  - intros Hacc.
    rewrite (process_messages_among_queue mqtt_available turns added (m0 :: rest) 0%nat
               (with_queue c []) Hc Hh) by exact Hlen.
    cbn [message_queue with_queue app].
    exact (requeued_among_In mqtt_available turns added (m0 :: rest) 0%nat j m
             Hnth Hfresh Hacc).
Qed.

Lemma flush_keeps_fresh_messages_witness :
  (forall rc, answer (refusing_turn 1) = Rc rc ->
     In (Sent "dhsiled/grids/G01/alerts" "{}" 1 false)
        (sent_events (snd (_process_message_queue_among true refusing_turn
                             (queued_by_others one_status)
                             (online stale_queue_client)))))
  /\ (accepted true (answer (refusing_turn 1)) = false ->
      In {| topic := "dhsiled/grids/G01/alerts"; payload := "{}"; qos := 1;
            retain := false; timestamp := 1000 |}
         (message_queue (fst (_process_message_queue_among true refusing_turn
                                (queued_by_others one_status)
                                (online stale_queue_client))))).
Proof.
  apply (flush_keeps_fresh_messages true refusing_turn one_status
           (online stale_queue_client) 1
           {| topic := "dhsiled/grids/G01/alerts"; payload := "{}"; qos := 1;
              retain := false; timestamp := 900 |});
    [reflexivity | reflexivity | vm_compute; lia | reflexivity | reflexivity].
Defined.




End MQTTQueueFacts.

(** ** Facts about the health score, the health alerts and the trends *)

Module DeviceAlertsFacts.
Import Py PyFacts DeviceMonitor DeviceAlerts.

Lemma health_score_attempt_range (health_data : pyval) (score : Q) :
  health_score_attempt health_data = Some score -> (0 <= score <= 100)%Q.
Proof.
  unfold health_score_attempt. intros H.
  repeat match type of H with
         | mbind _ ?x = Some _ =>
             destruct x; cbn [mbind option_bind] in H; [|discriminate]
         end.
  injection H as <-. split.
  - apply Q.le_max_l.
  - apply Q.max_lub; [discriminate|apply Q.le_min_l].
Qed.

(** X6.  The health score lies between 0 and 100 for every health record
    whatever, well-formed or not: the computed score is clamped, and a
    record on which the computation raises scores 50. *)
Theorem health_score_in_range (health_data : pyval) :
  (0 <= _calculate_health_score health_data <= 100)%Q.
Proof.
  unfold _calculate_health_score.
  destruct (health_score_attempt health_data) as [score|] eqn:H.
  - now apply health_score_attempt_range with health_data.
  - split; discriminate.
Qed.

Lemma should_send_stamps last k t :
  snd (_should_send_alert last k t) = true ->
  fst (_should_send_alert last k t) !! k = Some t.
Proof.
  unfold _should_send_alert. destruct (last !! k) as [l|].
  - cbv zeta. destruct (Qle_bool alert_cooldown (t - l)); cbn [fst snd].
    + intros _. apply lookup_insert_eq.
    + discriminate.
  - intros _. cbn [fst]. apply lookup_insert_eq.
Qed.

(** The stamp of a type only moves to the time of a call, and stays
    where it is under calls for other types. *)
Lemma should_send_keeps last k t k' t0 :
  last !! k' = Some t0 ->
  fst (_should_send_alert last k t) !! k' = Some t0
  \/ (k = k' /\ fst (_should_send_alert last k t) !! k' = Some t).
Proof.
  intros Hl. unfold _should_send_alert.
  destruct (String.eqb_spec k k') as [->|Hne].
  - rewrite Hl. cbv zeta.
    destruct (Qle_bool alert_cooldown (t - t0)); cbn [fst].
    + right. split; [reflexivity|apply lookup_insert_eq].
    + now left.
  - left. destruct (last !! k) as [l|].
    + cbv zeta. destruct (Qle_bool alert_cooldown (t - l)); cbn [fst].
      * now rewrite lookup_insert_ne.
      * exact Hl.
    + cbn [fst]. now rewrite lookup_insert_ne.
Qed.

Lemma sent_after_stamp (calls : list (string * Q)) :
  forall (last : gmap string Q) (k : string) (t0 : Q) (j : nat) (tj : Q),
    last !! k = Some t0 ->
    forallb (fun later : string * Q => Qle_bool t0 (snd later)) calls = true ->
    clock_ok calls = true ->
    nth_error calls j = Some (k, tj) ->
    nth_error (alert_answers last calls) j = Some true ->
    (alert_cooldown <= tj - t0)%Q.
Proof.
  induction calls as [|[k' t'] rest IH]; intros last k t0 j tj Hl Hge Hok Hj Hans;
    [destruct j; discriminate|].
  cbn [alert_answers fst snd] in Hans.
  cbn [forallb snd] in Hge. apply andb_true_iff in Hge as [Hge0 Hge].
  cbn [clock_ok snd] in Hok. apply andb_true_iff in Hok as [Hok0 Hok].
  destruct j as [|j]; cbn [nth_error] in Hj.
  - injection Hj as -> ->.
    unfold _should_send_alert in Hans. rewrite Hl in Hans. cbv zeta in Hans.
    destruct (Qle_bool alert_cooldown (tj - t0)) eqn:Hle; cbn in Hans;
      [|discriminate].
    now apply Qle_bool_iff.
  - pose proof (should_send_keeps last k' t' k t0 Hl) as Hkeep.
    destruct (_should_send_alert last k' t') as [last' ans]. cbn [fst] in Hkeep.
    cbn [nth_error] in Hans.
    destruct Hkeep as [Hsame|[-> Hnew]].
    + exact (IH last' k t0 j tj Hsame Hge Hok Hj Hans).
    + pose proof (IH last' k t' j tj Hnew Hok0 Hok Hj Hans) as H.
      apply Qle_bool_iff in Hge0. lra.
Qed.

(** X7.  Two health alerts of the same type are never sent less than 300
    seconds apart: in every sequence of calls of [_should_send_alert],
    from any table of earlier alerts, whenever two calls for the same
    type are both answered with yes, the readings of the clock at the two
    calls differ by at least 300, provided the clock does not go back. *)
Theorem health_alerts_spaced (last_alerts : gmap string Q)
    (calls : list (string * Q)) (i j : nat) (k : string) (ti tj : Q) :
  clock_ok calls = true ->
  (i < j)%nat ->
  nth_error calls i = Some (k, ti) ->
  nth_error calls j = Some (k, tj) ->
  nth_error (alert_answers last_alerts calls) i = Some true ->
  nth_error (alert_answers last_alerts calls) j = Some true ->
  (300 <= tj - ti)%Q.
Proof.
  revert last_alerts i j.
  induction calls as [|[k' t'] rest IH]; intros last i j Hok Hij Hi Hj Hai Haj;
    [destruct i; discriminate|].
  cbn [alert_answers fst snd] in Hai, Haj.
  cbn [clock_ok snd] in Hok. apply andb_true_iff in Hok as [Hok0 Hok].
  destruct j as [|j]; [lia|]. cbn [nth_error] in Hj.
  destruct i as [|i]; cbn [nth_error] in Hi.
  - injection Hi as -> ->.
    pose proof (should_send_stamps last k ti) as Hstamp.
    destruct (_should_send_alert last k ti) as [last' ans].
    cbn [nth_error fst snd] in *. injection Hai as ->.
    exact (sent_after_stamp rest last' k ti j tj (Hstamp eq_refl) Hok0 Hok Hj Haj).
  - destruct (_should_send_alert last k' t') as [last' ans].
    cbn [nth_error] in Hai, Haj.
    exact (IH last' i j Hok ltac:(lia) Hi Hj Hai Haj).
Qed.

Lemma health_alerts_spaced_witness :
  (300 <= 1400 - 1000)%Q.
Proof.
  apply (health_alerts_spaced ∅
           [ ("cpu_temp", 1000%Q); ("memory_usage", 1100%Q); ("cpu_temp", 1200%Q);
             ("cpu_temp", 1400%Q) ]
           0 3 "cpu_temp" 1000 1400);
    [reflexivity | lia | reflexivity | reflexivity | reflexivity | reflexivity].
Defined.

Lemma justified_alert (type severity value limit : pyval) (more : dict pyval) :
  py_gt_values value limit = Some true ->
  justified (PDict (("type", type) :: ("severity", severity) :: ("value", value)
                    :: ("threshold", limit) :: more)) = true.
Proof.
  intros Hgt.
  change (match py_gt_values value limit with
          | Some above => above
          | None => false
          end = true).
  now rewrite Hgt.
Qed.

Lemma cpu_temp_alerts_justified str thresholds t hd last last' alerts :
  cpu_temp_alerts str thresholds t hd last = Some (last', alerts) ->
  forallb justified alerts = true.
Proof.
  unfold cpu_temp_alerts. intros H.
  destruct (py_get "cpu_temperature" (PInt 0) hd) as [cpu_temp|];
    cbn [mbind option_bind] in H; [|discriminate].
  destruct (py_subscript thresholds "cpu_temp") as [limit|];
    cbn [mbind option_bind] in H; [|discriminate].
  destruct (py_gt_values cpu_temp limit) as [[|]|] eqn:Hgt;
    cbn [mbind option_bind] in H; try discriminate.
  - destruct (_should_send_alert last "cpu_temp" t) as [l [|]].
    + destruct (py_gt cpu_temp 85) as [high|]; cbn [mbind option_bind] in H;
        [|discriminate].
      injection H as _ <-. cbn [forallb]. rewrite andb_true_r.
      now apply justified_alert.
    + now injection H as _ <-.
  - now injection H as _ <-.
Qed.

Lemma memory_alerts_justified str thresholds t hd last last' alerts :
  memory_alerts str thresholds t hd last = Some (last', alerts) ->
  forallb justified alerts = true.
Proof.
  unfold memory_alerts. intros H.
  destruct (py_get "memory_usage" (PDict []) hd) as [memory_d|];
    cbn [mbind option_bind] in H; [|discriminate].
  destruct (py_get "percentage" (PInt 0) memory_d) as [memory_usage|];
    cbn [mbind option_bind] in H; [|discriminate].
  destruct (py_subscript thresholds "memory_usage") as [limit|];
    cbn [mbind option_bind] in H; [|discriminate].
  destruct (py_gt_values memory_usage limit) as [[|]|] eqn:Hgt;
    cbn [mbind option_bind] in H; try discriminate.
  - destruct (_should_send_alert last "memory_usage" t) as [l [|]].
    + injection H as _ <-. cbn [forallb]. rewrite andb_true_r.
      now apply justified_alert.
    + now injection H as _ <-.
  - now injection H as _ <-.
Qed.

Lemma disk_alert_justified str thresholds t last alerts item last' alerts' :
  forallb justified alerts = true ->
  disk_alert str thresholds t (Some (last, alerts)) item = Some (last', alerts') ->
  forallb justified alerts' = true.
Proof.
  intros Hj. unfold disk_alert. cbn [mbind option_bind].
  destruct item as [mount info]. intros H.
  destruct (is_dict info); [|now injection H as _ <-].
  destruct (py_get "percentage" (PInt 0) info) as [usage|];
    cbn [mbind option_bind] in H; [|discriminate].
  destruct (py_subscript thresholds "disk_usage") as [limit|];
    cbn [mbind option_bind] in H; [|discriminate].
  destruct (py_gt_values usage limit) as [[|]|] eqn:Hgt;
    cbn [mbind option_bind] in H; try discriminate.
  - destruct (_should_send_alert last ("disk_usage_" ++ mount) t) as [l [|]].
    + destruct (py_gt usage 95) as [high|]; cbn [mbind option_bind] in H;
        [|discriminate].
      injection H as _ <-. rewrite forallb_app, Hj. cbn [forallb andb].
      rewrite andb_true_r.
      now apply justified_alert.
    + now injection H as _ <-.
  - now injection H as _ <-.
Qed.

Lemma disk_loop_justified str thresholds t items :
  forall acc last' alerts',
    match acc with
    | Some (_, alerts) => forallb justified alerts = true
    | None => True
    end ->
    fold_left (disk_alert str thresholds t) items acc = Some (last', alerts') ->
    forallb justified alerts' = true.
Proof.
  induction items as [|item rest IH]; intros acc last' alerts' Hacc H.
  - cbn [fold_left] in H. subst acc. exact Hacc.
  - cbn [fold_left] in H.
    apply (IH (disk_alert str thresholds t acc item) last' alerts'); [|exact H].
    destruct acc as [[last alerts]|]; [|exact I].
    destruct (disk_alert str thresholds t (Some (last, alerts)) item)
      as [[l a]|] eqn:Hd; [|exact I].
    exact (disk_alert_justified str thresholds t last alerts item l a Hacc Hd).
Qed.

(** Two strings are ordered: a percentage and a threshold that are both
    strings raise the memory alert, with the strings as they are. *)
Lemma memory_alert_on_strings :
  snd <$> _check_health_alerts (fun _ : pyval => "?")
            (PDict [ ("cpu_temp", PFloat 80); ("memory_usage", PStr "95");
                     ("disk_usage", PFloat 90) ])
            1000
            (PDict [ ("cpu_temperature", PFloat 50);
                     ("memory_usage", PDict [ ("percentage", PStr "97") ]) ])
            ∅
  = Some [ PDict [ ("type", PStr "memory_usage"); ("severity", PStr "high");
                   ("value", PStr "97"); ("threshold", PStr "95");
                   ("message", PStr "Memory usage critical: ?%") ] ].
Proof. vm_compute. reflexivity. Qed.

(** X8.  Every alert [_check_health_alerts] returns is justified by the
    record it was raised for: whatever the thresholds, the record and the
    table of earlier alerts, each alert of the list carries a value and a
    threshold for which [value > threshold] is true as Python evaluates
    it (by value for numbers, by characters for two strings, by elements
    for two lists). *)
Theorem health_alerts_justified (str : pyval -> string) (thresholds : pyval)
    (current_time : Q) (health_data : pyval) (last_alerts last_alerts' : gmap string Q)
    (alerts : list pyval) :
  _check_health_alerts str thresholds current_time health_data last_alerts
  = Some (last_alerts', alerts) ->
  forallb justified alerts = true.
Proof.
  unfold _check_health_alerts. intros H.
  destruct (cpu_temp_alerts str thresholds current_time health_data last_alerts)
    as [[l1 a1]|] eqn:H1; cbn [mbind option_bind] in H; [|discriminate].
  destruct (memory_alerts str thresholds current_time health_data l1)
    as [[l2 a2]|] eqn:H2; cbn [mbind option_bind] in H; [|discriminate].
  destruct (py_get "disk_usage" (PDict []) health_data) as [disk_usage|];
    cbn [mbind option_bind] in H; [|discriminate].
  destruct disk_usage as [| | | | | |items]; cbn [mbind option_bind] in H;
    try discriminate.
  apply (disk_loop_justified str thresholds current_time items
           (Some (l2, a1 ++ a2)) last_alerts' alerts); [|exact H].
  rewrite forallb_app.
  rewrite (cpu_temp_alerts_justified _ _ _ _ _ _ _ H1).
  rewrite (memory_alerts_justified _ _ _ _ _ _ _ H2). reflexivity.
Qed.

Lemma health_alerts_justified_witness :
  forallb justified (snd hot_check) = true /\ List.length (snd hot_check) = 2%nat.
Proof.
  split; [|reflexivity].
  apply (health_alerts_justified (fun _ : pyval => "?") default_thresholds 1000
           hot_record ∅ (fst hot_check) (snd hot_check)).
  vm_compute. reflexivity.
Defined.




End DeviceAlertsFacts.

(** ** Facts about the classification of the edge processor *)

Module EdgeAnalysisFacts.
Import Py PyFacts RoundFacts EdgeProcessor EdgeAnalysis.

Lemma calculate_crowd_density_percentage (p : processor) (n : Z) level percentage :
  calculate_crowd_density p n = Some (level, percentage) ->
  percentage
  = py_round (Qmin (inject_Z n / grid_area p / 4 * 100) 100) 2.
Proof.
  unfold calculate_crowd_density.
  destruct (Qeq_bool (grid_area p) 0); [discriminate|]. cbv zeta.
  destruct (bucket "low" (density_thresholds p) n); cbn [mbind option_bind];
    [|discriminate].
  now intros [= _ <-].
Qed.

(** X10.  The density percentage of a grid of positive area lies between
    0 and 100 for every count of people that is not negative, and it never
    decreases when the count grows. *)
Theorem density_percentage_bounded_monotone (p : processor) (n n' : Z)
    (level level' : string) (percentage percentage' : Q) :
  (0 < grid_area p)%Q ->
  (0 <= n <= n')%Z ->
  calculate_crowd_density p n = Some (level, percentage) ->
  calculate_crowd_density p n' = Some (level', percentage') ->
  (0 <= percentage /\ percentage <= percentage' /\ percentage' <= 100)%Q.
Proof.
  intros Harea [Hn Hnn'] H H'.
  apply calculate_crowd_density_percentage in H, H'. subst percentage percentage'.
  assert (Hinv : (0 < / grid_area p)%Q) by now apply Qinv_lt_0_compat.
  assert (Hq : (0 <= inject_Z n)%Q) by (change 0%Q with (inject_Z 0); now rewrite <- Zle_Qle).
  assert (Hq' : (inject_Z n <= inject_Z n')%Q) by now rewrite <- Zle_Qle.
  assert (Hx : (0 <= inject_Z n * / grid_area p)%Q)
    by (apply Qmult_le_0_compat; lra).
  assert (Hx' : (inject_Z n * / grid_area p <= inject_Z n' * / grid_area p)%Q)
    by (apply Qmult_le_compat_r; lra).
  assert (E : forall m : Z,
             (inject_Z m / grid_area p / 4 * 100 == inject_Z m * / grid_area p * 25)%Q)
    by (intros m; field; lra).
  assert (H0 : (0 <= Qmin (inject_Z n / grid_area p / 4 * 100) 100)%Q).
  { apply Q.min_glb; [|discriminate]. rewrite E. lra. }
  assert (H1 : (Qmin (inject_Z n / grid_area p / 4 * 100) 100
                <= Qmin (inject_Z n' / grid_area p / 4 * 100) 100)%Q).
  { apply Q.min_le_compat_r. rewrite !E. lra. }
  assert (H2 : (Qmin (inject_Z n' / grid_area p / 4 * 100) 100 <= 100)%Q)
    by apply Q.le_min_r.
  split; [|split].
  - apply (py_round_between 0 100 _ 2). split; [exact H0|].
    apply Qle_trans with (1 := H1). exact H2.
  - now apply py_round_mono.
  - apply (py_round_between 0 100 _ 2). split; [|exact H2].
    apply Qle_trans with (2 := H1). exact H0.
Qed.

Lemma density_percentage_bounded_monotone_witness :
  (0 <= py_round (Qmin (inject_Z 150 / 750 / 4 * 100) 100) 2
   /\ py_round (Qmin (inject_Z 150 / 750 / 4 * 100) 100) 2
      <= py_round (Qmin (inject_Z 3500 / 750 / 4 * 100) 100) 2
   /\ py_round (Qmin (inject_Z 3500 / 750 / 4 * 100) 100) 2 <= 100)%Q.
Proof.
  apply (density_percentage_bounded_monotone default_processor 150 3500
           "high" "critical");
    [reflexivity | lia | reflexivity | reflexivity].
Defined.

Lemma str_in_cons (s a : string) (l : list string) :
  str_in s (a :: l) = String.eqb s a || str_in s l.
Proof. reflexivity. Qed.

(** Which behaviours reach a severity [generate_alerts] acts on. *)
Lemma behavior_severity_alerting (behavior : string) (confidence : Q) :
  str_in (get_behavior_severity behavior confidence) ["high"; "critical"]
  = str_in behavior ["panic"; "running"; "fighting"; "falling"]
    || Qltb (9 # 10) confidence.
Proof.
  unfold get_behavior_severity, dict_get_default, severity_mapping.
  cbn [dict_get]. rewrite !str_in_cons.
  destruct (String.eqb_spec behavior "panic") as [->|_];
    [destruct (Qltb (9 # 10) confidence); reflexivity|].
  destruct (String.eqb_spec behavior "running") as [->|_];
    [destruct (Qltb (9 # 10) confidence); reflexivity|].
  destruct (String.eqb_spec behavior "fighting") as [->|_];
    [destruct (Qltb (9 # 10) confidence); reflexivity|].
  destruct (String.eqb_spec behavior "falling") as [->|_];
    [destruct (Qltb (9 # 10) confidence); reflexivity|].
  destruct (String.eqb_spec behavior "unusual_gathering") as [->|_];
    destruct (Qltb (9 # 10) confidence); reflexivity.
Qed.

Lemma analyze_behavior_In (behavior_predictions : dict Q) (b : behavior_alert) :
  In b (analyze_behavior behavior_predictions) ->
  In (ba_behavior b, ba_confidence b) behavior_predictions
  /\ ba_behavior b <> "normal"
  /\ (7 # 10 < ba_confidence b)%Q
  /\ ba_severity b = get_behavior_severity (ba_behavior b) (ba_confidence b).
Proof.
  induction behavior_predictions as [|[behavior confidence] rest IH];
    cbn [analyze_behavior]; [intros []|].
  destruct (String.eqb_spec behavior "normal") as [->|Hne]; cbn [negb andb].
  - intros H. destruct (IH H) as (? & ? & ? & ?). repeat split; auto. now right.
  - destruct (Qltb (7 # 10) confidence) eqn:Hc.
    + intros [<-|H].
      * cbn. apply Qltb_lt in Hc. repeat split; auto.
      * destruct (IH H) as (? & ? & ? & ?). repeat split; auto. now right.
    + intros H. destruct (IH H) as (? & ? & ? & ?). repeat split; auto. now right.
Qed.

(** X11.  Every behaviour alert [analyze_behavior] builds is for a class
    other than normal that scored above 0.7, and it has a severity
    [generate_alerts] acts on (high or critical) exactly when the class is
    panic, running, fighting or falling, or the score is above 0.9; so
    crowd_surge, evacuation and unusual_gathering raise no alert up to a
    score of 0.9. *)
Theorem behavior_alerts_that_count (behavior_predictions : dict Q)
    (b : behavior_alert) :
  In b (analyze_behavior behavior_predictions) ->
  ba_behavior b <> "normal"
  /\ (7 # 10 < ba_confidence b)%Q
  /\ (str_in (ba_severity b) ["high"; "critical"] = true
      <-> str_in (ba_behavior b) ["panic"; "running"; "fighting"; "falling"] = true
          \/ (9 # 10 < ba_confidence b)%Q).
Proof.
  intros Hin. destruct (analyze_behavior_In _ _ Hin) as (_ & Hne & Hc & Hsev).
  split; [exact Hne|]. split; [exact Hc|].
  rewrite Hsev, behavior_severity_alerting, orb_true_iff, Qltb_lt. reflexivity.
Qed.

Lemma behavior_alerts_that_count_witness :
  (str_in "moderate" ["high"; "critical"] = true
   <-> str_in "crowd_surge" ["panic"; "running"; "fighting"; "falling"] = true
       \/ (9 # 10 < 85 # 100)%Q).
Proof.
  apply (behavior_alerts_that_count
           [ ("normal", 5 # 100); ("crowd_surge", 85 # 100); ("panic", 10 # 100) ]%Q
           {| ba_behavior := "crowd_surge"; ba_confidence := 85 # 100;
              ba_severity := "moderate" |}).
  left. reflexivity.
Defined.

Lemma analyze_behavior_confidences (behavior_predictions : dict Q) :
  Forall (fun c : Q => 7 # 10 < c)%Q
    (List.map ba_confidence (analyze_behavior behavior_predictions)).
Proof.
  apply List.Forall_forall. intros c Hc. apply in_map_iff in Hc as (b & <- & Hb).
  now destruct (analyze_behavior_In _ _ Hb) as (_ & _ & H & _).
Qed.

Lemma Qsum_above (l : list Q) (c : Q) :
  Forall (fun x : Q => c < x)%Q l -> l <> [] ->
  (c * inject_Z (Z.of_nat (List.length l)) < Qsum l)%Q.
Proof.
  induction 1 as [|x l Hx Hl IH]; [congruence|]. intros _.
  cbn [List.length Qsum]. rewrite Nat2Z.inj_succ, <- Z.add_1_r, inject_Z_plus.
  change (inject_Z 1) with 1%Q. cbv beta in Hx.
  destruct l as [|y l'].
  - cbn [List.length Qsum]. change (inject_Z (Z.of_nat 0)) with 0%Q. lra.
  - specialize (IH ltac:(discriminate)).
    set (n := inject_Z (Z.of_nat (List.length (y :: l')))) in *.
    set (s := Qsum (y :: l')) in *. rewrite Qmult_plus_distr_r. lra.
Qed.

(** X12.  The confidence that behaviour is normal, as the grid status
    reports it for the alerts of [analyze_behavior], is 1 when there is no
    behaviour alert and lies between 0 and 0.3 when there is one: no value
    strictly between 0.3 and 1 is ever reported. *)
Theorem normal_confidence_values (behavior_predictions : dict Q) :
  let behavior_alerts := analyze_behavior behavior_predictions in
  (behavior_alerts = [] /\ calculate_normal_confidence behavior_alerts = 1%Q)
  \/ (behavior_alerts <> []
      /\ (0 <= calculate_normal_confidence behavior_alerts <= 3 # 10)%Q).
Proof.
  cbv zeta.
  pose proof (analyze_behavior_confidences behavior_predictions) as Hall.
  destruct (analyze_behavior behavior_predictions) as [|b bs] eqn:Hbs.
  - left. split; reflexivity.
  - right. split; [discriminate|].
    unfold calculate_normal_confidence. cbv zeta.
    set (alerts := b :: bs) in *.
    set (n := inject_Z (Z.of_nat (List.length alerts))).
    assert (Hn : (0 < n)%Q).
    { unfold n. change 0%Q with (inject_Z 0). rewrite <- Zlt_Qlt.
      unfold alerts. cbn [List.length]. lia. }
    assert (Hsum : ((7 # 10) * n < Np.py_sum (List.map ba_confidence alerts))%Q).
    { rewrite EmergencyDetectorFacts.py_sum_Qsum.
      pose proof (Qsum_above (List.map ba_confidence alerts) (7 # 10) Hall
                    ltac:(discriminate)) as H.
      rewrite length_map in H. exact H. }
    set (total := Np.py_sum (List.map ba_confidence alerts)) in *.
    assert (Havg : (7 # 10 < total / n)%Q).
    { apply Qlt_shift_div_l; [exact Hn|exact Hsum]. }
    set (avg := (total / n)%Q) in *.
    assert (Hmax : (0 <= Qmax 0 (1 - avg) <= 3 # 10)%Q).
    { split; [apply Q.le_max_l|]. apply Q.max_lub; [discriminate|lra]. }
    destruct Hmax as [Hlo Hhi]. split.
    + apply (py_round_between 0 1 _ 3). split; [exact Hlo|].
      apply Qle_trans with (1 := Hhi). discriminate.
    + assert (E : (py_round (3 # 10) 3 == 3 # 10)%Q) by reflexivity.
      rewrite <- E. now apply py_round_mono.
Qed.

(** The state of the search after any number of turns: the highest score
    so far is at least the score it started from and at least the score
    of every class seen other than normal, and the type is the one that
    carries it unless nothing beat the start. *)
Lemma highest_fold (emergency_predictions : dict Q) :
  forall (m0 : Q) (t0 : option string),
    let r := fold_left highest_step emergency_predictions (m0, t0) in
    (m0 <= fst r)%Q
    /\ (forall k v, In (k, v) emergency_predictions -> k <> "normal" -> (v <= fst r)%Q)
    /\ (r = (m0, t0)
        \/ (exists k, snd r = Some k /\ k <> "normal"
                      /\ In (k, fst r) emergency_predictions /\ (m0 < fst r)%Q)).
Proof.
  induction emergency_predictions as [|[k0 v0] rest IH]; intros m0 t0; cbv zeta.
  - cbn. split; [apply Qle_refl|]. split; [intros ? ? []|now left].
  - cbn [fold_left].
    replace (highest_step (m0, t0) (k0, v0))
      with (if negb (String.eqb k0 "normal") && Qltb m0 v0
            then (v0, Some k0) else (m0, t0)) by reflexivity.
    destruct (String.eqb_spec k0 "normal") as [->|Hne]; cbn [negb andb].
    + destruct (IH m0 t0) as (H1 & H2 & H3). split; [exact H1|]. split.
      * intros k v [[= <- <-]|Hin] Hk; [congruence|exact (H2 k v Hin Hk)].
      * destruct H3 as [H3|(k & ? & ? & ? & ?)]; [now left|].
        right. exists k. repeat split; auto. now right.
    + destruct (Qltb m0 v0) eqn:Hlt.
      * apply Qltb_lt in Hlt. destruct (IH v0 (Some k0)) as (H1 & H2 & H3).
        split; [lra|]. split.
        -- intros k v [[= <- <-]|Hin] Hk; [exact H1|exact (H2 k v Hin Hk)].
        -- right. destruct H3 as [H3|(k & ? & ? & ? & ?)].
           ++ rewrite H3. exists k0. cbn. repeat split; auto.
           ++ exists k. repeat split; auto; [now right|lra].
      * apply Qltb_ge in Hlt. destruct (IH m0 t0) as (H1 & H2 & H3).
        split; [exact H1|]. split.
        -- intros k v [[= <- <-]|Hin] Hk; [lra|exact (H2 k v Hin Hk)].
        -- destruct H3 as [H3|(k & ? & ? & ? & ?)]; [now left|].
           right. exists k. repeat split; auto. now right.
Qed.

(** X13.  [detect_emergencies] reports the class other than normal with
    the highest score: the status is clear exactly when no such class
    scores above 0.6 and emergency exactly when one scores above 0.8; when
    the status is not clear the reported type is a class of the
    predictions other than normal, the reported confidence is its score,
    and no class other than normal scores higher. *)
Theorem emergency_status_is_highest_class (emergency_predictions : dict Q) :
  let es := detect_emergencies emergency_predictions in
  (es_status es = "clear"
   <-> forall k v, In (k, v) emergency_predictions -> k <> "normal" -> (v <= 6 # 10)%Q)
  /\ (es_status es = "emergency"
      <-> exists k v, In (k, v) emergency_predictions /\ k <> "normal" /\ (8 # 10 < v)%Q)
  /\ (es_status es <> "clear" ->
      exists k, es_type es = Some k /\ k <> "normal"
        /\ In (k, es_confidence es) emergency_predictions
        /\ forall k' v, In (k', v) emergency_predictions -> k' <> "normal" ->
                        (v <= es_confidence es)%Q).
Proof.
  cbv zeta. unfold detect_emergencies.
  pose proof (highest_fold emergency_predictions 0 None) as H. cbv zeta in H.
  destruct (fold_left highest_step emergency_predictions (0%Q, None)) as [m t].
  cbn [fst snd] in H. destruct H as (H1 & H2 & H3).
  assert (Hwit : (0 < m)%Q -> exists k, t = Some k /\ k <> "normal"
                                 /\ In (k, m) emergency_predictions).
  { intros Hm. destruct H3 as [[= -> ->]|(k & ? & ? & ? & ?)]; [lra|].
    exists k. auto. }
  destruct (Qltb (8 # 10) m) eqn:E8; [|destruct (Qltb (6 # 10) m) eqn:E6].
  - apply Qltb_lt in E8. cbn [es_status es_type es_confidence].
    destruct (Hwit ltac:(lra)) as (k & Ht & Hk & Hin).
    split; [|split].
    + split; [discriminate|]. intros Hall. specialize (Hall k m Hin Hk). lra.
    + split; [|reflexivity]. intros _. exists k, m. auto.
    + intros _. exists k. auto.
  - apply Qltb_ge in E8. apply Qltb_lt in E6. cbn [es_status es_type es_confidence].
    destruct (Hwit ltac:(lra)) as (k & Ht & Hk & Hin).
    split; [|split].
    + split; [discriminate|]. intros Hall. specialize (Hall k m Hin Hk). lra.
    + split; [discriminate|]. intros (k' & v & Hin' & Hk' & Hv).
      specialize (H2 k' v Hin' Hk'). lra.
    + intros _. exists k. auto.
  - apply Qltb_ge in E8. apply Qltb_ge in E6. cbn [es_status es_type es_confidence].
    split; [|split].
    + split; [|reflexivity]. intros _ k v Hin Hk. specialize (H2 k v Hin Hk). lra.
    + split; [discriminate|]. intros (k' & v & Hin' & Hk' & Hv).
      specialize (H2 k' v Hin' Hk'). lra.
    + congruence.
Qed.

Lemma behavior_step_severities (e : env) (acc : list pyval * processor)
    (b : behavior_alert) :
  Forall high_or_critical (fst acc) ->
  Forall high_or_critical (fst (behavior_step e acc b)).
Proof.
  destruct acc as [alerts p]. intros Hacc. unfold behavior_step.
  destruct (str_in (ba_severity b) ["high"; "critical"]) eqn:Hs; [|exact Hacc].
  destruct (negb (is_alert_in_cooldown e p ("behavior_" ++ ba_behavior b)));
    [|exact Hacc].
  cbn [generate_alert_id fst]. apply Forall_app. split; [exact Hacc|].
  constructor; [|constructor].
  apply EdgeProcessorFacts.str_in_high_critical in Hs.
  unfold high_or_critical, severity_of. cbn. destruct Hs as [-> | ->]; auto.
Qed.

Lemma behavior_loop_severities (e : env) (bas : list behavior_alert) :
  forall acc : list pyval * processor,
    Forall high_or_critical (fst acc) ->
    Forall high_or_critical (fst (fold_left (behavior_step e) bas acc)).
Proof.
  induction bas as [|b bas IH]; intros acc Hacc; [exact Hacc|].
  cbn [fold_left]. apply IH. now apply behavior_step_severities.
Qed.

(** X14.  Every alert [generate_alerts] returns, and so every alert
    published on the alert topic of the grid, has severity high or
    critical, whatever the people count, the behaviour alerts and the
    emergency status it is given. *)
Theorem alerts_are_high_or_critical (e : env) (p p' : processor) (people_count : Z)
    (behavior_alerts : list behavior_alert) (es : emergency_status)
    (alerts : list pyval) :
  generate_alerts e p people_count behavior_alerts es = Some (alerts, p') ->
  Forall (fun alert => severity_of alert = Some (PStr "high")
                       \/ severity_of alert = Some (PStr "critical")) alerts.
Proof.
  unfold generate_alerts.
  destruct (density_block e p people_count) as [acc|] eqn:Hd;
    cbn [mbind option_bind]; [|discriminate].
  intros [= H].
  assert (Hacc : Forall high_or_critical (fst acc)).
  { revert Hd. unfold density_block.
    destruct (get_threshold_status p people_count) as [st|];
      cbn [mbind option_bind]; [|discriminate].
    destruct (str_in st ["high"; "critical"]) eqn:Hs;
      [|intros [= <-]; constructor].
    destruct (negb (is_alert_in_cooldown e p ("density_" ++ st)));
      [|intros [= <-]; constructor].
    cbn [generate_alert_id]. intros [= <-]. cbn [fst].
    constructor; [|constructor].
    apply EdgeProcessorFacts.str_in_high_critical in Hs.
    unfold high_or_critical, severity_of. cbn. destruct Hs as [-> | ->]; auto. }
  pose proof (behavior_loop_severities e behavior_alerts acc Hacc) as Hloop.
  destruct (fold_left (behavior_step e) behavior_alerts acc) as [alerts1 p1].
  cbn [fst] in Hloop. revert H. unfold emergency_block.
  destruct (str_in (es_status es) ["warning"; "emergency"]);
    [|intros [= <- _]; exact Hloop].
  destruct (negb (is_alert_in_cooldown e p1 ("emergency_" ++ str_of_type (es_type es))));
    [|intros [= <- _]; exact Hloop].
  cbn [generate_alert_id]. intros [= <- _].
  apply Forall_app. split; [exact Hloop|]. constructor; [|constructor].
  unfold severity_of. cbn. destruct (String.eqb (es_status es) "emergency"); auto.
Qed.

Lemma alerts_are_high_or_critical_witness :
  Forall (fun alert => severity_of alert = Some (PStr "high")
                       \/ severity_of alert = Some (PStr "critical"))
    (fst busy_evaluation)
  /\ List.length (fst busy_evaluation) = 3%nat.
Proof.
  split; [|reflexivity].
  apply (alerts_are_high_or_critical (env_at 1000 "t0") default_processor
           (snd busy_evaluation) 210 (analyze_behavior busy_predictions)
           (detect_emergencies fire_predictions) (fst busy_evaluation)).
  vm_compute. reflexivity.
Defined.

Lemma behavior_loop_calm (e : env) (bas : list behavior_alert) :
  forall acc : list pyval * processor,
    Forall (fun b => str_in (ba_severity b) ["high"; "critical"] = false) bas ->
    fold_left (behavior_step e) bas acc = acc.
Proof.
  induction bas as [|b bas IH]; intros acc Hall; [reflexivity|].
  inversion Hall as [|? ? Hb Hrest]; subst. cbn [fold_left].
  assert (Hstep : behavior_step e acc b = acc).
  { destruct acc as [alerts p]. unfold behavior_step. now rewrite Hb. }
  rewrite Hstep. now apply IH.
Qed.

Lemma calm_behavior_alerts (behavior_predictions : dict Q) :
  forallb calm_behavior behavior_predictions = true ->
  Forall (fun b => str_in (ba_severity b) ["high"; "critical"] = false)
    (analyze_behavior behavior_predictions).
Proof.
  intros Hcalm. apply List.Forall_forall. intros b Hb.
  destruct (analyze_behavior_In _ _ Hb) as (Hin & Hne & Hc & Hsev).
  rewrite forallb_forall in Hcalm. specialize (Hcalm _ Hin).
  unfold calm_behavior in Hcalm. cbn [fst snd] in Hcalm.
  rewrite Hsev, behavior_severity_alerting.
  apply orb_true_iff in Hcalm as [Hcalm|Hcalm].
  - apply orb_true_iff in Hcalm as [Hn|Hle].
    + apply String.eqb_eq in Hn. congruence.
    + apply Qle_bool_iff in Hle. lra.
  - apply andb_true_iff in Hcalm as [Hnot Hle].
    apply negb_true_iff in Hnot. apply Qle_bool_iff in Hle.
    rewrite Hnot. cbn [orb]. now apply Qltb_ge.
Qed.

Lemma calm_emergency_clear (emergency_predictions : dict Q) :
  forallb calm_emergency emergency_predictions = true ->
  detect_emergencies emergency_predictions = clear_status.
Proof.
  intros Hcalm. unfold detect_emergencies.
  pose proof (highest_fold emergency_predictions 0 None) as H. cbv zeta in H.
  destruct (fold_left highest_step emergency_predictions (0%Q, None)) as [m t].
  cbn [fst snd] in H. destruct H as (_ & _ & H3).
  assert (Hm : (m <= 6 # 10)%Q).
  { destruct H3 as [[= -> ->]|(k & _ & Hk & Hin & _)]; [discriminate|].
    rewrite forallb_forall in Hcalm. specialize (Hcalm _ Hin).
    unfold calm_emergency in Hcalm. cbn [fst snd] in Hcalm.
    apply orb_true_iff in Hcalm as [Hn|Hle].
    - apply String.eqb_eq in Hn. congruence.
    - now apply Qle_bool_iff. }
  rewrite (proj2 (Qltb_ge (8 # 10) m)) by lra.
  rewrite (proj2 (Qltb_ge (6 # 10) m)) by lra.
  reflexivity.
Qed.

(** X15.  A calm scene raises no alert and leaves the cooldown table as
    it was: when the people count has threshold status normal or moderate,
    every behaviour class other than normal scores at most 0.7 (at most
    0.9 for the classes other than panic, running, fighting and falling),
    and every emergency class other than normal scores at most 0.6, then
    [generate_alerts] on the results of [analyze_behavior] and
    [detect_emergencies] returns the empty list and the processor
    unchanged. *)
Theorem calm_scene_raises_no_alert (e : env) (p : processor) (people_count : Z)
    (behavior_predictions emergency_predictions : dict Q) (status : string) :
  get_threshold_status p people_count = Some status ->
  str_in status ["high"; "critical"] = false ->
  forallb calm_behavior behavior_predictions = true ->
  forallb calm_emergency emergency_predictions = true ->
  generate_alerts e p people_count (analyze_behavior behavior_predictions)
    (detect_emergencies emergency_predictions)
  = Some ([], p).
Proof.
  intros Hst Hlow Hb He. unfold generate_alerts, density_block.
  rewrite Hst. cbn [mbind option_bind]. rewrite Hlow. cbn [mbind option_bind].
  rewrite (behavior_loop_calm e _ ([], p) (calm_behavior_alerts _ Hb)).
  rewrite (calm_emergency_clear _ He). reflexivity.
Qed.

Lemma calm_scene_raises_no_alert_witness :
  generate_alerts (env_at 1000 "t0") default_processor 100
    (analyze_behavior [ ("normal", 5 # 100); ("crowd_surge", 85 # 100);
                        ("panic", 10 # 100) ]%Q)
    (detect_emergencies [ ("normal", 40 # 100); ("smoke", 60 # 100) ]%Q)
  = Some ([], default_processor).
Proof.
  apply (calm_scene_raises_no_alert (env_at 1000 "t0") default_processor 100
           [ ("normal", 5 # 100); ("crowd_surge", 85 # 100); ("panic", 10 # 100) ]%Q
           [ ("normal", 40 # 100); ("smoke", 60 # 100) ]%Q "moderate");
    reflexivity.
Defined.

End EdgeAnalysisFacts.

(** ** Facts about the configuration as objects *)

Module ConfigObjectsFacts.
Import Py PyFacts ConfigObjects.

Lemma item_insert_ne (h : heap) (l l0 : loc) (d : dict val) (k : string) :
  l <> l0 -> item (<[l := d]> h) l0 k = item h l0 k.
Proof. intros Hne. unfold item. now rewrite list_lookup_insert_ne. Qed.

Lemma item_insert_eq (h : heap) (l : loc) (d : dict val) (k : string) :
  (l < List.length h)%nat -> item (<[l := d]> h) l k = dict_get k d.
Proof. intros Hl. unfold item. now rewrite list_lookup_insert_eq. Qed.

Lemma item_app (h ext : heap) (l : loc) (k : string) :
  (l < List.length h)%nat -> item (h ++ ext) l k = item h l k.
Proof. intros Hl. unfold item. now rewrite lookup_app_l. Qed.

Lemma item_lookup (h : heap) (l : loc) (d : dict val) (k : string) :
  h !! l = Some d -> item h l k = dict_get k d.
Proof. intros Hd. unfold item. now rewrite Hd. Qed.

Lemma item_allocated (h : heap) (l : loc) (k : string) (v : val) :
  item h l k = Some v -> (l < List.length h)%nat.
Proof.
  unfold item. destruct (h !! l) as [d|] eqn:Hd; [|discriminate].
  intros _. exact (lookup_lt_Some _ _ _ Hd).
Qed.

(** Storing one item changes that item only. *)
Lemma item_assign (h : heap) (l : loc) (d : dict val) (k : string) (v : val)
    (l0 : loc) (k0 : string) :
  h !! l = Some d -> (l0, k0) <> (l, k) ->
  item (<[l := dict_set k v d]> h) l0 k0 = item h l0 k0.
Proof.
  intros Hd Hne. destruct (Nat.eq_dec l l0) as [<-|Hl].
  - rewrite item_insert_eq by exact (lookup_lt_Some _ _ _ Hd).
    rewrite (item_lookup h l d k0 Hd). apply dict_get_set_ne. congruence.
  - now apply item_insert_ne.
Qed.

(** In a closed heap the maps hold references to maps of the heap. *)
Lemma closed_item (h : heap) (l : loc) (k : string) (v : val) :
  closed h = true -> item h l k = Some v -> within (List.length h) v = true.
Proof.
  unfold closed, item. intros Hc Hi.
  destruct (h !! l) as [d|] eqn:Hd; [|discriminate]. cbn in Hi.
  rewrite forallb_forall in Hc.
  specialize (Hc d (proj1 (list_elem_of_In _ _) (list_elem_of_lookup_2 _ _ _ Hd))).
  rewrite forallb_forall in Hc.
  exact (Hc (k, v) (dict_get_Some_In k v d Hi)).
Qed.

(** A [get] depends on the items it looks up only. *)
Lemma get_frame (changed : list (loc * string)) (h h' : heap) (keys : list string) :
  closed h = true -> same_but changed h h' ->
  forall value,
    within (List.length h) value = true ->
    (forall s, In s (reads h keys value) -> ~ In s changed) ->
    get_from h' keys value = get_from h keys value.
Proof.
  intros Hc [Hlen Hsame].
  induction keys as [|k ks IH]; intros value Hw Hr; [reflexivity|].
  destruct value; try reflexivity.
  cbn [get_from reads] in *. apply Nat.ltb_lt in Hw.
  rewrite (Hsame l k Hw (Hr (l, k) (or_introl eq_refl))).
  destruct (item h l k) as [v|] eqn:Hi; [|reflexivity]. cbn.
  apply IH.
  - exact (closed_item h l k v Hc Hi).
  - intros s Hs. apply Hr. now right.
Qed.

(** A [set] that starts in a new empty map leaves the maps before it
    alone. *)
Lemma set_from_new (value : val) (keys : list string) :
  forall (h h' : heap) (new : loc),
    h !! new = Some ([] : dict val) ->
    set_from keys value (VRef new) h = Some h' ->
    (List.length h <= List.length h')%nat
    /\ forall l k, (l < new)%nat -> item h' l k = item h l k.
Proof.
  induction keys as [|k ks IH]; intros h h' new Hnew Hset; [discriminate|].
  cbn [set_from] in Hset. rewrite Hnew in Hset. cbn in Hset.
  pose proof (lookup_lt_Some _ _ _ Hnew) as Hlt.
  destruct ks as [|k2 ks].
  - injection Hset as <-. rewrite length_insert. split; [lia|].
    intros l k0 Hl. apply item_insert_ne. lia.
  - apply IH in Hset.
    + destruct Hset as [Hlen Hsame].
      rewrite length_app, length_insert in Hlen. split; [lia|].
      intros l k0 Hl. rewrite Hsame by lia.
      rewrite item_app by (rewrite length_insert; lia).
      apply item_insert_ne. lia.
    + rewrite lookup_app_r by (rewrite length_insert; lia).
      rewrite length_insert, Nat.sub_diag. reflexivity.
Qed.

(** A [set] that returns has assigned one item of the maps there were. *)
Lemma set_from_same_but (value : val) (keys : list string) :
  forall (config : val) (h h' : heap),
    set_from keys value config h = Some h' ->
    exists s, assigned h keys config = Some s /\ same_but [s] h h'.
Proof.
  induction keys as [|k ks IH]; intros config h h' Hset; [discriminate|].
  destruct config; try discriminate.
  cbn [set_from assigned] in *.
  destruct (h !! l) as [d|] eqn:Hd; [|discriminate]. cbn in Hset.
  rewrite (item_lookup h l d k Hd).
  pose proof (lookup_lt_Some _ _ _ Hd) as Hlt.
  destruct ks as [|k2 ks].
  - injection Hset as <-. exists (l, k). split; [reflexivity|].
    split; [rewrite length_insert; lia|].
    intros l0 k0 _ Hin. apply (item_assign h l d k value l0 k0 Hd).
    intros [= -> ->]. apply Hin. now left.
  - destruct (dict_get k d) as [child|] eqn:Hk.
    + exact (IH child h h' Hset).
    + exists (l, k). split; [reflexivity|].
      apply set_from_new in Hset.
      * destruct Hset as [Hlen Hsame].
        rewrite length_app, length_insert in Hlen.
        split; [lia|]. intros l0 k0 Hl0 Hin.
        rewrite Hsame by exact Hl0.
        rewrite item_app by (rewrite length_insert; lia).
        apply (item_assign h l d k _ l0 k0 Hd).
        intros [= -> ->]. apply Hin. now left.
      * rewrite lookup_app_r by (rewrite length_insert; lia).
        rewrite length_insert, Nat.sub_diag. reflexivity.
Qed.

Lemma looks_up_In (h : heap) (keys : list string) (value : val) (s : loc * string) :
  looks_up h keys value s = false -> ~ In s (reads h keys value).
Proof.
  unfold looks_up. intros Hf Hin.
  assert (existsb (same_item s) (reads h keys value) = true) as Ht.
  { apply existsb_exists. exists s. split; [exact Hin|].
    unfold same_item. now rewrite Nat.eqb_refl, String.eqb_refl. }
  congruence.
Qed.

(** In a document that holds one map under two keys, a [set] through one
    key shows under the other. *)
Lemma set_shows_through_shared_map :
  get shared_heap shared_root "backup.host" VNone = VStr "localhost"
  /\ set shared_heap shared_root "primary.host" (VStr "10.0.0.9")
     = Some shared_heap_after_set
  /\ get shared_heap_after_set shared_root "backup.host" VNone = VStr "10.0.0.9".
Proof. repeat split. Qed.

(** X16.  [set] changes one item of one map of the document, the item
    it assigns (under the last key of its path, or under the first key
    that is missing, where the chain of new maps is hung in), and nothing
    else that was there.  So every [get] that does not look up that item
    returns what it returned before; where that is a map, it is the same
    object, with the items it had unless the item assigned is one of its
    own or of a map below it.  This is so whether or not the document
    holds a map in more than one place. *)
Theorem set_changes_one_item (h h' : heap) (config_data : val) (key : string)
    (value : val) :
  closed h = true ->
  within (List.length h) config_data = true ->
  set h config_data key value = Some h' ->
  exists s,
    assigned h (split "." key) config_data = Some s
    /\ same_but [s] h h'
    /\ forall key' default,
         looks_up h (split "." key') config_data s = false ->
         get h' config_data key' default = get h config_data key' default.
Proof.
  intros Hc Hw Hset.
  destruct (set_from_same_but value (split "." key) config_data h h' Hset)
    as (s & Hs & Hsame).
  exists s. split; [exact Hs|]. split; [exact Hsame|].
  intros key' default Hl. unfold get.
  rewrite (get_frame [s] h h' (split "." key') Hc Hsame config_data Hw);
    [reflexivity|].
  intros t Ht [<-|[]]. exact (looks_up_In _ _ _ _ Hl Ht).
Qed.

Lemma set_changes_one_item_witness :
  exists s,
    assigned shared_heap (split "." "primary.host") shared_root = Some s
    /\ same_but [s] shared_heap shared_heap_after_set
    /\ forall key' default,
         looks_up shared_heap (split "." key') shared_root s = false ->
         get shared_heap_after_set shared_root key' default
         = get shared_heap shared_root key' default.
Proof.
  apply (set_changes_one_item shared_heap shared_heap_after_set shared_root
           "primary.host" (VStr "10.0.0.9")); reflexivity.
Defined.

Lemma pyval_induction (P : pyval -> Prop) :
  P PNone -> (forall b, P (PBool b)) -> (forall n, P (PInt n)) ->
  (forall q, P (PFloat q)) -> (forall s, P (PStr s)) ->
  (forall l, Forall P l -> P (PList l)) ->
  (forall d, Forall (fun kv => P (snd kv)) d -> P (PDict d)) ->
  forall v, P v.
Proof.
  intros HN HB HI HF HS HL HD.
  fix IH 1. intros [ | b | n | q | s | l | d ].
  - exact HN.
  - apply HB.
  - apply HI.
  - apply HF.
  - apply HS.
  - apply HL. induction l as [|x l IHl]; constructor; [apply IH|exact IHl].
  - apply HD. induction d as [|[k x] d IHd]; constructor; [apply IH|exact IHd].
Qed.

Lemma val_induction (P : val -> Prop) :
  P VNone -> (forall b, P (VBool b)) -> (forall n, P (VInt n)) ->
  (forall q, P (VFloat q)) -> (forall s, P (VStr s)) ->
  (forall items, Forall P items -> P (VList items)) ->
  (forall l, P (VRef l)) ->
  forall v, P v.
Proof.
  intros HN HB HI HF HS HL HR.
  fix IH 1. intros [ | b | n | q | s | items | l ].
  - exact HN.
  - apply HB.
  - apply HI.
  - apply HF.
  - apply HS.
  - apply HL. induction items as [|x items IHi]; constructor; [apply IH|exact IHi].
  - apply HR.
Qed.

Lemma ranged_list (lo hi : nat) (items : list val) :
  ranged lo hi (VList items) = forallb (ranged lo hi) items.
Proof.
  cbn [ranged]. induction items as [|x items IH]; [reflexivity|].
  cbn [forallb]. now rewrite IH.
Qed.

Lemma ranged_mono (lo hi lo' hi' : nat) :
  (lo' <= lo)%nat -> (hi <= hi')%nat ->
  forall v, ranged lo hi v = true -> ranged lo' hi' v = true.
Proof.
  intros Hlo Hhi. induction v using val_induction; try reflexivity.
  - rewrite !ranged_list, !forallb_forall. intros Hall x Hx.
    rewrite List.Forall_forall in H. exact (H x Hx (Hall x Hx)).
  - cbn [ranged]. rewrite !andb_true_iff, !Nat.leb_le, !Nat.ltb_lt. lia.
Qed.

Lemma grows_by_new_refl (h : heap) : grows_by_new h h.
Proof. exists []. split; [now rewrite app_nil_r|constructor]. Qed.

Lemma grows_by_new_length (h h' : heap) :
  grows_by_new h h' -> (List.length h <= List.length h')%nat.
Proof. intros (ext & -> & _). rewrite length_app. lia. Qed.

Lemma ranged_maps_mono (lo hi lo' hi' : nat) (ext : list (dict val)) :
  (lo' <= lo)%nat -> (hi <= hi')%nat ->
  Forall (fun d : dict val => Forall (fun kv => ranged lo hi (snd kv) = true) d) ext ->
  Forall (fun d : dict val => Forall (fun kv => ranged lo' hi' (snd kv) = true) d) ext.
Proof.
  intros Hlo Hhi Hext.
  eapply List.Forall_impl; [|exact Hext]. intros d Hd.
  eapply List.Forall_impl; [|exact Hd]. intros kv Hkv.
  exact (ranged_mono lo hi lo' hi' Hlo Hhi _ Hkv).
Qed.

Lemma grows_by_new_trans (h h1 h2 : heap) :
  grows_by_new h h1 -> grows_by_new h1 h2 -> grows_by_new h h2.
Proof.
  intros (e1 & -> & H1) (e2 & -> & H2). exists (e1 ++ e2).
  split; [now rewrite app_assoc|].
  rewrite !length_app in *. apply List.Forall_app. split.
  - eapply ranged_maps_mono; [| |exact H1]; lia.
  - eapply ranged_maps_mono; [| |exact H2]; lia.
Qed.

Lemma grows_by_new_alloc (h h1 : heap) (d : dict val) :
  grows_by_new h h1 ->
  Forall (fun kv => ranged (List.length h) (List.length h1) (snd kv) = true) d ->
  grows_by_new h (h1 ++ [d]).
Proof.
  intros (e1 & -> & H1) Hd. exists (e1 ++ [d]).
  split; [now rewrite app_assoc|].
  rewrite !length_app in *. cbn [List.length]. apply List.Forall_app. split.
  - eapply ranged_maps_mono; [| |exact H1]; lia.
  - constructor; [|constructor].
    eapply List.Forall_impl; [|exact Hd]. intros kv Hkv.
    eapply ranged_mono; [| |exact Hkv]; lia.
Qed.

Lemma store_list_fold (c : heap) (l : list pyval) :
  Forall (fun v => forall c x h1, store v c = (x, h1) ->
                   grows_by_new c h1
                   /\ ranged (List.length c) (List.length h1) x = true) l ->
  forall (acc : list val) (c1 : heap) (items : list val) (h1 : heap),
    grows_by_new c c1 ->
    forallb (ranged (List.length c) (List.length c1)) acc = true ->
    fold_left (fun (acc : list val * heap) (x : pyval) =>
                 let '(x', h') := store x (snd acc) in (fst acc ++ [x'], h'))
              l (acc, c1) = (items, h1) ->
    grows_by_new c h1
    /\ forallb (ranged (List.length c) (List.length h1)) items = true.
Proof.
  induction 1 as [|v l Hv Hl IH]; intros acc c1 items h1 Hg Hacc Hfold.
  - cbn in Hfold. injection Hfold as <- <-. now split.
  - cbn [fold_left fst snd] in Hfold.
    destruct (store v c1) as [x' c2] eqn:Hs.
    destruct (Hv c1 x' c2 Hs) as [Hg2 Hx].
    pose proof (grows_by_new_length _ _ Hg) as Hl1.
    pose proof (grows_by_new_length _ _ Hg2) as Hl2.
    apply (IH (acc ++ [x']) c2 items h1); [| |exact Hfold].
    + exact (grows_by_new_trans _ _ _ Hg Hg2).
    + rewrite forallb_app. apply andb_true_iff. split.
      * rewrite forallb_forall in *. intros y Hy.
        eapply ranged_mono; [| |exact (Hacc y Hy)]; lia.
      * cbn [forallb]. rewrite andb_true_r.
        eapply ranged_mono; [| |exact Hx]; lia.
Qed.

Lemma store_dict_fold (c : heap) (d : list (string * pyval)) :
  Forall (fun kv => forall c x h1, store (snd kv) c = (x, h1) ->
                    grows_by_new c h1
                    /\ ranged (List.length c) (List.length h1) x = true) d ->
  forall (acc : dict val) (c1 : heap) (d' : dict val) (h1 : heap),
    grows_by_new c c1 ->
    Forall (fun kv => ranged (List.length c) (List.length c1) (snd kv) = true) acc ->
    fold_left (fun (acc : dict val * heap) (kx : string * pyval) =>
                 let '(x', h') := store (snd kx) (snd acc) in
                 (fst acc ++ [(fst kx, x')], h'))
              d (acc, c1) = (d', h1) ->
    grows_by_new c h1
    /\ Forall (fun kv => ranged (List.length c) (List.length h1) (snd kv) = true) d'.
Proof.
  induction 1 as [|kv d Hv Hd IH]; intros acc c1 d' h1 Hg Hacc Hfold.
  - cbn in Hfold. injection Hfold as <- <-. now split.
  - cbn [fold_left fst snd] in Hfold.
    destruct (store (snd kv) c1) as [x' c2] eqn:Hs.
    destruct (Hv c1 x' c2 Hs) as [Hg2 Hx].
    pose proof (grows_by_new_length _ _ Hg) as Hl1.
    pose proof (grows_by_new_length _ _ Hg2) as Hl2.
    apply (IH (acc ++ [(fst kv, x')]) c2 d' h1); [| |exact Hfold].
    + exact (grows_by_new_trans _ _ _ Hg Hg2).
    + apply List.Forall_app. split.
      * eapply List.Forall_impl; [|exact Hacc]. intros y Hy.
        eapply ranged_mono; [| |exact Hy]; lia.
      * constructor; [|constructor]. cbn [snd].
        eapply ranged_mono; [| |exact Hx]; lia.
Qed.

(** A stored literal adds maps after the maps there are, and refers to
    the maps it adds only. *)
Lemma store_adds (v : pyval) :
  forall c x h1, store v c = (x, h1) ->
                 grows_by_new c h1
                 /\ ranged (List.length c) (List.length h1) x = true.
Proof.
  induction v using pyval_induction; intros c x h1 Hs;
    try (injection Hs as <- <-; split; [apply grows_by_new_refl|reflexivity]).
  - cbn [store] in Hs.
    match type of Hs with context [fold_left ?f l ?a] =>
      destruct (fold_left f l a) as [items h'] eqn:Hfold end.
    injection Hs as <- <-.
    destruct (store_list_fold c l H [] c items h' (grows_by_new_refl c) eq_refl Hfold)
      as [Hg Hitems].
    split; [exact Hg|]. now rewrite ranged_list.
  - cbn [store] in Hs.
    match type of Hs with context [fold_left ?f d ?a] =>
      destruct (fold_left f d a) as [d' h'] eqn:Hfold end.
    injection Hs as <- <-.
    destruct (store_dict_fold c d H [] c d' h' (grows_by_new_refl c)
                (List.Forall_nil _) Hfold) as [Hg Hd'].
    pose proof (grows_by_new_length _ _ Hg) as Hl.
    split.
    + apply grows_by_new_alloc; assumption.
    + cbn [ranged]. rewrite length_app. cbn [List.length].
      apply andb_true_iff. rewrite Nat.leb_le, Nat.ltb_lt. lia.
Qed.

Lemma grown_refl (h : heap) : grown h h.
Proof.
  split; [lia|]. intros l k v Hi. left.
  split; [exact (item_allocated h l k v Hi)|exact Hi].
Qed.

Lemma ranged_ref (lo hi : nat) (l : loc) :
  ranged lo hi (VRef l) = true -> (lo <= l < hi)%nat.
Proof.
  cbn [ranged]. rewrite andb_true_iff, Nat.leb_le, Nat.ltb_lt. tauto.
Qed.

(** A map that a grown heap holds in one of its maps is a map of it. *)
Lemma grown_ref_allocated (h c : heap) (l l2 : loc) (k : string) :
  closed h = true -> grown h c -> item c l k = Some (VRef l2) ->
  (l2 < List.length c)%nat.
Proof.
  intros Hc [Hlen Hg] Hi. destruct (Hg l k _ Hi) as [[_ Hh]|Hr].
  - apply (closed_item h l k _ Hc) in Hh. apply ranged_ref in Hh. lia.
  - apply ranged_ref in Hr. lia.
Qed.

Lemma fold_left_None {A B} (f : option A -> B -> option A) (l : list B) :
  (forall b, f None b = None) -> fold_left f l None = None.
Proof. intros Hf. induction l as [|b l IH]; [reflexivity|]. cbn. now rewrite Hf. Qed.

(** The two ways of a turn of the loop of [_deep_update]. *)
Lemma merge_or_assign {T} (value : pyval) (held : option val) (merge : loc -> T)
    (assign : T) :
  (exists items l, value = PDict items /\ held = Some (VRef l)
                   /\ match value, held with
                      | PDict _, Some (VRef l) => merge l
                      | _, _ => assign
                      end = merge l)
  \/ ((forall items l, value = PDict items -> held = Some (VRef l) -> False)
      /\ match value, held with
         | PDict _, Some (VRef l) => merge l
         | _, _ => assign
         end = assign).
Proof.
  destruct value; try (right; split; [intros; discriminate|]; now destruct held as [[]|]).
  destruct held as [[]|]; try (right; split; [intros; discriminate|reflexivity]).
  left. eauto.
Qed.

Lemma item_grows (c h1 : heap) (l : loc) (k : string) (v : val) :
  grows_by_new c h1 -> item h1 l k = Some v ->
  ((l < List.length c)%nat /\ item c l k = Some v)
  \/ ranged (List.length c) (List.length h1) v = true.
Proof.
  intros (ext & -> & Hext) Hi.
  destruct (Nat.lt_ge_cases l (List.length c)) as [Hl|Hl].
  - left. split; [exact Hl|]. now rewrite item_app in Hi.
  - right. unfold item in Hi. rewrite lookup_app_r in Hi by exact Hl.
    destruct (ext !! (l - List.length c)%nat) as [d|] eqn:Hd; [|discriminate].
    cbn in Hi. rewrite List.Forall_forall in Hext.
    specialize (Hext d (proj1 (list_elem_of_In _ _) (list_elem_of_lookup_2 _ _ _ Hd))).
    rewrite List.Forall_forall in Hext.
    exact (Hext (k, v) (dict_get_Some_In k v d Hi)).
Qed.

(** One turn of the loop of [_deep_update]. *)
Lemma deep_update_turn (h : heap) (kv : string * pyval) :
  closed h = true -> merges_within h (snd kv) ->
  forall (c c1 : heap) (base_dict : loc),
    grown h c -> (base_dict < List.length c)%nat ->
    match snd kv, item c base_dict (fst kv) with
    | PDict _, Some (VRef l) => _deep_update (snd kv) l c
    | _, _ =>
        let '(x, h1) := store (snd kv) c in
        d ← h1 !! base_dict;
        Some (<[base_dict := dict_set (fst kv) x d]> h1)
    end = Some c1 ->
    grown h c1
    /\ (List.length c <= List.length c1)%nat
    /\ forall l k,
         (l < List.length h)%nat -> item c l k = item h l k ->
         ((base_dict < List.length h)%nat ->
          ~ In (l, k) match snd kv, item h base_dict (fst kv) with
                      | PDict _, Some (VRef l) => touched h (snd kv) l
                      | _, _ => [(base_dict, fst kv)]
                      end) ->
         item c1 l k = item h l k.
Proof.
  intros Hc IH c c1 b Hg Hb Hturn.
  destruct Hg as [Hlen Hitems].
  destruct (merge_or_assign (snd kv) (item c b (fst kv))
              (fun l => _deep_update (snd kv) l c)
              (let '(x, h1) := store (snd kv) c in
               d ← h1 !! b; Some (<[b := dict_set (fst kv) x d]> h1)))
    as [(items & l2 & Hv & Hheld & Hm)|[Hno Hm]];
    rewrite Hm in Hturn; clear Hm.
  - (* the map is merged into the map the key holds *)
    pose proof (grown_ref_allocated h c b l2 (fst kv) Hc (conj Hlen Hitems) Hheld) as Hl2.
    destruct (IH c c1 l2 (conj Hlen Hitems) Hl2 Hturn) as (Hg1 & Hlen1 & Hsame).
    split; [exact Hg1|]. split; [exact Hlen1|].
    intros l k Hl Hck Hnot. apply (Hsame l k Hl Hck).
    intros Hl2old. destruct (Hitems b (fst kv) _ Hheld) as [[Hbold Hh]|Hr].
    + specialize (Hnot Hbold). rewrite Hh, Hv in Hnot. rewrite Hv. exact Hnot.
    + apply ranged_ref in Hr. lia.
  - (* the value is stored under the key *)
    destruct (store (snd kv) c) as [x h1] eqn:Hs.
    destruct (store_adds (snd kv) c x h1 Hs) as [Hgrow Hx].
    pose proof (grows_by_new_length _ _ Hgrow) as Hlen1.
    destruct (h1 !! b) as [d|] eqn:Hd; [|discriminate].
    cbn in Hturn. injection Hturn as <-.
    assert (Hassign : forall l k, (l, k) <> (b, fst kv) ->
              item (<[b := dict_set (fst kv) x d]> h1) l k = item h1 l k)
      by (intros l k; apply item_assign; exact Hd).
    split; [|split].
    + split; [rewrite length_insert; lia|].
      intros l k v Hi. rewrite length_insert.
      destruct (decide ((l, k) = (b, fst kv))) as [[= -> ->]|Hne].
      * rewrite item_insert_eq, dict_get_set_eq in Hi
          by exact (lookup_lt_Some _ _ _ Hd).
        injection Hi as <-. right.
        eapply ranged_mono; [| |exact Hx]; lia.
      * rewrite (Hassign l k Hne) in Hi.
        destruct (item_grows c h1 l k v Hgrow Hi) as [[Hl Hci]|Hr].
        -- destruct (Hitems l k v Hci) as [Hold|Hr]; [now left|right].
           eapply ranged_mono; [| |exact Hr]; lia.
        -- right. eapply ranged_mono; [| |exact Hr]; lia.
    + rewrite length_insert. exact Hlen1.
    + intros l k Hl Hck Hnot.
      destruct (decide ((l, k) = (b, fst kv))) as [[= -> ->]|Hne].
      * exfalso. specialize (Hnot Hl).
        destruct (merge_or_assign (snd kv) (item h b (fst kv))
                    (fun l => touched h (snd kv) l) [(b, fst kv)])
          as [(items & l2 & Hv & Hheld & Hm)|[_ Hm]];
          rewrite Hm in Hnot; clear Hm.
        -- rewrite <- Hck in Hheld. exact (Hno items l2 Hv Hheld).
        -- apply Hnot. now left.
      * rewrite (Hassign l k Hne). rewrite <- Hck.
        destruct Hgrow as (ext & -> & _). apply item_app. lia.
Qed.

(** [_deep_update] assigns, in the maps there were, touched items
    only. *)
Lemma deep_update_merges (h : heap) :
  closed h = true -> forall update_dict, merges_within h update_dict.
Proof.
  intros Hc update_dict.
  induction update_dict as [ |b0|n0|q0|s0|l0 _|items IH] using pyval_induction;
    try (intros c c' b _ _ Hu; discriminate).
  induction IH as [|kv rest Hkv _ IHrest]; intros c c' b Hg Hb Hu.
  - cbn in Hu. injection Hu as <-.
    split; [exact Hg|]. split; [lia|]. intros l k _ Hck _. exact Hck.
  - cbn [_deep_update fold_left] in Hu.
    match type of Hu with
    | fold_left ?f rest ?first = _ =>
        destruct first as [c1|] eqn:Hturn;
        [|rewrite (fold_left_None f rest (fun _ => eq_refl)) in Hu; discriminate]
    end.
    cbn [mbind option_bind] in Hturn.
    destruct (deep_update_turn h kv Hc Hkv c c1 b Hg Hb Hturn) as (Hg1 & Hlen1 & Hsame1).
    destruct (IHrest c1 c' b Hg1 ltac:(lia) Hu) as (Hg2 & Hlen2 & Hsame2).
    split; [exact Hg2|]. split; [lia|].
    intros l k Hl Hck Hnot.
    apply (Hsame2 l k Hl).
    + apply (Hsame1 l k Hl Hck). intros Hbold Hin.
      apply (Hnot Hbold). cbn [touched flat_map]. apply in_or_app. now left.
    + intros Hbold Hin.
      apply (Hnot Hbold). cbn [touched flat_map]. apply in_or_app. now right.
Qed.

Lemma looks_up_any_In (h : heap) (keys : list string) (value : val)
    (items : list (loc * string)) :
  looks_up_any h keys value items = false ->
  forall s, In s (reads h keys value) -> ~ In s items.
Proof.
  unfold looks_up_any. intros Hf s Hs Hin.
  assert (existsb (looks_up h keys value) items = true) as Ht; [|congruence].
  apply existsb_exists. exists s. split; [exact Hin|].
  destruct (looks_up h keys value s) eqn:Hl; [reflexivity|].
  exfalso. exact (looks_up_In _ _ _ _ Hl Hs).
Qed.

(** In a document that holds one map under two keys, an update of one
    key shows under the other. *)
Lemma update_shows_through_shared_map :
  update shared_heap shared_root (PDict [ ("primary", PDict [ ("port", PInt 8883) ]) ])
  = Some [ [ ("primary", VRef 1%nat); ("backup", VRef 1%nat); ("camera", VRef 2%nat) ];
           [ ("host", VStr "localhost"); ("port", VInt 8883) ];
           [ ("fps", VInt 30) ] ].
Proof. reflexivity. Qed.

(** X19.  [update] merges, it does not replace.  With the update given
    as a literal, the items of the maps of the document that it assigns
    are among those found by following the update through the maps as
    they are before the call ([touched]): a key of the update whose
    value and whose holding in the document are both maps is followed
    into that map, every other key is an item assigned.  Every other
    item of every map holds what it held, so every [get] that looks up
    no touched item returns what it returned before; where that is a
    map, it is the same object, with the items it had unless a touched
    item is one of its own or of a map below it.  This is so whether or
    not the document holds a map in more than one place. *)
Theorem update_changes_touched_items (h h' : heap) (config_data : val)
    (updates : pyval) :
  closed h = true ->
  within (List.length h) config_data = true ->
  update h config_data updates = Some h' ->
  same_but (touched_by h config_data updates) h h'
  /\ forall key' default,
       looks_up_any h (split "." key') config_data
         (touched_by h config_data updates) = false ->
       get h' config_data key' default = get h config_data key' default.
Proof.
  intros Hc Hw Hu.
  assert (Hsame : same_but (touched_by h config_data updates) h h').
  { unfold update in Hu.
    destruct updates as [ | | | | | |[|kv rest]]; try discriminate.
    - injection Hu as <-. split; [lia|reflexivity].
    - destruct config_data; try discriminate.
      apply Nat.ltb_lt in Hw.
      destruct (deep_update_merges h Hc (PDict (kv :: rest)) h h' l
                  (grown_refl h) Hw Hu) as (_ & Hlen & Hsame).
      split; [exact Hlen|].
      intros l0 k0 Hl0 Hnot. apply (Hsame l0 k0 Hl0 eq_refl).
      intros _. exact Hnot. }
  split; [exact Hsame|].
  intros key' default Hl. unfold get.
  rewrite (get_frame _ h h' (split "." key') Hc Hsame config_data Hw);
    [reflexivity|].
  exact (looks_up_any_In _ _ _ _ Hl).
Qed.

Lemma update_changes_touched_items_witness :
  same_but (touched_by shared_heap shared_root camera_updates)
    shared_heap shared_heap_after_update
  /\ forall key' default,
       looks_up_any shared_heap (split "." key') shared_root
         (touched_by shared_heap shared_root camera_updates) = false ->
       get shared_heap_after_update shared_root key' default
       = get shared_heap shared_root key' default.
Proof.
  apply (update_changes_touched_items shared_heap shared_heap_after_update
           shared_root camera_updates); reflexivity.
Defined.

End ConfigObjectsFacts.

(** ** Facts about setting and loading the configuration *)

Module ConfigUpdateFacts.
Import Py PyFacts Config ConfigUpdate.

Lemma dict_set_set {V} (k : string) (v v' : V) (d : dict V) :
  dict_set k v' (dict_set k v d) = dict_set k v' d.
Proof.
  induction d as [|[k0 v0] d IH]; cbn [dict_set].
  - now rewrite String.eqb_refl.
  - destruct (String.eqb k k0) eqn:E; cbn [dict_set]; rewrite E; [reflexivity|].
    now rewrite IH.
Qed.

Lemma get_path_empty_map (keys : list string) :
  keys <> [] -> get_path keys (PDict []) = None.
Proof. destruct keys; [congruence|reflexivity]. Qed.

Lemma diverge_nonempty (p q : list string) : diverge p q = true -> q <> [].
Proof. destruct p, q; cbn; congruence. Qed.

Lemma set_path_frame (p : list string) (v : pyval) :
  forall (q : list string) (doc doc' : pyval),
    diverge p q = true ->
    set_path p v doc = Some doc' ->
    get_path q doc' = get_path q doc.
Proof.
  induction p as [|k ks IH]; intros q doc doc' Hdiv Hset; [discriminate|].
  destruct q as [|k' qs]; [discriminate|]. cbn [diverge] in Hdiv.
  destruct ks as [|k2 ks].
  - (* the last key: an item assignment *)
    destruct (String.eqb_spec k k') as [->|Hne]; [destruct qs; discriminate|].
    destruct doc; try discriminate. cbn in Hset. injection Hset as <-.
    cbn [get_path py_subscript]. now rewrite dict_get_set_ne.
  - destruct doc as [| | | | | |d]; try discriminate.
    rewrite ConfigFacts.set_path_descend in Hset.
    destruct (set_path (k2 :: ks) v
                match dict_get k d with Some c => c | None => PDict [] end)
      as [child'|] eqn:Hchild; [|discriminate].
    injection Hset as <-. cbn [get_path py_subscript].
    destruct (String.eqb_spec k k') as [<-|Hne].
    + rewrite dict_get_set_eq.
      rewrite (IH qs _ _ Hdiv Hchild).
      destruct (dict_get k d) as [c|]; [reflexivity|].
      apply get_path_empty_map. now apply diverge_nonempty with (k2 :: ks).
    + now rewrite dict_get_set_ne.
Qed.

Lemma set_path_overwrite (p : list string) (v v' : pyval) :
  forall (doc doc1 : pyval),
    set_path p v doc = Some doc1 ->
    set_path p v' doc1 = set_path p v' doc.
Proof.
  induction p as [|k ks IH]; intros doc doc1 Hset; [discriminate|].
  destruct ks as [|k2 ks].
  - destruct doc; try discriminate. cbn in Hset. injection Hset as <-.
    cbn. now rewrite dict_set_set.
  - destruct doc as [| | | | | |d]; try discriminate.
    rewrite ConfigFacts.set_path_descend in Hset.
    destruct (set_path (k2 :: ks) v
                match dict_get k d with Some c => c | None => PDict [] end)
      as [child1|] eqn:Hchild; [|discriminate].
    injection Hset as <-.
    rewrite !ConfigFacts.set_path_descend, dict_get_set_eq, (IH _ _ Hchild).
    destruct (set_path (k2 :: ks) v'
                match dict_get k d with Some c => c | None => PDict [] end);
      [|reflexivity].
    now rewrite dict_set_set.
Qed.

(** X17.  The last write wins: a [set] of a key that has just been set
    gives the same document as that [set] alone, so an earlier value of
    the key leaves no trace (and setting the same value twice is the same
    as setting it once). *)
Theorem set_overwrites (doc doc1 : pyval) (key : string) (value value' : pyval) :
  set doc key value = Some doc1 ->
  set doc1 key value' = set doc key value'.
Proof. intros Hset. unfold set in *. now apply set_path_overwrite with value. Qed.

Lemma set_overwrites_witness :
  set (default (PDict []) (set _get_default_config "mqtt.host" (PStr "a")))
      "mqtt.host" (PStr "b")
  = set _get_default_config "mqtt.host" (PStr "b").
Proof.
  apply (set_overwrites _get_default_config
           (default (PDict []) (set _get_default_config "mqtt.host" (PStr "a")))
           "mqtt.host" (PStr "a") (PStr "b")).
  reflexivity.
Defined.

Lemma override_is_set (config_data : pyval) (section k : string) (x : pyval) :
  override config_data section k x = set_path [section; k] x config_data.
Proof.
  destruct config_data as [| | | | | |d]; try reflexivity.
  unfold override. rewrite ConfigFacts.set_path_descend.
  destruct (dict_get section d) as [c|] eqn:Hs.
  - rewrite Hs. cbn [mbind option_bind].
    destruct c; reflexivity.
  - rewrite dict_get_set_eq. cbn [mbind option_bind py_setitem set_path].
    now rewrite dict_set_set.
Qed.

Lemma apply_override_get (s section k : string) (convert : string -> option pyval)
    (doc doc' : pyval) :
  apply_override (Some s) section k convert doc = Some doc' ->
  s <> "" ->
  exists x, convert s = Some x /\ get_path [section; k] doc' = Some x.
Proof.
  unfold apply_override. intros H Hs.
  destruct (String.eqb_spec s "") as [->|_]; [congruence|]. cbn [negb] in H.
  destruct (convert s) as [x|]; cbn [mbind option_bind] in H; [|discriminate].
  exists x. split; [reflexivity|].
  rewrite override_is_set in H.
  exact (ConfigFacts.get_path_set_path _ _ _ _ H).
Qed.

Lemma apply_override_frame (present : option string) (section k : string)
    (convert : string -> option pyval) (doc doc' : pyval) (q : list string) :
  apply_override present section k convert doc = Some doc' ->
  diverge [section; k] q = true ->
  get_path q doc' = get_path q doc.
Proof.
  unfold apply_override. intros H Hdiv.
  destruct present as [s|]; [|now injection H as <-].
  destruct (negb (String.eqb s "")); [|now injection H as <-].
  destruct (convert s) as [x|]; cbn [mbind option_bind] in H; [|discriminate].
  rewrite override_is_set in H.
  exact (set_path_frame _ _ _ _ _ Hdiv H).
Qed.

(** X20.  The environment overrides what the file says: when
    [_load_env_overrides] returns, each of the four variables that is set
    to a string that is not empty is what [get] returns for its key
    afterwards - the host and the port of the broker, the grid id and the
    log level - and a later override does not disturb an earlier one. *)
Theorem env_overrides_in_force (getenv : string -> option string)
    (int : string -> option Z) (document config_data : pyval) :
  _load_env_overrides getenv int document = Some config_data ->
  (forall s, getenv "DHSILED_MQTT_HOST" = Some s -> s <> "" ->
     forall default, get config_data "mqtt.host" default = PStr s)
  /\ (forall s, getenv "DHSILED_MQTT_PORT" = Some s -> s <> "" ->
        exists n, int s = Some n
                  /\ forall default, get config_data "mqtt.port" default = PInt n)
  /\ (forall s, getenv "DHSILED_GRID_ID" = Some s -> s <> "" ->
        forall default, get config_data "grid.id" default = PStr s)
  /\ (forall s, getenv "DHSILED_LOG_LEVEL" = Some s -> s <> "" ->
        forall default, get config_data "logging.level" default = PStr s).
Proof.
  unfold _load_env_overrides. intros H.
  destruct (apply_override (getenv "DHSILED_MQTT_HOST") "mqtt" "host" _ document)
    as [doc1|] eqn:H1; cbn [mbind option_bind] in H; [|discriminate].
  destruct (apply_override (getenv "DHSILED_MQTT_PORT") "mqtt" "port" _ doc1)
    as [doc2|] eqn:H2; cbn [mbind option_bind] in H; [|discriminate].
  destruct (apply_override (getenv "DHSILED_GRID_ID") "grid" "id" _ doc2)
    as [doc3|] eqn:H3; cbn [mbind option_bind] in H; [|discriminate].
  rename H into H4.
  repeat split.
  - intros s Hs Hne default. rewrite Hs in H1.
    destruct (apply_override_get _ _ _ _ _ _ H1 Hne) as (x & [= <-] & Hget).
    unfold get. change (split "." "mqtt.host") with ["mqtt"; "host"].
    rewrite (apply_override_frame _ _ _ _ _ _ ["mqtt"; "host"] H4 eq_refl).
    rewrite (apply_override_frame _ _ _ _ _ _ ["mqtt"; "host"] H3 eq_refl).
    rewrite (apply_override_frame _ _ _ _ _ _ ["mqtt"; "host"] H2 eq_refl).
    now rewrite Hget.
  - intros s Hs Hne. rewrite Hs in H2.
    destruct (apply_override_get _ _ _ _ _ _ H2 Hne) as (x & Hx & Hget).
    destruct (int s) as [n|]; [|discriminate]. injection Hx as <-.
    exists n. split; [reflexivity|]. intros default.
    unfold get. change (split "." "mqtt.port") with ["mqtt"; "port"].
    rewrite (apply_override_frame _ _ _ _ _ _ ["mqtt"; "port"] H4 eq_refl).
    rewrite (apply_override_frame _ _ _ _ _ _ ["mqtt"; "port"] H3 eq_refl).
    now rewrite Hget.
  - intros s Hs Hne default. rewrite Hs in H3.
    destruct (apply_override_get _ _ _ _ _ _ H3 Hne) as (x & [= <-] & Hget).
    unfold get. change (split "." "grid.id") with ["grid"; "id"].
    rewrite (apply_override_frame _ _ _ _ _ _ ["grid"; "id"] H4 eq_refl).
    now rewrite Hget.
  - intros s Hs Hne default. rewrite Hs in H4.
    destruct (apply_override_get _ _ _ _ _ _ H4 Hne) as (x & [= <-] & Hget).
    unfold get. change (split "." "logging.level") with ["logging"; "level"].
    now rewrite Hget.
Qed.

Lemma env_overrides_in_force_witness :
  get (load_config sample_env sample_int (Some (Some sample_file))) "mqtt.host" PNone
  = PStr "broker.local"
  /\ get (load_config sample_env sample_int (Some (Some sample_file))) "mqtt.qos" PNone
     = PInt 2.
Proof.
  split; [|reflexivity].
  apply (proj1 (env_overrides_in_force sample_env sample_int sample_file
                  (load_config sample_env sample_int (Some (Some sample_file)))
                  eq_refl) "broker.local" eq_refl).
  discriminate.
Defined.

(** X21.  [load_config] falls back to the built-in defaults, dropping
    the file and every override, when there is no file, when the file
    cannot be read, and when the variable for the port of the broker is
    set to a string that is not an integer - whatever the file holds and
    whatever the other variables say. *)
Theorem load_config_falls_back (getenv : string -> option string)
    (int : string -> option Z) (file : option (option pyval)) :
  file = None \/ file = Some None
  \/ (exists s, getenv "DHSILED_MQTT_PORT" = Some s /\ s <> "" /\ int s = None) ->
  load_config getenv int file = _get_default_config.
Proof.
  intros [->|[->|(s & Hs & Hne & Hint)]]; [reflexivity|reflexivity|].
  destruct file as [[document|]|]; [|reflexivity|reflexivity].
  unfold load_config, _load_env_overrides.
  destruct (apply_override (getenv "DHSILED_MQTT_HOST") "mqtt" "host" _ document)
    as [doc1|]; cbn [mbind option_bind]; [|reflexivity].
  rewrite Hs. unfold apply_override at 3.
  destruct (String.eqb_spec s "") as [->|_]; [congruence|].
  cbn [negb]. rewrite Hint. reflexivity.
Qed.

Lemma load_config_falls_back_witness :
  load_config (fun name : string =>
                 if String.eqb name "DHSILED_MQTT_PORT" then Some "mqtt" else None)
    sample_int (Some (Some sample_file))
  = _get_default_config.
Proof.
  apply (load_config_falls_back
           (fun name : string =>
              if String.eqb name "DHSILED_MQTT_PORT" then Some "mqtt" else None)
           sample_int (Some (Some sample_file))).
  right. right. exists "mqtt". repeat split. discriminate.
Defined.

End ConfigUpdateFacts.

(** ** Facts about the alert endpoints, the system health and the topics *)

Module ApiEndpointsFacts.
Import Py PyFacts ApiServer ApiEndpoints.

(** *** Strings: [in] and [split] on a topic built from a grid id *)

Lemma append_nil (t : string) : ("" ++ t)%string = t.
Proof. reflexivity. Qed.

Lemma append_cons (c : ascii) (s t : string) :
  (String c s ++ t)%string = String c (s ++ t)%string.
Proof. reflexivity. Qed.

Lemma prefix_empty (s : string) : String.prefix "" s = true.
Proof. destruct s; reflexivity. Qed.

Lemma no_slash_cons (a : ascii) (s : string) :
  contains "/" (String a s) = false -> a <> "/"%char /\ contains "/" s = false.
Proof.
  cbn [contains String.prefix].
  destruct (ascii_dec "/" a) as [<-|Ha].
  - now rewrite prefix_empty.
  - cbn [orb]. intros H. split; [congruence|exact H].
Qed.

Lemma prefix_past_slash (n u t : string) :
  contains "/" n = false ->
  String.prefix n (u ++ String "/" t) = String.prefix n u.
Proof.
  revert u. induction n as [|a n IH]; intros u Hn;
    [now rewrite !prefix_empty|].
  apply no_slash_cons in Hn as [Ha Hn].
  destruct u as [|c u]; rewrite ?append_nil, ?append_cons; cbn [String.prefix].
  - destruct (ascii_dec a "/") as [->|_]; [congruence|reflexivity].
  - destruct (ascii_dec a c); [|reflexivity]. now apply IH.
Qed.

(** A needle without a slash lies on one side of a slash. *)
Lemma contains_past_slash (n s t : string) :
  contains "/" n = false -> n <> "" ->
  contains n (s ++ String "/" t) = contains n s || contains n t.
Proof.
  intros Hn Hne. induction s as [|c s IH].
  - rewrite append_nil.
    replace (contains n "") with false by (destruct n; [congruence|reflexivity]).
    cbn [orb contains].
    replace (String.prefix n (String "/" t)) with false; [reflexivity|].
    destruct n as [|a n]; [congruence|]. apply no_slash_cons in Hn as [Ha _].
    cbn [String.prefix]. destruct (ascii_dec a "/"); [congruence|reflexivity].
  - rewrite append_cons. cbn [contains]. rewrite IH.
    rewrite <- append_cons, prefix_past_slash by exact Hn.
    now rewrite orb_assoc.
Qed.

Lemma split_no_sep (s : string) : no_slash s -> split "/" s = [s].
Proof.
  unfold no_slash. induction s as [|c s IH]; [reflexivity|].
  intros H. apply no_slash_cons in H as [Hc Hs]. cbn [split].
  destruct (Ascii.eqb_spec c "/") as [->|_]; [congruence|].
  now rewrite (IH Hs).
Qed.

Lemma split_past_slash (s t : string) :
  no_slash s -> split "/" (s ++ String "/" t) = s :: split "/" t.
Proof.
  unfold no_slash. induction s as [|c s IH]; [reflexivity|].
  intros H. apply no_slash_cons in H as [Hc Hs].
  rewrite append_cons. cbn [split].
  destruct (Ascii.eqb_spec c "/") as [->|_]; [congruence|].
  now rewrite (IH Hs).
Qed.

Lemma grid_topic_parts (grid_id kind : string) :
  grid_topic grid_id kind
  = ("dhsiled" ++ String "/" ("grids" ++ String "/" (grid_id ++ String "/" kind)))%string.
Proof. reflexivity. Qed.

Lemma grid_topic_split (grid_id kind : string) :
  no_slash grid_id ->
  nth_error (split "/" (grid_topic grid_id kind)) 2 = Some grid_id.
Proof.
  intros Hg. rewrite grid_topic_parts.
  rewrite (split_past_slash "dhsiled") by reflexivity.
  rewrite (split_past_slash "grids") by reflexivity.
  now rewrite (split_past_slash grid_id) by exact Hg.
Qed.

Lemma grid_topic_contains (n grid_id kind : string) :
  contains "/" n = false -> n <> "" ->
  contains n (grid_topic grid_id kind)
  = contains n "dhsiled" || (contains n "grids" || (contains n grid_id || contains n kind)).
Proof.
  intros Hn Hne. rewrite grid_topic_parts.
  now rewrite !contains_past_slash by assumption.
Qed.

(** X22.  What a grid publishes reaches its store: for a grid id without
    a slash that does not contain the words status and alerts, a message
    on the status topic of the grid becomes the state of that grid, an
    alert (a JSON object) on its alert topic is appended to the alert ring
    with the time of arrival, and a health record on its health topic is
    appended to the health ring under the grid id. *)
Theorem grid_topics_reach_their_store (s : stores) (grid_id received_at : string)
    (payload : pyval) (fields : dict pyval) :
  no_slash grid_id ->
  contains "status" grid_id = false ->
  contains "alerts" grid_id = false ->
  grid_states
    (on_mqtt_message s {| msg_topic := grid_topic grid_id "status";
                          msg_payload := Some payload;
                          msg_received_at := received_at |})
  = dict_set grid_id payload (grid_states s)
  /\ alert_history
       (on_mqtt_message s {| msg_topic := grid_topic grid_id "alerts";
                             msg_payload := Some (PDict fields);
                             msg_received_at := received_at |})
     = append_bounded 1000 (PDict (dict_set "received_at" (PStr received_at) fields))
         (alert_history s)
  /\ health_history
       (on_mqtt_message s {| msg_topic := grid_topic grid_id "health";
                             msg_payload := Some (PDict fields);
                             msg_received_at := received_at |})
     = append_bounded 500 (PDict (dict_set "grid_id" (PStr grid_id) fields))
         (health_history s).
Proof.
  intros Hslash Hstatus Halerts.
  assert (Hc : forall n kind, contains "/" n = false -> n <> "" ->
             contains n (grid_topic grid_id kind)
             = contains n "dhsiled" || (contains n "grids"
                 || (contains n grid_id || contains n kind)))
    by (intros; now apply grid_topic_contains).
  split; [|split].
  - unfold on_mqtt_message, handle. cbn [msg_topic msg_payload mbind option_bind].
    rewrite (Hc "status" "status") by (reflexivity || discriminate).
    rewrite Hstatus. cbn [orb].
    replace (contains "status" "dhsiled" || (contains "status" "grids"
               || contains "status" "status")) with true by reflexivity.
    rewrite grid_topic_split by exact Hslash. reflexivity.
  - unfold on_mqtt_message, handle. cbn [msg_topic msg_payload mbind option_bind].
    rewrite (Hc "status" "alerts") by (reflexivity || discriminate).
    rewrite Hstatus.
    replace (contains "status" "dhsiled" || (contains "status" "grids"
               || (false || contains "status" "alerts"))) with false by reflexivity.
    rewrite (Hc "alerts" "alerts") by (reflexivity || discriminate).
    rewrite Halerts.
    replace (contains "alerts" "dhsiled" || (contains "alerts" "grids"
               || (false || contains "alerts" "alerts"))) with true by reflexivity.
    reflexivity.
  - unfold on_mqtt_message, handle. cbn [msg_topic msg_payload mbind option_bind].
    rewrite (Hc "status" "health") by (reflexivity || discriminate).
    rewrite Hstatus.
    replace (contains "status" "dhsiled" || (contains "status" "grids"
               || (false || contains "status" "health"))) with false by reflexivity.
    rewrite (Hc "alerts" "health") by (reflexivity || discriminate).
    rewrite Halerts.
    replace (contains "alerts" "dhsiled" || (contains "alerts" "grids"
               || (false || contains "alerts" "health"))) with false by reflexivity.
    rewrite (Hc "health" "health") by (reflexivity || discriminate).
    replace (contains "health" "health") with true by reflexivity.
    rewrite !orb_true_r.
    rewrite grid_topic_split by exact Hslash. reflexivity.
Qed.

Lemma grid_topics_reach_their_store_witness :
  grid_states
    (on_mqtt_message initial_stores
       {| msg_topic := "dhsiled/grids/G01/status";
          msg_payload := Some (PDict [ ("status", PStr "online") ]);
          msg_received_at := "t" |})
  = [ ("G01", PDict [ ("status", PStr "online") ]) ].
Proof.
  apply (proj1 (grid_topics_reach_their_store initial_stores "G01" "t"
                  (PDict [ ("status", PStr "online") ]) []
                  eq_refl eq_refl eq_refl)).
Defined.

(** X23.  A grid whose id contains the word status has no alerts and no
    health records at the server: every message on its alert topic and on
    its health topic is taken for a status message, so both rings stay as
    they were. *)
Theorem status_in_grid_id_hides_alerts (s : stores) (grid_id kind : string)
    (payload : option pyval) (received_at : string) :
  contains "status" grid_id = true ->
  let m := {| msg_topic := grid_topic grid_id kind; msg_payload := payload;
              msg_received_at := received_at |} in
  alert_history (on_mqtt_message s m) = alert_history s
  /\ health_history (on_mqtt_message s m) = health_history s.
Proof.
  intros Hg m.
  assert (Ht : contains "status" (msg_topic m) = true).
  { unfold m. cbn [msg_topic].
    rewrite grid_topic_contains by (reflexivity || discriminate).
    rewrite Hg. now rewrite !orb_true_r. }
  rewrite ApiServerFacts.on_mqtt_message_alerts, ApiServerFacts.on_mqtt_message_health.
  unfold delivered_alert, delivered_health. now rewrite Ht.
Qed.

Lemma status_in_grid_id_hides_alerts_witness :
  alert_history
    (on_mqtt_message initial_stores
       {| msg_topic := "dhsiled/grids/status-board/alerts";
          msg_payload := Some (PDict [ ("id", PStr "ALT_1") ]);
          msg_received_at := "t" |})
  = [].
Proof.
  apply (proj1 (status_in_grid_id_hides_alerts initial_stores "status-board" "alerts"
                  (Some (PDict [ ("id", PStr "ALT_1") ])) "t" eq_refl)).
Defined.

(** *** Alerts by id *)

Lemma find_alert_found (alert_id : string) (history : list pyval) (i : nat)
    (alert : pyval) :
  find_alert alert_id history = Some (Some (i, alert)) ->
  history !! i = Some alert /\ py_get "id" PNone alert = Some (PStr alert_id).
Proof.
  revert i. induction history as [|a rest IH]; intros i; [discriminate|].
  cbn [find_alert]. destruct (py_get "id" PNone a) as [id|] eqn:Hid;
    cbn [mbind option_bind]; [|discriminate].
  destruct (eq_str id alert_id) eqn:Heq.
  - intros [= <- <-]. split; [reflexivity|].
    destruct id; try discriminate. cbn in Heq. apply String.eqb_eq in Heq.
    now subst.
  - destruct (find_alert alert_id rest) as [[[j x]|]|]; cbn [mbind option_bind];
      try discriminate.
    intros [= <- <-]. now apply IH.
Qed.

Lemma find_alert_insert (alert_id : string) (history : list pyval) (i : nat)
    (alert alert' : pyval) :
  find_alert alert_id history = Some (Some (i, alert)) ->
  py_get "id" PNone alert' = py_get "id" PNone alert ->
  find_alert alert_id (<[i := alert']> history) = Some (Some (i, alert')).
Proof.
  revert i. induction history as [|a rest IH]; intros i; [discriminate|].
  cbn [find_alert]. destruct (py_get "id" PNone a) as [id|] eqn:Hid;
    cbn [mbind option_bind]; [|discriminate].
  destruct (eq_str id alert_id) eqn:Heq.
  - intros [= <- <-] Hsame. cbn [find_alert]. 
    change (<[0%nat := alert']> (a :: rest)) with (alert' :: rest).
    cbn [find_alert]. rewrite Hsame, Hid. cbn [mbind option_bind]. now rewrite Heq.
  - destruct (find_alert alert_id rest) as [[[j x]|]|] eqn:Hrest;
      cbn [mbind option_bind]; try discriminate.
    intros [= <- <-] Hsame.
    change (<[S j := alert']> (a :: rest)) with (a :: <[j := alert']> rest).
    cbn [find_alert]. rewrite Hid. cbn [mbind option_bind]. rewrite Heq.
    now rewrite (IH j eq_refl Hsame).
Qed.

Lemma find_alert_insert_other (alert_id other : string) (history : list pyval)
    (i : nat) (alert alert' : pyval) :
  other <> alert_id ->
  find_alert alert_id history = Some (Some (i, alert)) ->
  py_get "id" PNone alert' = py_get "id" PNone alert ->
  find_alert other (<[i := alert']> history) = find_alert other history.
Proof.
  intros Hne. revert i. induction history as [|a rest IH]; intros i; [discriminate|].
  cbn [find_alert]. destruct (py_get "id" PNone a) as [id|] eqn:Hid;
    cbn [mbind option_bind]; [|discriminate].
  destruct (eq_str id alert_id) eqn:Heq.
  - intros [= <- <-] Hsame.
    change (<[0%nat := alert']> (a :: rest)) with (alert' :: rest).
    cbn [find_alert]. rewrite Hsame, Hid. cbn [mbind option_bind].
    destruct id; try discriminate. cbn in Heq. apply String.eqb_eq in Heq. subst.
    cbn [eq_str]. destruct (String.eqb_spec alert_id other); [congruence|reflexivity].
  - destruct (find_alert alert_id rest) as [[[j x]|]|] eqn:Hrest;
      cbn [mbind option_bind]; try discriminate.
    intros [= <- <-] Hsame.
    change (<[S j := alert']> (a :: rest)) with (a :: <[j := alert']> rest).
    cbn [find_alert]. rewrite Hid. cbn [mbind option_bind].
    now rewrite (IH j eq_refl Hsame).
Qed.

Lemma get_alert_found (s : stores) (alert_id : string) (alert : pyval) :
  get_alert s alert_id = Ok alert ->
  exists i, find_alert alert_id (alert_history s) = Some (Some (i, alert)).
Proof.
  unfold get_alert.
  destruct (find_alert alert_id (alert_history s)) as [[[i a]|]|]; try discriminate.
  intros [= <-]. now exists i.
Qed.

(** X24.  Acknowledging an alert is seen by the next lookup and touches
    nothing else: when the alert exists and the request body is a JSON
    object, [acknowledge_alert] answers 200, after which [get_alert] of
    the same id returns the alert marked as acknowledged, with the time
    and the user of the request (system when the body names none) and
    every other field as before; the ring keeps its length and [get_alert]
    of every other id answers as before. *)
Theorem acknowledge_then_get (s : stores) (alert_id now : string)
    (alert body user : pyval) :
  get_alert s alert_id = Ok alert ->
  py_get "user" (PStr "system") body = Some user ->
  let s' := fst (acknowledge_alert s alert_id (Some body) now) in
  snd (acknowledge_alert s alert_id (Some body) now) = Ok tt
  /\ (exists alert',
        get_alert s' alert_id = Ok alert'
        /\ py_subscript alert' "acknowledged" = Some (PBool true)
        /\ py_subscript alert' "acknowledged_at" = Some (PStr now)
        /\ py_subscript alert' "acknowledged_by" = Some user
        /\ forall k, k <> "acknowledged" -> k <> "acknowledged_at" ->
                     k <> "acknowledged_by" ->
                     py_subscript alert' k = py_subscript alert k)
  /\ List.length (alert_history s') = List.length (alert_history s)
  /\ (forall other, other <> alert_id -> get_alert s' other = get_alert s other).
Proof.
  intros Hget Huser. cbv zeta.
  destruct (get_alert_found _ _ _ Hget) as [i Hfind].
  destruct (find_alert_found _ _ _ _ Hfind) as [Hi Hid].
  destruct alert as [| | | | | |d]; try discriminate.
  unfold acknowledge_alert. rewrite Hfind. cbn [py_setitem mbind option_bind].
  rewrite Huser. cbn [fst snd].
  set (d3 := dict_set "acknowledged_by" user
               (dict_set "acknowledged_at" (PStr now)
                  (dict_set "acknowledged" (PBool true) d))).
  assert (Hother : forall k, k <> "acknowledged" -> k <> "acknowledged_at" ->
                     k <> "acknowledged_by" -> dict_get k d3 = dict_get k d).
  { intros k H1 H2 H3. unfold d3.
    rewrite !dict_get_set_ne by congruence. reflexivity. }
  assert (Hsame : py_get "id" PNone (PDict d3) = py_get "id" PNone (PDict d)).
  { cbn [py_get]. unfold dict_get_default.
    now rewrite Hother by discriminate. }
  split; [reflexivity|]. split; [|split].
  - exists (PDict d3). unfold get_alert. cbn [alert_history with_alert_history].
    rewrite (find_alert_insert _ _ _ _ _ Hfind Hsame).
    split; [reflexivity|]. cbn [py_subscript]. unfold d3.
    split; [|split; [|split]].
    + rewrite !dict_get_set_ne by discriminate. apply dict_get_set_eq.
    + rewrite dict_get_set_ne by discriminate. apply dict_get_set_eq.
    + apply dict_get_set_eq.
    + exact Hother.
  - cbn [alert_history with_alert_history]. apply length_insert.
  - intros other Hne. unfold get_alert. cbn [alert_history with_alert_history].
    now rewrite (find_alert_insert_other _ _ _ _ _ _ Hne Hfind Hsame).
Qed.

Lemma acknowledge_then_get_witness :
  snd (acknowledge_alert two_alerts "ALT_2" (Some operator_body) "t1") = Ok tt
  /\ get_alert (fst (acknowledge_alert two_alerts "ALT_2" (Some operator_body) "t1"))
       "ALT_1"
     = get_alert two_alerts "ALT_1".
Proof.
  pose proof (acknowledge_then_get two_alerts "ALT_2" "t1"
                (PDict [ ("id", PStr "ALT_2"); ("severity", PStr "critical") ])
                operator_body (PStr "operator") eq_refl eq_refl) as (H1 & _ & _ & H4).
  split; [exact H1|]. apply H4. discriminate.
Defined.

(** X25.  An acknowledgement that fails still acknowledges: when the
    alert exists but the request has no JSON body, or a body that is not
    an object, [acknowledge_alert] raises only after it has marked the
    alert; the next [get_alert] shows it as acknowledged, with
    the user left as it was. *)
Theorem failed_acknowledge_marks_alert (s : stores) (alert_id now : string)
    (alert : pyval) (json : option pyval) :
  get_alert s alert_id = Ok alert ->
  json ≫= py_get "user" (PStr "system") = None ->
  let s' := fst (acknowledge_alert s alert_id json now) in
  snd (acknowledge_alert s alert_id json now) = Raises
  /\ exists alert',
       get_alert s' alert_id = Ok alert'
       /\ py_subscript alert' "acknowledged" = Some (PBool true)
       /\ py_subscript alert' "acknowledged_at" = Some (PStr now)
       /\ py_subscript alert' "acknowledged_by" = py_subscript alert "acknowledged_by".
Proof.
  intros Hget Hjson. cbv zeta.
  destruct (get_alert_found _ _ _ Hget) as [i Hfind].
  destruct alert as [| | | | | |d];
    try (destruct (find_alert_found _ _ _ _ Hfind) as [_ Hid]; discriminate).
  unfold acknowledge_alert. rewrite Hfind. cbn [py_setitem].
  rewrite Hjson. cbn [fst snd]. split; [reflexivity|].
  set (d2 := dict_set "acknowledged_at" (PStr now)
               (dict_set "acknowledged" (PBool true) d)).
  assert (Hsame : py_get "id" PNone (PDict d2) = py_get "id" PNone (PDict d)).
  { cbn [py_get]. unfold dict_get_default, d2.
    now rewrite !dict_get_set_ne by discriminate. }
  exists (PDict d2). unfold get_alert. cbn [alert_history with_alert_history].
  rewrite (find_alert_insert _ _ _ _ _ Hfind Hsame).
  split; [reflexivity|]. cbn [py_subscript]. unfold d2. split; [|split].
  - rewrite dict_get_set_ne by discriminate. apply dict_get_set_eq.
  - apply dict_get_set_eq.
  - now rewrite !dict_get_set_ne by discriminate.
Qed.

Lemma failed_acknowledge_marks_alert_witness :
  snd (acknowledge_alert two_alerts "ALT_1" None "t1") = Raises
  /\ exists alert',
       get_alert (fst (acknowledge_alert two_alerts "ALT_1" None "t1")) "ALT_1"
       = Ok alert'
       /\ py_subscript alert' "acknowledged" = Some (PBool true)
       /\ py_subscript alert' "acknowledged_at" = Some (PStr "t1")
       /\ py_subscript alert' "acknowledged_by" = None.
Proof.
  apply (failed_acknowledge_marks_alert two_alerts "ALT_1" "t1"
           (PDict [ ("id", PStr "ALT_1"); ("severity", PStr "high") ]) None);
    reflexivity.
Defined.

(** *** System health *)

Lemma count_online_raises (states : list pyval) (p : pyval) :
  In p states -> is_dict p = false -> count_online states = None.
Proof.
  intros Hin Hp. induction states as [|g rest IH]; [destruct Hin|].
  cbn [count_online]. destruct Hin as [->|Hin].
  - destruct p; try reflexivity. discriminate.
  - rewrite (IH Hin). destruct (py_get "status" PNone g); reflexivity.
Qed.

Lemma dict_set_value {V} (k : string) (v : V) (d : dict V) :
  In v (dict_values (dict_set k v d)).
Proof.
  unfold dict_values. apply in_map_iff. exists (k, v). split; [reflexivity|].
  apply dict_get_Some_In. apply dict_get_set_eq.
Qed.

Lemma grid_states_kept (s : stores) (m : bus_message) :
  contains "status" (msg_topic m) = false ->
  grid_states (on_mqtt_message s m) = grid_states s.
Proof.
  intros Ht. unfold on_mqtt_message, handle. rewrite Ht.
  destruct (msg_payload m) as [payload|]; cbn [mbind option_bind]; [|reflexivity].
  destruct (contains "alerts" (msg_topic m)).
  - destruct (py_setitem payload "received_at" (PStr (msg_received_at m)));
      reflexivity.
  - destruct (contains "health" (msg_topic m)); [|reflexivity].
    destruct (nth_error (split "/" (msg_topic m)) 2) as [g|];
      cbn [mbind option_bind]; [|reflexivity].
    destruct (py_setitem payload "grid_id" (PStr g)); reflexivity.
Qed.

(** X26.  A status message whose payload is valid JSON but not an object
    (a number, a string, a list, null) breaks the health endpoint: the
    payload is stored as the state of its grid, and from then on
    [get_system_health] raises - also after any number of further
    messages, as long as none of them is a status message. *)
Theorem non_object_status_breaks_health (s : stores) (m : bus_message)
    (grid_id : string) (payload : pyval) (later : list bus_message) :
  contains "status" (msg_topic m) = true ->
  nth_error (split "/" (msg_topic m)) 2 = Some grid_id ->
  msg_payload m = Some payload ->
  is_dict payload = false ->
  Forall (fun m' => contains "status" (msg_topic m') = false) later ->
  get_system_health (deliver later (on_mqtt_message s m)) = None.
Proof.
  intros Ht Hg Hp Hnd Hlater.
  assert (Hstates : grid_states (deliver later (on_mqtt_message s m))
                    = dict_set grid_id payload (grid_states s)).
  { assert (Hfirst : grid_states (on_mqtt_message s m)
                     = dict_set grid_id payload (grid_states s)).
    { unfold on_mqtt_message, handle. rewrite Hp, Ht, Hg. reflexivity. }
    rewrite <- Hfirst. generalize (on_mqtt_message s m) as s1.
    induction Hlater as [|m' later Hm' _ IH]; intros s1; [reflexivity|].
    change (deliver (m' :: later) s1) with (deliver later (on_mqtt_message s1 m')).
    rewrite IH. now apply grid_states_kept. }
  unfold get_system_health. rewrite Hstates.
  rewrite (count_online_raises _ payload (dict_set_value _ _ _) Hnd).
  reflexivity.
Qed.

Lemma non_object_status_breaks_health_witness :
  get_system_health
    (deliver [alert_message 1]
       (on_mqtt_message initial_stores
          {| msg_topic := "dhsiled/grids/G01/status"; msg_payload := Some (PInt 7);
             msg_received_at := "t" |}))
  = None.
Proof.
  apply (non_object_status_breaks_health initial_stores
           {| msg_topic := "dhsiled/grids/G01/status"; msg_payload := Some (PInt 7);
              msg_received_at := "t" |}
           "G01" (PInt 7) [alert_message 1]);
    [reflexivity | reflexivity | reflexivity | reflexivity |].
  constructor; [reflexivity|constructor].
Defined.

End ApiEndpointsFacts.

(** ** Further facts about temporal smoothing *)

Module SmoothingFacts.
Import Py PyFacts BehaviorAnalyzer.

Lemma class_scores_from (behavior : string) (history : list (dict Q)) :
  forall scores, class_scores behavior history = Some scores ->
  Forall (fun v => exists pred, In pred history /\ dict_get behavior pred = Some v)
    scores.
Proof.
  induction history as [|pred rest IH]; cbn [class_scores]; intros scores.
  - intros [= <-]. constructor.
  - destruct (dict_get behavior pred) as [s|] eqn:Hs; cbn [mbind option_bind];
      [|discriminate].
    destruct (class_scores behavior rest) as [ss|]; cbn [mbind option_bind];
      [|discriminate].
    intros [= <-]. constructor.
    + exists pred. split; [now left|exact Hs].
    + eapply List.Forall_impl; [|apply IH; reflexivity].
      intros v (p & Hp & Hv). exists p. split; [now right|exact Hv].
Qed.

(** A weighted sum with weights that are not negative lies between the
    bounds of its terms, scaled by the sum of the weights (in exact
    arithmetic). *)
Lemma dot_between (lo hi : Q) (scores : list Q) :
  forall weights : list Q,
    List.length scores = List.length weights ->
    Forall (fun v => lo <= v <= hi)%Q scores ->
    Forall (fun w => 0 <= w)%Q weights ->
    (lo * Qsum weights <= Np.dot scores weights <= hi * Qsum weights)%Q.
Proof.
  induction scores as [|v scores IH]; intros [|w weights] Hlen Hs Hw;
    try discriminate.
  - cbn. lra.
  - inversion Hs as [|? ? [Hv1 Hv2] Hs']; subst.
    inversion Hw as [|? ? Hw0 Hw']; subst.
    injection Hlen as Hlen. destruct (IH weights Hlen Hs' Hw') as [H1 H2].
    cbn [Np.dot Qsum]. split; nra.
Qed.

Lemma average_between (lo hi : Q) (scores weights : list Q) (avg : Q) :
  Forall (fun v => lo <= v <= hi)%Q scores ->
  Forall (fun w => 0 <= w)%Q weights ->
  Np.average scores weights = Some avg ->
  (lo <= avg <= hi)%Q.
Proof.
  intros Hs Hw. unfold Np.average.
  destruct (Nat.eqb_spec (List.length scores) (List.length weights)) as [Hlen|];
    [|discriminate]. cbn [negb].
  destruct (Qeq_bool (Qsum weights) 0) eqn:Hz; [discriminate|].
  intros [= <-].
  apply Qeq_bool_neq in Hz.
  pose proof (EmergencyDetectorFacts.Qsum_nonneg weights Hw) as Hnn.
  assert (Hpos : (0 < Qsum weights)%Q).
  { destruct (Qlt_le_dec 0 (Qsum weights)) as [H|H]; [exact H|].
    exfalso. apply Hz. now apply Qle_antisym. }
  destruct (dot_between lo hi scores weights Hlen Hs Hw) as [H1 H2].
  split.
  - apply Qle_shift_div_l; assumption.
  - apply Qle_shift_div_r; assumption.
Qed.

(** What the loop stores for a class it has gone through. *)
Lemma smooth_loop_lookup (history : list (dict Q)) (weights : list Q)
    (classes : list string) :
  forall (acc smoothed : dict Q) (c : string),
    smooth_loop history weights classes acc = Some smoothed ->
    In c classes ->
    exists scores avg,
      class_scores c history = Some scores
      /\ Np.average scores (firstn (List.length scores) weights) = Some avg
      /\ dict_get c smoothed = Some avg.
Proof.
  induction classes as [|b rest IH]; intros acc smoothed c Hloop Hin; [destruct Hin|].
  cbn [smooth_loop] in Hloop.
  destruct (class_scores b history) as [scores|] eqn:Hs;
    cbn [mbind option_bind] in Hloop; [|discriminate].
  destruct (Np.average scores (firstn (List.length scores) weights)) as [avg|] eqn:Ha;
    cbn [mbind option_bind] in Hloop; [|discriminate].
  destruct (in_dec string_dec c rest) as [Hrest|Hrest].
  - exact (IH _ _ _ Hloop Hrest).
  - destruct Hin as [->|Hin]; [|contradiction].
    exists scores, avg. split; [exact Hs|]. split; [exact Ha|].
    assert (Hkeep : forall (cs : list string) (a sm : dict Q),
               smooth_loop history weights cs a = Some sm -> ~ In c cs ->
               dict_get c sm = dict_get c a).
    { clear. induction cs as [|b cs IHcs]; intros a sm H Hn.
      - now injection H as <-.
      - cbn [smooth_loop] in H.
        destruct (class_scores b history) as [scores|];
          cbn [mbind option_bind] in H; [|discriminate].
        destruct (Np.average scores (firstn (List.length scores) weights)) as [avg|];
          cbn [mbind option_bind] in H; [|discriminate].
        rewrite (IHcs _ _ H) by (intros Hc; apply Hn; now right).
        apply dict_get_set_ne. intros ->. apply Hn. now left. }
    rewrite (Hkeep _ _ _ Hloop Hrest). apply dict_get_set_eq.
Qed.

Lemma normalised_weights_nonneg (n : nat) :
  Forall (fun w => 0 <= w)%Q
    (List.map (fun w : Q => w / Qsum (firstn n base_weights))%Q (firstn n base_weights)).
Proof.
  assert (Hbase : Forall (fun w => 0 <= w)%Q (firstn n base_weights)).
  { apply Forall_take. unfold base_weights.
    repeat (apply List.Forall_cons; [discriminate|]). apply List.Forall_nil. }
  pose proof (EmergencyDetectorFacts.Qsum_nonneg _ Hbase) as Hsum.
  apply List.Forall_forall. intros w Hw. apply in_map_iff in Hw as (w0 & <- & Hw0).
  rewrite List.Forall_forall in Hbase. specialize (Hbase _ Hw0).
  apply Qmult_le_0_compat; [exact Hbase|now apply Qinv_le_0_compat].
Qed.

Lemma deque_append_In {A} (n : nat) (x y : A) (dq : list A) :
  In y (deque_append n x dq) -> In y (dq ++ [x]).
Proof.
  unfold deque_append. destruct (n <=? List.length dq)%nat; [|auto].
  intros H. apply in_app_or in H as [H|H]; apply in_or_app; [left|now right].
  destruct dq; [destruct H|now right].
Qed.

(** X27.  Temporal smoothing keeps probabilities probabilities: whenever
    [_apply_temporal_smoothing] returns and every score of the history
    and of the current prediction lies between 0 and 1, the map returned
    has a score for each of the eight classes, and each lies between 0
    and 1. *)
Theorem smoothed_scores_stay_probabilities (history : list (dict Q))
    (current smoothed : dict Q) :
  fst (_apply_temporal_smoothing history current) = Some smoothed ->
  (forall pred c v, In pred (history ++ [current]) -> dict_get c pred = Some v ->
                    (0 <= v <= 1)%Q) ->
  forall c, In c behavior_classes ->
            exists v, dict_get c smoothed = Some v /\ (0 <= v <= 1)%Q.
Proof.
  unfold _apply_temporal_smoothing. cbn [fst]. intros Hsm Hrange c Hc.
  destruct (smooth_loop_lookup _ _ _ _ _ c Hsm Hc) as (scores & avg & Hs & Ha & Hget).
  exists avg. split; [exact Hget|].
  eapply (average_between 0 1 scores); [| |exact Ha].
  - eapply List.Forall_impl; [|exact (class_scores_from _ _ _ Hs)].
    intros v (pred & Hin & Hv). apply (Hrange pred c v); [|exact Hv].
    now apply deque_append_In with 5%nat.
  - apply Forall_take. apply normalised_weights_nonneg.
Qed.

Lemma smoothed_scores_stay_probabilities_witness :
  exists v,
    dict_get "panic"
      (default [] (fst (_apply_temporal_smoothing [sample_prediction]
                          sample_prediction)))
    = Some v
    /\ (0 <= v <= 1)%Q.
Proof.
  apply (smoothed_scores_stay_probabilities [sample_prediction] sample_prediction
           (default [] (fst (_apply_temporal_smoothing [sample_prediction]
                               sample_prediction)))).
  - reflexivity.
  - intros pred c v [<-|[<-|[]]] Hv; apply dict_get_Some_In in Hv;
      repeat (destruct Hv as [[= <- <-]|Hv]; [split; discriminate|]);
      destruct Hv.
  - cbn. tauto.
Defined.

End SmoothingFacts.

(** ** Facts about the enhanced scores and the detected emergencies *)

Module EmergencyAlertsFacts.
Import Py PyFacts EmergencyDetector EmergencyDetectorFacts EmergencyAlerts.

Lemma value_le_sum (m : dict Q) (k : string) (v : Q) :
  all_nonneg m -> In (k, v) m -> (0 <= v <= Qsum (dict_values m))%Q.
Proof.
  intros Hn Hin. induction m as [|[k0 v0] m IH]; [destruct Hin|].
  inversion Hn as [|? ? Hv0 Hrest]; subst. cbn [snd] in Hv0.
  assert (Hsum : (0 <= Qsum (dict_values m))%Q).
  { apply Qsum_nonneg. unfold dict_values. apply List.Forall_forall.
    intros y Hy. apply in_map_iff in Hy as (kv & <- & Hkv).
    rewrite List.Forall_forall in Hrest. now apply Hrest. }
  cbn [dict_values List.map Qsum snd]. fold (dict_values m).
  destruct Hin as [[= -> ->]|Hin].
  - lra.
  - destruct (IH Hrest Hin). lra.
Qed.

Lemma normalize_probabilities (m : dict Q) :
  all_nonneg m -> some_positive m ->
  all_probabilities (normalize m) /\ dict_keys (normalize m) = dict_keys m.
Proof.
  intros Hn Hp. pose proof (scores_sum_positive m Hn Hp) as Hpos.
  unfold normalize.
  assert (Htotal : (0 < Np.py_sum (dict_values m))%Q) by now rewrite py_sum_Qsum.
  rewrite (proj2 (Qltb_lt _ _) Htotal). split.
  - apply List.Forall_forall. intros [k v'] Hin.
    apply in_map_iff in Hin as ([k0 v] & [= <- <-] & Hin). cbn [fst snd].
    destruct (value_le_sum m k0 v Hn Hin) as [H0 H1].
    rewrite <- py_sum_Qsum in H1. split.
    + apply Qle_shift_div_l; [exact Htotal|]. lra.
    + apply Qle_shift_div_r; [exact Htotal|]. lra.
  - unfold dict_keys. rewrite List.map_map. reflexivity.
Qed.

(** The map [_enhance_detection] normalises, for scores that are not
    negative over the eight classes. *)
Lemma enhance_detection_normalizes (d : detector) (f : frame) (base_scores : dict Q) :
  (forall c, In c emergency_classes -> In c (dict_keys base_scores)) ->
  all_nonneg base_scores ->
  some_positive base_scores ->
  exists m, all_nonneg m /\ some_positive m
            /\ dict_keys m = dict_keys base_scores
            /\ _enhance_detection d f base_scores = normalize m.
Proof.
  intros Hkeys Hn Hp.
  assert (Hfire : In "fire" (dict_keys base_scores)) by (apply Hkeys; simpl; tauto).
  assert (Hsmoke : In "smoke" (dict_keys base_scores)) by (apply Hkeys; simpl; tauto).
  assert (Hacc : In "accident" (dict_keys base_scores)) by (apply Hkeys; simpl; tauto).
  unfold _enhance_detection.
  assert (Hcolored : exists m, all_nonneg m /\ some_positive m
            /\ dict_keys m = dict_keys base_scores
            /\ (if use_color_analysis d then
                  match boost "fire" (_analyze_fire_colors f * (3 # 10)) base_scores with
                  | None => inl base_scores
                  | Some with_fire =>
                      match boost "smoke" (_analyze_smoke_colors f * (3 # 10)) with_fire with
                      | None => inl with_fire
                      | Some with_smoke => inr with_smoke
                      end
                  end
                else inr base_scores) = (inr m : dict Q + dict Q)).
  { destruct (use_color_analysis d); [|exists base_scores; auto].
    pose proof (fire_score_nonneg f) as Hf. pose proof (smoke_score_nonneg f) as Hs.
    assert (Hfa : (0 <= _analyze_fire_colors f * (3 # 10))%Q) by nra.
    assert (Hsa : (0 <= _analyze_smoke_colors f * (3 # 10))%Q) by nra.
    destruct (boost_defined "fire" (_analyze_fire_colors f * (3 # 10)) _ Hfire) as [m1 H1].
    destruct (boost_keeps_scores _ _ _ _ Hfa H1) as (K1 & N1 & P1).
    rewrite H1. rewrite <- K1 in Hsmoke.
    destruct (boost_defined "smoke" (_analyze_smoke_colors f * (3 # 10)) _ Hsmoke) as [m2 H2].
    destruct (boost_keeps_scores _ _ _ _ Hsa H2) as (K2 & N2 & P2).
    rewrite H2. exists m2. repeat split; auto. now rewrite K2. }
  destruct Hcolored as (m & Hmn & Hmp & Hmk & Hm). rewrite Hm.
  destruct (use_motion_analysis d && (0 <? List.length (detection_history d))%nat);
    [|exists m; auto].
  rewrite <- Hmk in Hacc.
  pose proof (motion_score_nonneg d) as Hmo.
  assert (Hma : (0 <= _analyze_motion_patterns d * (2 # 10))%Q) by nra.
  destruct (boost_defined "accident" (_analyze_motion_patterns d * (2 # 10)) _ Hacc)
    as [m3 H3].
  destruct (boost_keeps_scores _ _ _ _ Hma H3) as (K3 & N3 & P3).
  rewrite H3. exists m3. repeat split; auto. now rewrite K3.
Qed.

(** X28.  The enhanced scores are a distribution over the same classes:
    for scores over the eight classes that are not negative, one of them
    positive, every score [_enhance_detection] returns lies between 0 and
    1, and the map has the keys of the input in the same order, whatever
    the colour and motion heuristics add. *)
Theorem enhanced_scores_are_probabilities (d : detector) (f : frame)
    (base_scores : dict Q) :
  (forall c, In c emergency_classes -> In c (dict_keys base_scores)) ->
  all_nonneg base_scores ->
  some_positive base_scores ->
  all_probabilities (_enhance_detection d f base_scores)
  /\ dict_keys (_enhance_detection d f base_scores) = dict_keys base_scores.
Proof.
  intros Hkeys Hn Hp.
  destruct (enhance_detection_normalizes d f base_scores Hkeys Hn Hp)
    as (m & Hmn & Hmp & Hmk & ->).
  destruct (normalize_probabilities m Hmn Hmp) as [H1 H2].
  split; [exact H1|]. now rewrite H2.
Qed.

Lemma enhanced_scores_are_probabilities_witness :
  all_probabilities (_enhance_detection fresh_detector dark_frame uniform_scores)
  /\ dict_keys (_enhance_detection fresh_detector dark_frame uniform_scores)
     = emergency_classes.
Proof.
  apply (enhanced_scores_are_probabilities fresh_detector dark_frame uniform_scores).
  - intros c Hc. exact Hc.
  - unfold all_nonneg, uniform_scores. simpl.
    repeat (apply List.Forall_cons; [discriminate|]). apply List.Forall_nil.
  - unfold some_positive, uniform_scores. simpl. apply Exists_cons_hd. reflexivity.
Defined.

Lemma detect_step_detected (now : Q) (acc : gmap string Q * list detected_emergency)
    (item : string * Q) (P : detected_emergency -> Prop) :
  (fst item <> "normal" ->
   (dict_get_default (fst item) (7 # 10) detection_thresholds < snd item)%Q ->
   P {| de_type := fst item; de_confidence := snd item;
        de_severity := _get_emergency_severity (fst item) (snd item);
        de_threshold := dict_get_default (fst item) (7 # 10)%Q detection_thresholds;
        de_timestamp := now;
        de_description := _get_emergency_description (fst item) |}) ->
  Forall P (snd acc) -> Forall P (snd (detect_step now acc item)).
Proof.
  destruct acc as [last detected], item as [emergency score]. cbn [fst snd].
  intros Hnew Hacc. unfold detect_step.
  destruct (String.eqb_spec emergency "normal") as [_|Hne]; [exact Hacc|].
  destruct (Qltb (dict_get_default emergency (7 # 10)%Q detection_thresholds) score)
    eqn:Hs; [|exact Hacc].
  destruct (negb (_is_in_cooldown now last emergency)); [|exact Hacc].
  cbn [snd]. apply Forall_app. split; [exact Hacc|].
  constructor; [|constructor]. apply Hnew; [exact Hne|now apply Qltb_lt].
Qed.

Lemma graded_when_detected (now : Q) (emergency : string) (score : Q) :
  emergency <> "normal" ->
  (dict_get_default emergency (7 # 10) detection_thresholds < score)%Q ->
  well_graded
    {| de_type := emergency; de_confidence := score;
       de_severity := _get_emergency_severity emergency score;
       de_threshold := dict_get_default emergency (7 # 10)%Q detection_thresholds;
       de_timestamp := now;
       de_description := _get_emergency_description emergency |}.
Proof.
  intros Hne Hs. unfold well_graded. cbn [de_type de_confidence de_severity de_threshold].
  split; [exact Hne|]. split; [exact Hs|].
  split; [|split; [|split]]; intros ->.
  - change (9 # 10 < score)%Q in Hs. unfold _get_emergency_severity. cbn [one_of existsb].
    cbn. now rewrite (proj2 (Qltb_lt _ _) Hs).
  - change (8 # 10 < score)%Q in Hs. unfold _get_emergency_severity. cbn.
    rewrite (proj2 (Qltb_lt (8 # 10) score) Hs).
    destruct (Qltb (9 # 10) score); auto.
  - change (75 # 100 < score)%Q in Hs. unfold _get_emergency_severity. cbn.
    assert (H7 : (7 # 10 < score)%Q) by lra.
    rewrite (proj2 (Qltb_lt (7 # 10) score) H7).
    destruct (Qltb (85 # 100) score); auto.
  - unfold _get_emergency_severity. cbn.
    destruct (Qltb (8 # 10) score); auto.
Qed.

(** X29.  The severity of a detected emergency is tied to its threshold:
    every entry [is_emergency_detected] returns is for a class other than
    normal whose score is above the threshold of the class, and so an
    explosion is always critical, structural damage is never below high,
    a flood is medium or high, and a medical emergency is never above
    medium. *)
Theorem detected_emergencies_are_graded (now : Q) (last_alert_time : gmap string Q)
    (emergency_scores : dict Q) :
  Forall well_graded
    (snd (snd (is_emergency_detected now last_alert_time emergency_scores))).
Proof.
  unfold is_emergency_detected.
  assert (H : forall (items : dict Q) (acc : gmap string Q * list detected_emergency),
             Forall well_graded (snd acc) ->
             Forall well_graded (snd (fold_left (detect_step now) items acc))).
  { induction items as [|item items IH]; intros acc Hacc; [exact Hacc|].
    cbn [fold_left]. apply IH. apply detect_step_detected; [|exact Hacc].
    intros Hne Hs. destruct item as [emergency score].
    now apply graded_when_detected. }
  specialize (H emergency_scores (last_alert_time, []) (List.Forall_nil _)).
  destruct (fold_left (detect_step now) emergency_scores (last_alert_time, []))
    as [last detected].
  exact H.
Qed.

End EmergencyAlertsFacts.

(** ** From the enhanced scores to the emergency status *)

Module EmergencyPipelineFacts.
Import Py PyFacts EdgeProcessor EdgeAnalysis EdgeAnalysisFacts.
Import EmergencyDetector EmergencyDetectorFacts EmergencyAlerts EmergencyAlertsFacts.

Lemma two_values_le_sum (m : dict Q) (k k' : string) (v v' : Q) :
  all_nonneg m -> In (k, v) m -> In (k', v') m -> k <> k' ->
  (v + v' <= Qsum (dict_values m))%Q.
Proof.
  intros Hn Hin Hin' Hne. induction m as [|[k0 v0] m IH]; [destruct Hin|].
  inversion Hn as [|? ? Hv0 Hrest]; subst. cbn [snd] in Hv0.
  cbn [dict_values List.map Qsum snd]. fold (dict_values m).
  destruct Hin as [[= -> ->]|Hin], Hin' as [[= -> ->]|Hin'].
  - congruence.
  - destruct (value_le_sum m k' v' Hrest Hin'). lra.
  - destruct (value_le_sum m k v Hrest Hin). lra.
  - specialize (IH Hrest Hin Hin'). lra.
Qed.

(** X30.  At most one class can raise the alarm: when the edge processor
    classifies scores that [_enhance_detection] returned for base scores
    that are not negative, and the status is warning or emergency, the
    reported type is the one class above 0.6 and every other class,
    normal among them, is below 0.4. *)
Theorem alarm_has_one_class (d : detector) (f : frame) (base_scores : dict Q) :
  (forall c, In c emergency_classes -> In c (dict_keys base_scores)) ->
  all_nonneg base_scores ->
  some_positive base_scores ->
  let enhanced_scores := _enhance_detection d f base_scores in
  let es := detect_emergencies enhanced_scores in
  es_status es <> "clear" ->
  exists k, es_type es = Some k
    /\ In (k, es_confidence es) enhanced_scores
    /\ (6 # 10 < es_confidence es)%Q
    /\ forall k' v', In (k', v') enhanced_scores -> k' <> k -> (v' < 4 # 10)%Q.
Proof.
  intros Hkeys Hn Hp. cbv zeta.
  destruct (enhance_detection_normalizes d f base_scores Hkeys Hn Hp)
    as (m & Hmn & Hmp & _ & ->).
  pose proof (normalize_sums_to_one m Hmn Hmp) as Hsum.
  destruct (normalize_probabilities m Hmn Hmp) as [Hprob _].
  assert (Hnn : all_nonneg (normalize m)).
  { eapply List.Forall_impl; [|exact Hprob]. intros kv [H _]. exact H. }
  rewrite py_sum_Qsum in Hsum.
  generalize dependent (normalize m). intros scores Hsum Hprob Hnn.
  unfold detect_emergencies.
  pose proof (highest_fold scores 0 None) as H. cbv zeta in H.
  destruct (fold_left highest_step scores (0%Q, None)) as [top t].
  cbn [fst snd] in H. destruct H as (_ & _ & H3).
  assert (Hfound : (6 # 10 < top)%Q ->
            exists k, t = Some k /\ In (k, top) scores
              /\ forall k' v', In (k', v') scores -> k' <> k -> (v' < 4 # 10)%Q).
  { intros Htop. destruct H3 as [[= -> ->]|(k & Ht & _ & Hin & _)]; [lra|].
    exists k. split; [exact Ht|]. split; [exact Hin|].
    intros k' v' Hin' Hne.
    pose proof (two_values_le_sum scores k k' top v' Hnn Hin Hin'
                  ltac:(congruence)) as Hle.
    rewrite Hsum in Hle. lra. }
  destruct (Qltb (8 # 10) top) eqn:E8; [|destruct (Qltb (6 # 10) top) eqn:E6].
  - apply Qltb_lt in E8. cbn [es_status es_type es_confidence]. intros _.
    destruct (Hfound ltac:(lra)) as (k & Ht & Hin & Hothers).
    exists k. repeat split; auto. lra.
  - apply Qltb_lt in E6. cbn [es_status es_type es_confidence]. intros _.
    destruct (Hfound E6) as (k & Ht & Hin & Hothers).
    exists k. repeat split; auto.
  - cbn [es_status]. congruence.
Qed.

Lemma alarm_has_one_class_witness :
  let enhanced_scores :=
    _enhance_detection fresh_detector dark_frame
      [ ("normal", 1 # 10); ("fire", 9 # 10); ("smoke", 0); ("accident", 0);
        ("medical_emergency", 0); ("structural_damage", 0); ("flood", 0);
        ("explosion", 0) ]%Q in
  exists k, es_type (detect_emergencies enhanced_scores) = Some k
    /\ In (k, es_confidence (detect_emergencies enhanced_scores)) enhanced_scores
    /\ (6 # 10 < es_confidence (detect_emergencies enhanced_scores))%Q
    /\ forall k' v', In (k', v') enhanced_scores -> k' <> k -> (v' < 4 # 10)%Q.
Proof.
  apply (alarm_has_one_class fresh_detector dark_frame
           [ ("normal", 1 # 10); ("fire", 9 # 10); ("smoke", 0); ("accident", 0);
             ("medical_emergency", 0); ("structural_damage", 0); ("flood", 0);
             ("explosion", 0) ]%Q).
  - intros c Hc. cbn. cbn in Hc. tauto.
  - unfold all_nonneg.
    repeat (apply List.Forall_cons; [discriminate|]). apply List.Forall_nil.
  - apply Exists_cons_hd. reflexivity.
  - vm_compute. discriminate.
Defined.

End EmergencyPipelineFacts.
